(** * Transaction ingress and relay of the mempool component

    A shallow embedding of [src/mempool/mempoolcomponent_net.cpp]
    (class [CMempoolComponent]): the existence oracle [DoesTxExist], the
    fetch handler [NetRequestTxData], the ingress pipeline
    [NetReceiveTxData], the inventory builder [NetRequestTxInventory] and
    the two orphan eviction hooks, followed by the properties the
    specification states about them.

    The file-level globals ([recentRejects], [hashRecentRejectsChainTip],
    [mapRelay], [vRelayExpiration]) and the collaborators the component
    calls are threaded as an explicit [State]; every call made on a
    collaborator is appended to a chronological log. *)

From Stdlib Require Import ZArith List String Bool Lia Sorted.
From stdpp Require Import gmap strings list fin_maps.

Local Open Scope Z_scope.

(** ** Data *)

(** A 256-bit hash; only equality is ever used on it. *)
Abbreviation uint256 := N (only parsing).
(** [NodeId] is an [int64_t]. *)
Abbreviation NodeId := Z (only parsing).

Record COutPoint := { op_hash : uint256; op_n : N }.

Record CTxIn := { prevout : COutPoint }.

Record CTxOut := { nValue : Z }.

(** [GetHash] returns the hash cached in the transaction object. *)
Record CTransaction := {
  GetHash : uint256;
  vin : list CTxIn;
  vout : list CTxOut;
  HasWitness : bool
}.

Record CInv := { inv_type : Z; inv_hash : uint256 }.

(** A block, as far as this file reads it: its transactions. *)
Record CBlock := { vtx : list CTransaction }.

(** Modelled from the spec: [CValidationState] is declared in a header that
    is not part of the sources at hand.  The specification describes the
    validation state as carrying an invalid verdict with a DoS score, a
    reject code and reason, and a [corruption_possible] flag. *)
Record CValidationState := {
  invalid : bool;
  nDoS : Z;
  chRejectCode : Z;
  strRejectReason : string;
  corruptionPossible : bool
}.

(** A default-constructed state: valid, nothing recorded. *)
Definition fresh_state : CValidationState :=
  {| invalid := false; nDoS := 0; chRejectCode := 0;
     strRejectReason := EmptyString; corruptionPossible := false |}.

(** [state.IsInvalid(nDoSRet)]: the verdict, and the value left in the
    reference argument (overwritten only when the state is invalid). *)
Definition IsInvalid (state : CValidationState) (nDoSRet : Z) : bool * Z :=
  if invalid state then (true, nDoS state) else (false, nDoSRet).

Definition CorruptionPossible (state : CValidationState) : bool :=
  corruptionPossible state.

Definition GetRejectCode (state : CValidationState) : Z := chRejectCode state.

Definition GetRejectReason (state : CValidationState) : string :=
  strRejectReason state.

(** Modelled from the spec: what [mempool.info] and [mempool.infoAll] hand
    out for a transaction that is in the pool ([{tx, time, fee_rate}]); the
    header declaring [TxMempoolInfo] is not among the sources.  A lookup
    that finds nothing yields an info with a null [tx], rendered as
    [None] of this record. *)
Record TxMempoolInfo := {
  info_tx : CTransaction;
  nTime : Z;
  feeRate : Z            (* feeRate.GetFeePerK() *)
}.

(** Modelled from the spec: an orphan-pool entry ([{tx, from_peer,
    added_at}]), with the two fields this file reads. *)
Record COrphanTx := { otx : CTransaction; fromPeer : NodeId }.

(** Modelled from the spec: the peer context handed in by the network
    layer ([{peer_id, flags, local_services, send_version,
    out_misbehavior_score, out_flags}]), under the field names the source
    uses. *)
Record ExNode := {
  nodeID : NodeId;
  flags : Z;
  nLocalServices : Z;
  sendVersion : Z;
  retFlags : Z;
  nMisbehavior : Z
}.

(** The three settings read through [Args().GetArg]. *)
Record ArgsManager := {
  whitelistrelay : bool;
  whitelistforcerelay : bool;
  maxorphantx : Z          (* uint32_t *)
}.

(** Everything [AcceptToMemoryPool] reports back: its return value, the
    validation state it filled in, [*pfMissingInputs], and the transactions
    it appended to [*plTxnReplaced]. *)
Record ATMPResult := {
  atmp_ok : bool;
  atmp_state : CValidationState;
  atmp_missing : bool;
  atmp_removed : list CTransaction
}.

(** On whose behalf a validation ran: the peer that sent the transaction
    or the peer recorded in the orphan entry being re-validated. *)
Inductive origin :=
| FromWire (peer : NodeId)
| FromOrphanPool (peer : NodeId).

(** The calls the component makes on its collaborators, in the order they
    are made: messages and requests to the network layer, hand-overs to
    the compact-block extra pool, mempool consistency checks, every run of
    [AcceptToMemoryPool] with what it reported, and every insertion into
    the rejects filter. *)
Inductive Event :=
| SendTx (peer version nSendFlags : Z) (tx : CTransaction)
| SendReject (peer version code : Z) (reason : string) (hash : uint256)
| SendInv (peer version : Z) (vInv : list CInv)
| BroadcastTransaction (hash : uint256)
| AskForTransaction (peer : NodeId) (hash : uint256) (nFetchFlags : Z)
| AddTxInventoryKnown (peer : NodeId) (hash : uint256) (nFetchFlags : Z)
| MisbehaveNode (peer : NodeId) (howmuch : Z)
| AddToCompactExtraTransactions (tx : CTransaction)
| MempoolCheck
| Validated (who : origin) (tx : CTransaction) (res : ATMPResult)
| RejectsInsert (hash : uint256).

(** How a call of the component ends. [Aborted] is a failed [assert] or a
    dereference of the null [recentRejects]; [OutOfFuel] is an artefact of
    the bounded unrolling of the orphan work queue. *)
Inductive outcome (A : Type) :=
| Returned (a : A)
| Aborted
| OutOfFuel.

Arguments Returned {A} a.
Arguments Aborted {A}.
Arguments OutOfFuel {A}.

Definition obind {A B} (m : outcome A) (k : A -> outcome B) : outcome B :=
  match m with
  | Returned a => k a
  | Aborted => Aborted
  | OutOfFuel => OutOfFuel
  end.

Notation "x <-- m ;; k" := (obind m (fun x => k))
  (at level 100, m at next level, right associativity).

(** ** Collaborators

    The mempool, the chain view, the orphan manager, the bloom filters, the
    flag macros and the protocol constants are declared in headers and
    sources outside this file; the component is modelled against their
    interface. *)
Class Collaborators := {
  (** [CTxMemPool] together with the chain view it validates against. *)
  Ledger : Type;
  mp_exists : Ledger -> uint256 -> bool;
  mp_info : Ledger -> uint256 -> option TxMempoolInfo;
  mp_infoAll : Ledger -> list TxMempoolInfo;
  AcceptToMemoryPool : Ledger -> CTransaction -> ATMPResult * Ledger;
  CompareDepthAndScore : Ledger -> uint256 -> uint256 -> bool;
  TipBlockHash : Ledger -> uint256;
  (** [GetCoinsTip() != nullptr] *)
  HasCoinsTip : Ledger -> bool;
  HaveCoinInCache : Ledger -> COutPoint -> bool;

  (** [COrphanTxMgr] *)
  OrphanMgr : Type;
  om_Exists : OrphanMgr -> uint256 -> bool;
  FindOrphanTransactionsByPrev : OrphanMgr -> COutPoint -> list COrphanTx;
  AddOrphanTx : OrphanMgr -> CTransaction -> NodeId -> bool * OrphanMgr;
  LimitOrphanTxSize : OrphanMgr -> Z -> Z * OrphanMgr;
  EraseOrphanTx : OrphanMgr -> uint256 -> Z * OrphanMgr;
  EraseOrphansFor : OrphanMgr -> NodeId -> Z * OrphanMgr;

  (** [CRollingBloomFilter] *)
  RollingBloom : Type;
  rb_contains : RollingBloom -> uint256 -> bool;
  rb_insert : RollingBloom -> uint256 -> RollingBloom;
  rb_reset : RollingBloom -> RollingBloom;
  rb_new : RollingBloom;

  (** [CBloomFilter] *)
  BloomFilter : Type;
  IsRelevantAndUpdate : BloomFilter -> CTransaction -> bool * BloomFilter;

  RecursiveDynamicUsage : CTransaction -> Z;

  IsFlagsBitOn : Z -> Z -> bool;
  SetFlagsBit : Z -> Z -> Z;
  NF_RELAYTX : Z;
  NF_WHITELIST : Z;
  NF_WITNESS : Z;
  NF_NEWTRANSACTION : Z;
  NODE_WITNESS : Z;
  MSG_TX : Z;
  MSG_WITNESS_FLAG : Z;
  SERIALIZE_TRANSACTION_NO_WITNESS : Z;
  REJECT_INTERNAL : Z;
  MAX_REJECT_MESSAGE_LENGTH : nat;
  MAX_INV_SZ : Z;
  INVENTORY_BROADCAST_MAX : Z
}.

Section Component.

Context `{Env : Collaborators}.

(** ** State *)

Record State := {
  recentRejects : option RollingBloom;      (* null until InitializeForNet *)
  hashRecentRejectsChainTip : uint256;
  mapRelay : gmap N CTransaction;
  vRelayExpiration : list (Z * uint256);
  ledger : Ledger;
  orphanTxMgr : OrphanMgr;
  calls : list Event
}.

Definition set_rejects (rr : option RollingBloom) (s : State) : State :=
  {| recentRejects := rr;
     hashRecentRejectsChainTip := hashRecentRejectsChainTip s;
     mapRelay := mapRelay s; vRelayExpiration := vRelayExpiration s;
     ledger := ledger s; orphanTxMgr := orphanTxMgr s; calls := calls s |}.

Definition set_rejects_tip (h : uint256) (s : State) : State :=
  {| recentRejects := recentRejects s;
     hashRecentRejectsChainTip := h;
     mapRelay := mapRelay s; vRelayExpiration := vRelayExpiration s;
     ledger := ledger s; orphanTxMgr := orphanTxMgr s; calls := calls s |}.

Definition set_relay (m : gmap N CTransaction) (q : list (Z * uint256))
    (s : State) : State :=
  {| recentRejects := recentRejects s;
     hashRecentRejectsChainTip := hashRecentRejectsChainTip s;
     mapRelay := m; vRelayExpiration := q;
     ledger := ledger s; orphanTxMgr := orphanTxMgr s; calls := calls s |}.

Definition set_ledger (l : Ledger) (s : State) : State :=
  {| recentRejects := recentRejects s;
     hashRecentRejectsChainTip := hashRecentRejectsChainTip s;
     mapRelay := mapRelay s; vRelayExpiration := vRelayExpiration s;
     ledger := l; orphanTxMgr := orphanTxMgr s; calls := calls s |}.

Definition set_orphans (o : OrphanMgr) (s : State) : State :=
  {| recentRejects := recentRejects s;
     hashRecentRejectsChainTip := hashRecentRejectsChainTip s;
     mapRelay := mapRelay s; vRelayExpiration := vRelayExpiration s;
     ledger := ledger s; orphanTxMgr := o; calls := calls s |}.

(** Append one call to the log. *)
Definition emit (e : Event) (s : State) : State :=
  {| recentRejects := recentRejects s;
     hashRecentRejectsChainTip := hashRecentRejectsChainTip s;
     mapRelay := mapRelay s; vRelayExpiration := vRelayExpiration s;
     ledger := ledger s; orphanTxMgr := orphanTxMgr s;
     calls := calls s ++ [e] |}.

(** [recentRejects->insert(hash)], which dereferences the pointer. *)
Definition rejects_insert (hash : uint256) (s : State) : outcome State :=
  match recentRejects s with
  | Some rr => Returned (emit (RejectsInsert hash)
                           (set_rejects (Some (rb_insert rr hash)) s))
  | None => Aborted
  end.

(** ** InitializeForNet *)


(** ** DoesTxExist *)

(** The part of [DoesTxExist] after the rejects filter: mempool, orphan
    pool, then outputs 0 and 1 in the UTXO cache. *)
Definition known_elsewhere (txHash : uint256) (s : State) : bool :=
  if mp_exists (ledger s) txHash || om_Exists (orphanTxMgr s) txHash then true
  else if HasCoinsTip (ledger s) then
    HaveCoinInCache (ledger s) {| op_hash := txHash; op_n := 0 |}
    || HaveCoinInCache (ledger s) {| op_hash := txHash; op_n := 1 |}
  else false.

Definition DoesTxExist (txHash : uint256) (s : State) : bool * State :=
  match recentRejects s with
  | Some rr =>
      let tipBlockHash := TipBlockHash (ledger s) in
      if negb (N.eqb tipBlockHash (hashRecentRejectsChainTip s)) then
        let s' := set_rejects (Some (rb_reset rr))
                    (set_rejects_tip tipBlockHash s) in
        (known_elsewhere txHash s', s')
      else if rb_contains rr txHash then (true, s)
      else (known_elsewhere txHash s, s)
  | None => (known_elsewhere txHash s, s)
  end.

(** ** NetRequestTxData *)

Definition NetRequestTxData (xnode : ExNode) (txHash : uint256)
    (witness : bool) (timeLastMempoolReq : Z) (s : State) : bool * State :=
  let nSendFlags := if witness then 0 else SERIALIZE_TRANSACTION_NO_WITNESS in
  match mapRelay s !! txHash with
  | Some tx =>
      (true, emit (SendTx (nodeID xnode) (sendVersion xnode) nSendFlags tx) s)
  | None =>
      match mp_info (ledger s) txHash with
      | Some txinfo =>
          if nTime txinfo <=? timeLastMempoolReq then
            (true, emit (SendTx (nodeID xnode) (sendVersion xnode) nSendFlags
                           (info_tx txinfo)) s)
          else (false, s)
      | None => (false, s)
      end
  end.

(** ** NetReceiveTxData *)

(** The locals of the recursive orphan resolution (source lines 145-152 and
    175) together with the component state. *)
Record Resolution := {
  vWorkQueue : list COutPoint;
  vEraseQueue : list uint256;
  setMisbehaving : gset Z;
  lRemovedTxn : list CTransaction;
  rstate : State
}.

Definition with_state (s : State) (r : Resolution) : Resolution :=
  {| vWorkQueue := vWorkQueue r; vEraseQueue := vEraseQueue r;
     setMisbehaving := setMisbehaving r; lRemovedTxn := lRemovedTxn r;
     rstate := s |}.

Definition with_queue (q : list COutPoint) (r : Resolution) : Resolution :=
  {| vWorkQueue := q; vEraseQueue := vEraseQueue r;
     setMisbehaving := setMisbehaving r; lRemovedTxn := lRemovedTxn r;
     rstate := rstate r |}.

(** The outpoints [(hash, 0) .. (hash, n-1)] pushed for a transaction with
    [n] outputs. *)
Definition outpoints_of (hash : uint256) (n : nat) : list COutPoint :=
  map (fun i => {| op_hash := hash; op_n := N.of_nat i |}) (seq 0 n).

(** Body of the loop over the orphans that spend one outpoint
    (source lines 187-235). *)
Definition ResolveOrphan (o : COrphanTx) (r : Resolution)
    : outcome Resolution :=
  let orphanTx := otx o in
  let orphanHash := GetHash orphanTx in
  if decide (fromPeer o ∈ setMisbehaving r) then Returned r
  else
    let '(res, l') := AcceptToMemoryPool (ledger (rstate r)) orphanTx in
    let s1 := emit (Validated (FromOrphanPool (fromPeer o)) orphanTx res)
                (set_ledger l' (rstate r)) in
    let removed := lRemovedTxn r ++ atmp_removed res in
    r2 <-- (if atmp_ok res then
              Returned
                {| vWorkQueue := vWorkQueue r
                     ++ outpoints_of orphanHash (length (vout orphanTx));
                   vEraseQueue := vEraseQueue r ++ [orphanHash];
                   setMisbehaving := setMisbehaving r;
                   lRemovedTxn := removed;
                   rstate := emit (BroadcastTransaction orphanHash) s1 |}
            else if negb (atmp_missing res) then
              let '(inv, nDos) := IsInvalid (atmp_state res) 0 in
              let punish := inv && (0 <? nDos) in
              let s2 := if punish
                        then emit (MisbehaveNode (fromPeer o) nDos) s1
                        else s1 in
              let mis := if punish
                         then {[fromPeer o]} ∪ setMisbehaving r
                         else setMisbehaving r in
              s3 <-- (if negb (HasWitness orphanTx)
                         && negb (CorruptionPossible (atmp_state res))
                      then rejects_insert orphanHash s2
                      else Returned s2) ;;
              Returned
                {| vWorkQueue := vWorkQueue r;
                   vEraseQueue := vEraseQueue r ++ [orphanHash];
                   setMisbehaving := mis;
                   lRemovedTxn := removed;
                   rstate := s3 |}
            else
              Returned
                {| vWorkQueue := vWorkQueue r;
                   vEraseQueue := vEraseQueue r;
                   setMisbehaving := setMisbehaving r;
                   lRemovedTxn := removed;
                   rstate := s1 |}) ;;
    Returned (with_state (emit MempoolCheck (rstate r2)) r2).

(** The loop over [itByPrev->second]. *)
Fixpoint ResolveOrphans (os : list COrphanTx) (r : Resolution)
    : outcome Resolution :=
  match os with
  | [] => Returned r
  | o :: os' => r' <-- ResolveOrphan o r ;; ResolveOrphans os' r'
  end.

(** [while (!vWorkQueue.empty())]: one unit of fuel per popped outpoint. *)
Fixpoint ProcessWorkQueue (fuel : nat) (r : Resolution)
    : outcome Resolution :=
  match vWorkQueue r with
  | [] => Returned r
  | front :: rest =>
      match fuel with
      | O => OutOfFuel
      | S fuel' =>
          let itByPrev :=
            FindOrphanTransactionsByPrev (orphanTxMgr (rstate r)) front in
          r' <-- ResolveOrphans itByPrev (with_queue rest r) ;;
          ProcessWorkQueue fuel' r'
      end
  end.

(** [for (uint256 hash : vEraseQueue) orphanTxMgr.EraseOrphanTx(hash)] *)
Fixpoint EraseOrphans (hashes : list uint256) (s : State) : State :=
  match hashes with
  | [] => s
  | hash :: rest =>
      EraseOrphans rest
        (set_orphans (snd (EraseOrphanTx (orphanTxMgr s) hash)) s)
  end.

Definition set_retFlags (f : Z) (x : ExNode) : ExNode :=
  {| nodeID := nodeID x; flags := flags x;
     nLocalServices := nLocalServices x; sendVersion := sendVersion x;
     retFlags := f; nMisbehavior := nMisbehavior x |}.

Definition set_nMisbehavior (n : Z) (x : ExNode) : ExNode :=
  {| nodeID := nodeID x; flags := flags x;
     nLocalServices := nLocalServices x; sendVersion := sendVersion x;
     retFlags := retFlags x; nMisbehavior := n |}.

(** The locals as the work-queue loop finds them: one outpoint per output
    of the accepted transaction, nothing to erase, nobody misbehaving. *)
Definition StartResolution (tx : CTransaction) (res : ATMPResult)
    (s : State) : Resolution :=
  {| vWorkQueue := outpoints_of (GetHash tx) (length (vout tx));
     vEraseQueue := [];
     setMisbehaving := ∅;
     lRemovedTxn := atmp_removed res;
     rstate := s |}.

(** The branch taken when [AcceptToMemoryPool] returned true
    (source lines 156-240). *)
Definition Accepted (fuel : nat) (xnode : ExNode) (tx : CTransaction)
    (res : ATMPResult) (s : State)
    : outcome (ExNode * list CTransaction * State) :=
  let s1 := emit MempoolCheck s in
  let s2 := emit (BroadcastTransaction (GetHash tx)) s1 in
  let xnode' := set_retFlags (SetFlagsBit (retFlags xnode) NF_NEWTRANSACTION)
                  xnode in
  r <-- ProcessWorkQueue fuel (StartResolution tx res s2) ;;
  Returned (xnode', lRemovedTxn r, EraseOrphans (vEraseQueue r) (rstate r)).

(** The first loop over [tx.vin] of the missing-inputs branch; the filter
    is dereferenced only if there is an input to look at. *)
Definition RejectedParents (tx : CTransaction) (s : State) : outcome bool :=
  match vin tx with
  | [] => Returned false
  | _ :: _ =>
      match recentRejects s with
      | Some rr =>
          Returned (existsb (fun txin => rb_contains rr (op_hash (prevout txin)))
                      (vin tx))
      | None => Aborted
      end
  end.

(** The second loop over [tx.vin] (source lines 260-266). *)
Fixpoint RequestParents (xnode : ExNode) (nFetchFlags : Z)
    (ins : list CTxIn) (s : State) : State :=
  match ins with
  | [] => s
  | txin :: rest =>
      let _inv := {| inv_type := Z.lor MSG_TX nFetchFlags;
                     inv_hash := op_hash (prevout txin) |} in
      let s1 := emit (AddTxInventoryKnown (nodeID xnode) (inv_hash _inv)
                        nFetchFlags) s in
      let '(known, s2) := DoesTxExist (inv_hash _inv) s1 in
      let s3 := if known then s2
                else emit (AskForTransaction (nodeID xnode) (inv_hash _inv)
                             nFetchFlags) s2 in
      RequestParents xnode nFetchFlags rest s3
  end.

(** The branch taken when validation reported missing inputs
    (source lines 241-285). *)
Definition MissingInputs (args : ArgsManager) (xnode : ExNode)
    (tx : CTransaction) (s : State) : outcome State :=
  fRejectedParents <-- RejectedParents tx s ;;
  if negb fRejectedParents then
    let nFetchFlags :=
      if IsFlagsBitOn (nLocalServices xnode) NODE_WITNESS
         && IsFlagsBitOn (flags xnode) NF_WITNESS
      then MSG_WITNESS_FLAG else 0 in
    let s1 := RequestParents xnode nFetchFlags (vin tx) s in
    let s2 := set_orphans
                (snd (AddOrphanTx (orphanTxMgr s1) tx (nodeID xnode))) s1 in
    let nMaxOrphanTx := (Z.max 0 (maxorphantx args)) mod 2 ^ 32 in
    Returned
      (set_orphans (snd (LimitOrphanTxSize (orphanTxMgr s2) nMaxOrphanTx)) s2)
  else rejects_insert (GetHash tx) s.

(** The last branch: validation failed without missing inputs, or the
    transaction was already known (source lines 286-328). *)
Definition InvalidOrKnown (args : ArgsManager) (xnode : ExNode)
    (tx : CTransaction) (state : CValidationState) (s : State)
    : outcome State :=
  s1 <-- (if negb (HasWitness tx) && negb (CorruptionPossible state) then
            s' <-- rejects_insert (GetHash tx) s ;;
            Returned (if RecursiveDynamicUsage tx <? 100000
                      then emit (AddToCompactExtraTransactions tx) s'
                      else s')
          else if HasWitness tx && (RecursiveDynamicUsage tx <? 100000) then
            Returned (emit (AddToCompactExtraTransactions tx) s)
          else Returned s) ;;
  Returned
    (if IsFlagsBitOn (flags xnode) NF_WHITELIST && whitelistforcerelay args
     then
       let '(inv, nDoS') := IsInvalid state 0 in
       if negb inv || (nDoS' =? 0)
       then emit (BroadcastTransaction (GetHash tx)) s1
       else s1
     else s1).

(** [for (removedTx : lRemovedTxn) AddToCompactExtraTransactions(removedTx)] *)
Fixpoint ForwardRemoved (removed : list CTransaction) (s : State) : State :=
  match removed with
  | [] => s
  | removedTx :: rest =>
      ForwardRemoved rest (emit (AddToCompactExtraTransactions removedTx) s)
  end.

(** The reporting tail (source lines 333-354). *)
Definition Report (xnode : ExNode) (tx : CTransaction)
    (state : CValidationState) (s : State) : ExNode * State :=
  let '(inv, nDoS') := IsInvalid state 0 in
  if inv then
    let s' :=
      if (0 <? GetRejectCode state) && (GetRejectCode state <? REJECT_INTERNAL)
      then emit (SendReject (nodeID xnode) (sendVersion xnode)
                   (GetRejectCode state mod 256)
                   (substring 0 MAX_REJECT_MESSAGE_LENGTH
                      (GetRejectReason state))
                   (GetHash tx)) s
      else s in
    (if 0 <? nDoS' then set_nMisbehavior nDoS' xnode else xnode, s')
  else (xnode, s).

(** What a call hands back: the return value, the peer context with its
    output fields, the [txHash] reference argument and the state. *)
Record Received := {
  ret : bool;
  xnode_out : ExNode;
  txHash_out : uint256;
  post : State
}.

(** The gate of source lines 127-129. *)
Definition relay_refused (args : ArgsManager) (xnode : ExNode) : bool :=
  negb (IsFlagsBitOn (flags xnode) NF_RELAYTX)
  && (negb (IsFlagsBitOn (flags xnode) NF_WHITELIST)
      || negb (whitelistrelay args)).

(** The values of [state], [fMissingInputs] and [lRemovedTxn] when the
    [&&] of line 154 short-circuits and validation never runs. *)
Definition not_validated : ATMPResult :=
  {| atmp_ok := false; atmp_state := fresh_state;
     atmp_missing := false; atmp_removed := [] |}.

(** The condition of the [if] at lines 154-155, with its effects. *)
Definition TryAccept (xnode : ExNode) (ptx : CTransaction) (s : State)
    : ATMPResult * State :=
  let '(known, s0) := DoesTxExist (GetHash ptx) s in
  if known then (not_validated, s0)
  else
    let '(res, l') := AcceptToMemoryPool (ledger s0) ptx in
    (res, emit (Validated (FromWire (nodeID xnode)) ptx res)
            (set_ledger l' s0)).

(** [ptx] is the transaction read from the stream; [txHash] is the value
    the reference argument holds on entry. *)
Definition NetReceiveTxData (fuel : nat) (args : ArgsManager)
    (xnode : ExNode) (ptx : CTransaction) (txHash : uint256) (s : State)
    : outcome Received :=
  if relay_refused args xnode then
    Returned {| ret := true; xnode_out := xnode; txHash_out := txHash;
                post := s |}
  else
    let '(res, s1) := TryAccept xnode ptx s in
    branch <--
       (if atmp_ok res then Accepted fuel xnode ptx res s1
        else if atmp_missing res then
          s' <-- MissingInputs args xnode ptx s1 ;;
          Returned (xnode, atmp_removed res, s')
        else
          s' <-- InvalidOrKnown args xnode ptx (atmp_state res) s1 ;;
          Returned (xnode, atmp_removed res, s')) ;;
    let '(xnode1, removed, s2) := branch in
    let s3 := ForwardRemoved removed s2 in
    let '(xnode2, s4) := Report xnode1 ptx (atmp_state res) s3 in
    Returned {| ret := true; xnode_out := xnode2; txHash_out := GetHash ptx;
                post := s4 |}.

(** ** NetRequestTxInventory *)

(** [std::find] followed by [erase]: the first occurrence is dropped. *)
Fixpoint erase_first (hash : uint256) (v : list uint256) : list uint256 :=
  match v with
  | [] => []
  | x :: rest => if N.eqb x hash then rest else x :: erase_first hash rest
  end.

(** The two vectors passed by reference, the bloom filter behind the
    [txFilter] pointer (null is [None]), the local [vInv] and the
    component state. *)
Record Inventory := {
  toSendTxHashes : list uint256;
  haveSentTxHashes : list uint256;
  txFilter : option BloomFilter;
  vInv : list CInv;
  istate : State
}.

Definition with_toSend (l : list uint256) (v : Inventory) : Inventory :=
  {| toSendTxHashes := l; haveSentTxHashes := haveSentTxHashes v;
     txFilter := txFilter v; vInv := vInv v; istate := istate v |}.

Definition with_haveSent (l : list uint256) (v : Inventory) : Inventory :=
  {| toSendTxHashes := toSendTxHashes v; haveSentTxHashes := l;
     txFilter := txFilter v; vInv := vInv v; istate := istate v |}.

Definition with_txFilter (f : option BloomFilter) (v : Inventory)
    : Inventory :=
  {| toSendTxHashes := toSendTxHashes v;
     haveSentTxHashes := haveSentTxHashes v;
     txFilter := f; vInv := vInv v; istate := istate v |}.

Definition with_vInv (l : list CInv) (v : Inventory) : Inventory :=
  {| toSendTxHashes := toSendTxHashes v;
     haveSentTxHashes := haveSentTxHashes v;
     txFilter := txFilter v; vInv := l; istate := istate v |}.

Definition with_istate (s : State) (v : Inventory) : Inventory :=
  {| toSendTxHashes := toSendTxHashes v;
     haveSentTxHashes := haveSentTxHashes v;
     txFilter := txFilter v; vInv := vInv v; istate := s |}.

(** [vInv.push_back(inv)] and the flush at [MAX_INV_SZ]. *)
Definition push_inv (xnode : ExNode) (inv : CInv) (v : Inventory)
    : Inventory :=
  let vInv' := vInv v ++ [inv] in
  if Z.of_nat (length vInv') =? MAX_INV_SZ then
    with_vInv []
      (with_istate
         (emit (SendInv (nodeID xnode) (sendVersion xnode) vInv') (istate v))
         v)
  else with_vInv vInv' v.

(** The fee-rate floor, then the bloom filter if there is one; the filter
    is consulted, and updated, only for entries that pass the floor. *)
Definition passes (minFeeFilter : Z) (txinfo : TxMempoolInfo)
    (f : option BloomFilter) : bool * option BloomFilter :=
  if feeRate txinfo <? minFeeFilter then (false, f)
  else
    match f with
    | Some bf =>
        let '(relevant, bf') := IsRelevantAndUpdate bf (info_tx txinfo) in
        (relevant, Some bf')
    | None => (true, None)
    end.

(** Body of the mempool-dump loop (source lines 373-393). *)
Definition DumpEntry (xnode : ExNode) (minFeeFilter : Z)
    (txinfo : TxMempoolInfo) (v : Inventory) : Inventory :=
  let hash := GetHash (info_tx txinfo) in
  let inv := {| inv_type := MSG_TX; inv_hash := hash |} in
  let v1 := with_toSend (erase_first hash (toSendTxHashes v)) v in
  let '(ok, f') := passes minFeeFilter txinfo (txFilter v1) in
  let v2 := with_txFilter f' v1 in
  if ok then
    push_inv xnode inv (with_haveSent (haveSentTxHashes v2 ++ [hash]) v2)
  else v2.

Fixpoint Dump (xnode : ExNode) (minFeeFilter : Z)
    (vtxinfo : list TxMempoolInfo) (v : Inventory) : Inventory :=
  match vtxinfo with
  | [] => v
  | txinfo :: rest =>
      Dump xnode minFeeFilter rest (DumpEntry xnode minFeeFilter txinfo v)
  end.

(** [while (!vRelayExpiration.empty() && vRelayExpiration.front().first <
    nNow)]: a queue entry holds the iterator of the map entry it was pushed
    for, which is represented by that entry's key. *)
Fixpoint ExpireRelay (nNow : Z) (m : gmap N CTransaction)
    (q : list (Z * uint256)) : gmap N CTransaction * list (Z * uint256) :=
  match q with
  | [] => (m, [])
  | (expiry, hash) :: rest =>
      if expiry <? nNow then ExpireRelay nNow (delete hash m) rest
      else (m, q)
  end.

(** [mapRelay.insert] and, if it inserted, the push on the expiration
    queue (source lines 439-443).  Times are microsecond clock readings,
    far from the ends of [int64_t], so the sum is taken in [Z]. *)
Definition PublishRelay (nNow : Z) (hash : uint256) (tx : CTransaction)
    (s : State) : State :=
  match mapRelay s !! hash with
  | Some _ => s
  | None =>
      set_relay (<[hash := tx]> (mapRelay s))
        (vRelayExpiration s ++ [(nNow + 15 * 60 * 1000000, hash)]) s
  end.

Definition compFunc (l : Ledger) (a b : uint256) : bool :=
  CompareDepthAndScore l b a.

(** The element [std::pop_heap] moves to the back: one that no other
    element is ranked above by [comp].  The model keeps the vector in the
    caller's order instead of heap layout and picks the first such element;
    the C++ standard fixes neither. *)
Definition heap_top (comp : uint256 -> uint256 -> bool) (v : list uint256)
    : option uint256 :=
  match v with
  | [] => None
  | x :: rest =>
      Some (fold_left (fun best y => if comp best y then y else best) rest x)
  end.

(** The pending-drain loop (source lines 418-453).  Every round removes
    one element from the vector, so its length bounds the rounds. *)
Fixpoint Drain (rounds : nat) (xnode : ExNode) (minFeeFilter nNow : Z)
    (nRelayedTransactions : Z) (v : Inventory) : Inventory :=
  match rounds with
  | O => v
  | S rounds' =>
      match heap_top (compFunc (ledger (istate v))) (toSendTxHashes v) with
      | None => v
      | Some hash =>
          if negb (nRelayedTransactions <? INVENTORY_BROADCAST_MAX) then v
          else
            let v1 := with_toSend (erase_first hash (toSendTxHashes v)) v in
            match mp_info (ledger (istate v1)) hash with
            | None => Drain rounds' xnode minFeeFilter nNow
                        nRelayedTransactions v1
            | Some txinfo =>
                let '(ok, f') := passes minFeeFilter txinfo (txFilter v1) in
                let v2 := with_txFilter f' v1 in
                if ok then
                  let v3 := with_haveSent (haveSentTxHashes v2 ++ [hash]) v2 in
                  let v4 := with_istate
                              (PublishRelay nNow hash (info_tx txinfo)
                                 (istate v3)) v3 in
                  let v5 := push_inv xnode
                              {| inv_type := MSG_TX; inv_hash := hash |} v4 in
                  Drain rounds' xnode minFeeFilter nNow
                    (nRelayedTransactions + 1) v5
                else Drain rounds' xnode minFeeFilter nNow
                       nRelayedTransactions v2
            end
      end
  end.

(** The block under [if (!toSendTxHashes.empty())] (source lines 397-454);
    [nNow] is the value [GetTimeMicros()] returns there. *)
Definition PendingDrain (xnode : ExNode) (minFeeFilter nNow : Z)
    (v : Inventory) : Inventory :=
  match toSendTxHashes v with
  | [] => v
  | _ :: _ =>
      let '(m, q) := ExpireRelay nNow (mapRelay (istate v))
                       (vRelayExpiration (istate v)) in
      Drain (length (toSendTxHashes v)) xnode minFeeFilter nNow 0
        (with_istate (set_relay m q (istate v)) v)
  end.

(** The final [if (!vInv.empty())] (source lines 456-459). *)
Definition FlushInv (xnode : ExNode) (v : Inventory) : Inventory :=
  match vInv v with
  | [] => v
  | _ :: _ =>
      with_istate
        (emit (SendInv (nodeID xnode) (sendVersion xnode) (vInv v))
           (istate v)) v
  end.

Definition NetRequestTxInventory (xnode : ExNode) (sendMempool : bool)
    (minFeeFilter : Z) (filter : option BloomFilter)
    (toSend haveSent : list uint256) (nNow : Z) (s : State)
    : bool * Inventory :=
  let v0 := {| toSendTxHashes := toSend; haveSentTxHashes := haveSent;
               txFilter := filter; vInv := []; istate := s |} in
  let v1 := if sendMempool
            then Dump xnode minFeeFilter (mp_infoAll (ledger s)) v0
            else v0 in
  (true, FlushInv xnode (PendingDrain xnode minFeeFilter nNow v1)).

(** ** RemoveOrphanTxForNode and RemoveOrphanTxForBlock *)

Definition RemoveOrphanTxForNode (nodeId : NodeId) (s : State)
    : bool * State :=
  let '(nErased, om) := EraseOrphansFor (orphanTxMgr s) nodeId in
  (0 <? nErased, set_orphans om s).

(** The txids of the orphans that spend an input of a transaction of the
    block, in the order the nested loops of the source push them. *)
Definition orphans_hit (b : CBlock) (s : State) : list uint256 :=
  flat_map
    (fun tx =>
       flat_map
         (fun txin =>
            map (fun o => GetHash (otx o))
              (FindOrphanTransactionsByPrev (orphanTxMgr s) (prevout txin)))
         (vin tx))
    (vtx b).

(** [pblock] may be null. *)
Definition RemoveOrphanTxForBlock (pblock : option CBlock) (s : State)
    : bool * State :=
  match pblock with
  | None => (false, s)
  | Some b =>
      match orphans_hit b s with
      | [] => (false, s)
      | vOrphanErase => (true, EraseOrphans vOrphanErase s)
      end
  end.

(** ** Observations on states and logs *)

(** [s'] differs from [s] only by the calls [new] appended to the log. *)
Definition logged (s s' : State) (new : list Event) : Prop :=
  recentRejects s' = recentRejects s
  /\ hashRecentRejectsChainTip s' = hashRecentRejectsChainTip s
  /\ mapRelay s' = mapRelay s
  /\ vRelayExpiration s' = vRelayExpiration s
  /\ ledger s' = ledger s
  /\ orphanTxMgr s' = orphanTxMgr s
  /\ calls s' = calls s ++ new.

Definition is_compact_extra (e : Event) : bool :=
  match e with AddToCompactExtraTransactions _ => true | _ => false end.

Definition is_reject (e : Event) : bool :=
  match e with SendReject _ _ _ _ _ => true | _ => false end.

Definition is_ask (e : Event) : bool :=
  match e with AskForTransaction _ _ _ => true | _ => false end.

Definition is_misbehave (peer : NodeId) (e : Event) : bool :=
  match e with MisbehaveNode p _ => Z.eqb p peer | _ => false end.

Definition is_revalidation (peer : NodeId) (e : Event) : bool :=
  match e with
  | Validated (FromOrphanPool p) _ _ => Z.eqb p peer
  | _ => false
  end.

(** The events of the common tail of [NetReceiveTxData]: forwarding to the
    compact-block extra pool and the REJECT message. *)
Definition is_tail (e : Event) : bool := is_compact_extra e || is_reject e.

(** Invariants of the relay cache: the expiration queue is in
    non-decreasing expiry order, and every map entry has a queue entry. *)
Definition relay_sorted (q : list (Z * uint256)) : Prop :=
  StronglySorted (fun a b => fst a <= fst b) q.

Definition relay_indexed (m : gmap N CTransaction) (q : list (Z * uint256))
    : Prop :=
  forall h, is_Some (m !! h) -> exists expiry, In (expiry, h) q.

(** No queue entry expires later than [bound]. *)
Definition relay_bounded (bound : Z) (q : list (Z * uint256)) : Prop :=
  Forall (fun e => fst e <= bound) q.

(** The txids carried by the INV messages of a log, in order. *)
Fixpoint advertised (evs : list Event) : list uint256 :=
  match evs with
  | [] => []
  | SendInv _ _ vInv :: rest => map inv_hash vInv ++ advertised rest
  | _ :: rest => advertised rest
  end.

(** How often a txid occurs in a vector of txids. *)
Definition occurrences (l : list uint256) (x : uint256) : nat :=
  count_occ N.eq_dec l x.

(** From [v] to [v'] the inventory builder sent or queued the txids
    [more], appended [sent] to [haveSentTxHashes], and removed elements
    from [toSendTxHashes] without adding any. *)
Definition grows (v v' : Inventory) (more sent : list uint256) : Prop :=
  (exists new,
     calls (istate v') = calls (istate v) ++ new
     /\ advertised new ++ map inv_hash (vInv v')
        = map inv_hash (vInv v) ++ more)
  /\ haveSentTxHashes v' = haveSentTxHashes v ++ sent
  /\ (forall x, (occurrences (toSendTxHashes v') x
                 <= occurrences (toSendTxHashes v) x)%nat).

(** One pass of the orphan loop body, as a relation between the loop
    state before and after and the calls it appended: the orphan was
    skipped, accepted, still lacked inputs, or was dropped as invalid. *)
Inductive resolved (o : COrphanTx) (r r' : Resolution) : list Event -> Prop :=
| resolved_skipped :
    fromPeer o ∈ setMisbehaving r ->
    r' = r ->
    resolved o r r' []
| resolved_accepted res :
    fromPeer o ∉ setMisbehaving r ->
    fst (AcceptToMemoryPool (ledger (rstate r)) (otx o)) = res ->
    atmp_ok res = true ->
    vWorkQueue r' = vWorkQueue r
      ++ outpoints_of (GetHash (otx o)) (length (vout (otx o))) ->
    vEraseQueue r' = vEraseQueue r ++ [GetHash (otx o)] ->
    setMisbehaving r' = setMisbehaving r ->
    recentRejects (rstate r') = recentRejects (rstate r) ->
    resolved o r r'
      [Validated (FromOrphanPool (fromPeer o)) (otx o) res;
       BroadcastTransaction (GetHash (otx o)); MempoolCheck]
| resolved_missing res :
    fromPeer o ∉ setMisbehaving r ->
    fst (AcceptToMemoryPool (ledger (rstate r)) (otx o)) = res ->
    atmp_ok res = false ->
    atmp_missing res = true ->
    vWorkQueue r' = vWorkQueue r ->
    vEraseQueue r' = vEraseQueue r ->
    setMisbehaving r' = setMisbehaving r ->
    recentRejects (rstate r') = recentRejects (rstate r) ->
    resolved o r r'
      [Validated (FromOrphanPool (fromPeer o)) (otx o) res; MempoolCheck]
| resolved_dropped res scoring inserting :
    fromPeer o ∉ setMisbehaving r ->
    fst (AcceptToMemoryPool (ledger (rstate r)) (otx o)) = res ->
    atmp_ok res = false ->
    atmp_missing res = false ->
    vWorkQueue r' = vWorkQueue r ->
    vEraseQueue r' = vEraseQueue r ++ [GetHash (otx o)] ->
    (scoring = [] /\ setMisbehaving r' = setMisbehaving r
     \/ scoring = [MisbehaveNode (fromPeer o) (nDoS (atmp_state res))]
        /\ setMisbehaving r' = {[fromPeer o]} ∪ setMisbehaving r
        /\ invalid (atmp_state res) = true
        /\ 0 < nDoS (atmp_state res)) ->
    (inserting = []
     /\ recentRejects (rstate r') = recentRejects (rstate r)
     \/ inserting = [RejectsInsert (GetHash (otx o))]
        /\ HasWitness (otx o) = false
        /\ CorruptionPossible (atmp_state res) = false
        /\ exists rr, recentRejects (rstate r) = Some rr
                      /\ recentRejects (rstate r')
                         = Some (rb_insert rr (GetHash (otx o)))) ->
    resolved o r r'
      ([Validated (FromOrphanPool (fromPeer o)) (otx o) res]
       ++ scoring ++ inserting ++ [MempoolCheck]).

(** A peer is scored at most once in a log, and after it has been scored
    no orphan of its is validated again. *)
Definition quiet_about (peer : NodeId) (e : Event) : bool :=
  negb (is_misbehave peer e) && negb (is_revalidation peer e).

Fixpoint scored_once (evs : list Event) : Prop :=
  match evs with
  | [] => True
  | e :: rest =>
      match e with
      | MisbehaveNode p _ => forallb (quiet_about p) rest = true
      | _ => True
      end /\ scored_once rest
  end.

Definition is_scoring (e : Event) : bool :=
  match e with MisbehaveNode _ _ => true | _ => false end.

(** The loop invariant behind orphan fairness: the log since the loop
    started is [scored_once], and every peer scored in it is in
    [setMisbehaving]. *)
Definition fairness (r : Resolution) (new : list Event) : Prop :=
  scored_once new
  /\ forall p d, In (MisbehaveNode p d) new -> p ∈ setMisbehaving r.

(** Events only the orphan loop emits. *)
Definition is_resolution (e : Event) : bool :=
  match e with
  | MisbehaveNode _ _ => true
  | Validated (FromOrphanPool _) _ _ => true
  | _ => false
  end.

(** The events of the parent requests of the missing-inputs branch. *)
Definition is_request (e : Event) : bool :=
  match e with
  | AddTxInventoryKnown _ _ _ | AskForTransaction _ _ _ => true
  | _ => false
  end.

(** The orphan with txid [h] was re-validated in the log with a result
    other than missing inputs: it was accepted, or it failed for good. *)
Definition settled (new : list Event) (h : uint256) : Prop :=
  exists p tx res,
    In (Validated (FromOrphanPool p) tx res) new
    /\ GetHash tx = h
    /\ (atmp_ok res = true \/ atmp_missing res = false).

(** An orphan txid enters the rejects filter only after a re-validation of
    a witness-free orphan that failed, not for missing inputs, with a state
    that is not corruption-possible. *)
Definition rejected_orphan (new : list Event) (h : uint256) : Prop :=
  exists p tx res,
    In (Validated (FromOrphanPool p) tx res) new
    /\ GetHash tx = h
    /\ atmp_ok res = false /\ atmp_missing res = false
    /\ HasWitness tx = false
    /\ CorruptionPossible (atmp_state res) = false.

(** The loop invariant behind the treatment of orphans: whatever the loop
    marks for erasure, inserts into the rejects filter or scores is backed
    by a re-validation in the log that did not end in missing inputs. *)
Definition accounted (r : Resolution) (new : list Event) : Prop :=
  (forall h, In h (vEraseQueue r) -> settled new h)
  /\ (forall h, In (RejectsInsert h) new -> rejected_orphan new h)
  /\ (forall p d, In (MisbehaveNode p d) new ->
        exists tx res,
          In (Validated (FromOrphanPool p) tx res) new
          /\ atmp_ok res = false /\ atmp_missing res = false).

(** Termination of the work-queue loop.  Transactions are addressed by
    the hash of their content, so an orphan cannot spend, directly or
    through other orphans, an output of itself: [rank] is a height in that
    dependency order.  [fanout] counts the outpoints the children of one
    outpoint can push. *)
Definition acyclic (rank : uint256 -> nat) (om : OrphanMgr) : Prop :=
  forall op o,
    In o (FindOrphanTransactionsByPrev om op) ->
    (rank (GetHash (otx o)) < rank (op_hash op))%nat.

Definition fanout (os : list COrphanTx) : nat :=
  list_sum (map (fun o => length (vout (otx o))) os).

Definition bounded_fanout (K : nat) (om : OrphanMgr) : Prop :=
  forall op, (fanout (FindOrphanTransactionsByPrev om op) <= K)%nat.

(** Loop iterations an outpoint of the given rank can cause. *)
Definition cost (K : nat) (rk : nat) : nat := ((1 + K) ^ rk)%nat.

Definition weight (K : nat) (rank : uint256 -> nat) (q : list COutPoint)
    : nat :=
  list_sum (map (fun op => cost K (rank (op_hash op))) q).

(** How the call ends once a branch has produced its state. *)
Definition finish (xnode1 : ExNode) (ptx : CTransaction)
    (state : CValidationState) (removed : list CTransaction) (s2 : State)
    : Received :=
  {| ret := true;
     xnode_out := fst (Report xnode1 ptx state (ForwardRemoved removed s2));
     txHash_out := GetHash ptx;
     post := snd (Report xnode1 ptx state (ForwardRemoved removed s2)) |}.

(** ** Observations used by the further properties *)

(** What a call of [NetReceiveTxData] leaves alone: the relay cache and
    its expiration queue, the rejects filter once it exists, and the
    calls already made. *)
Definition kept_relay (s s' : State) : Prop :=
  mapRelay s' = mapRelay s
  /\ vRelayExpiration s' = vRelayExpiration s
  /\ (is_Some (recentRejects s) -> is_Some (recentRejects s'))
  /\ exists new, calls s' = calls s ++ new.

Definition context_after (xnode : ExNode) (res : ATMPResult) : ExNode :=
  let x1 := if atmp_ok res
            then set_retFlags (SetFlagsBit (retFlags xnode) NF_NEWTRANSACTION)
                   xnode
            else xnode in
  if invalid (atmp_state res) && (0 <? nDoS (atmp_state res))
  then set_nMisbehavior (nDoS (atmp_state res)) x1
  else x1.

(** The REJECT message for a validation state, addressed to [xnode]. *)
Definition reject_for (xnode : ExNode) (tx : CTransaction)
    (state : CValidationState) : Event :=
  SendReject (nodeID xnode) (sendVersion xnode) (GetRejectCode state mod 256)
    (substring 0 MAX_REJECT_MESSAGE_LENGTH (GetRejectReason state))
    (GetHash tx).

(** The calls the orphan loop can make. *)
Definition is_orphan_work (e : Event) : bool :=
  match e with
  | Validated (FromOrphanPool _) _ _ | BroadcastTransaction _
  | MempoolCheck | MisbehaveNode _ _ | RejectsInsert _ => true
  | _ => false
  end.

(** In a log of the orphan loop every broadcast and every scoring is
    backed by the re-validation that caused it. *)
Definition justified (new : list Event) : Prop :=
  forallb is_orphan_work new = true
  /\ (forall h, In (BroadcastTransaction h) new ->
        exists p tx res,
          In (Validated (FromOrphanPool p) tx res) new
          /\ GetHash tx = h /\ atmp_ok res = true)
  /\ (forall p d, In (MisbehaveNode p d) new ->
        0 < d
        /\ exists tx res,
             In (Validated (FromOrphanPool p) tx res) new
             /\ atmp_ok res = false /\ atmp_missing res = false
             /\ invalid (atmp_state res) = true
             /\ nDoS (atmp_state res) = d).

(** [nFetchFlags] of the missing-inputs branch. *)
Definition fetch_flags (xnode : ExNode) : Z :=
  if IsFlagsBitOn (nLocalServices xnode) NODE_WITNESS
     && IsFlagsBitOn (flags xnode) NF_WITNESS
  then MSG_WITNESS_FLAG else 0.

(** The calls the parent loop makes when the rejects filter is current
    and holds none of the parents: every parent is marked as known to
    the peer, and asked for unless the pools or the UTXO cache of [s]
    have it. *)
Definition parent_requests (xnode : ExNode) (s : State) (ins : list CTxIn)
    : list Event :=
  flat_map
    (fun txin =>
       AddTxInventoryKnown (nodeID xnode) (op_hash (prevout txin))
         (fetch_flags xnode)
       :: (if known_elsewhere (op_hash (prevout txin)) s then []
           else [AskForTransaction (nodeID xnode) (op_hash (prevout txin))
                   (fetch_flags xnode)]))
    ins.

(** An INV message to [xnode] with exactly [MAX_INV_SZ] entries. *)
Definition full_batch (xnode : ExNode) (e : Event) : bool :=
  match e with
  | SendInv p ver l =>
      (p =? nodeID xnode) && (ver =? sendVersion xnode)
      && (Z.of_nat (length l) =? MAX_INV_SZ)
  | _ => false
  end.

(** From [v] to [v'] the builder sent only full batches and keeps fewer
    than [MAX_INV_SZ] entries queued, if it started that way. *)
Definition batching (xnode : ExNode) (v v' : Inventory) : Prop :=
  Z.of_nat (length (vInv v)) < MAX_INV_SZ ->
  Z.of_nat (length (vInv v')) < MAX_INV_SZ
  /\ exists fulls,
       calls (istate v') = calls (istate v) ++ fulls
       /\ forallb (full_batch xnode) fulls = true.

(** Nothing but the orphan pool differs between [s] and [s']. *)
Definition only_orphans (s s' : State) : Prop :=
  recentRejects s' = recentRejects s
  /\ hashRecentRejectsChainTip s' = hashRecentRejectsChainTip s
  /\ mapRelay s' = mapRelay s
  /\ vRelayExpiration s' = vRelayExpiration s
  /\ ledger s' = ledger s
  /\ calls s' = calls s.

End Component.

(** ** In-memory stand-ins for the collaborators

    A small mempool, orphan pool and pair of filters to run the component
    on concrete inputs.  The validator accepts a transaction whose parents
    are all in the pool or confirmed, reports missing inputs otherwise, and
    rejects a transaction without outputs with a DoS score of 10. *)
Module Stub.

Record world := {
  pool : list TxMempoolInfo;
  confirmed : list N;
  tip : N;
  clock : Z
}.

Definition in_pool (l : world) (h : N) : bool :=
  existsb (fun i => N.eqb (GetHash (info_tx i)) h) (pool l).

Definition available (l : world) (h : N) : bool :=
  in_pool l h || existsb (N.eqb h) (confirmed l).

Definition verdict (code : Z) (reason : string) (dos : Z) : ATMPResult :=
  {| atmp_ok := false;
     atmp_state := {| invalid := true; nDoS := dos; chRejectCode := code;
                      strRejectReason := reason;
                      corruptionPossible := false |};
     atmp_missing := false; atmp_removed := [] |}.

Definition accept (l : world) (tx : CTransaction) : ATMPResult * world :=
  match vout tx with
  | [] => (verdict 16 "bad-txns-vout-empty" 10, l)
  | _ :: _ =>
      if in_pool l (GetHash tx) then
        (verdict 18 "txn-already-in-mempool" 0, l)
      else if forallb (fun i => available l (op_hash (prevout i))) (vin tx)
      then
        ({| atmp_ok := true; atmp_state := fresh_state;
            atmp_missing := false; atmp_removed := [] |},
         {| pool := pool l
              ++ [{| info_tx := tx; nTime := clock l;
                     feeRate := 1000 * Z.of_nat (length (vout tx)) |}];
            confirmed := confirmed l; tip := tip l; clock := clock l |})
      else
        ({| atmp_ok := false; atmp_state := fresh_state;
            atmp_missing := true; atmp_removed := [] |}, l)
  end.

Definition info (l : world) (h : N) : option TxMempoolInfo :=
  find (fun i => N.eqb (GetHash (info_tx i)) h) (pool l).

Definition fee_of (l : world) (h : N) : Z :=
  match info l h with Some i => feeRate i | None => -1 end.

Definition outpoint_eqb (a b : COutPoint) : bool :=
  N.eqb (op_hash a) (op_hash b) && N.eqb (op_n a) (op_n b).

Definition spends (op : COutPoint) (o : COrphanTx) : bool :=
  existsb (fun i => outpoint_eqb (prevout i) op) (vin (otx o)).

Definition holds (h : N) (o : COrphanTx) : bool := N.eqb (GetHash (otx o)) h.

Definition add_orphan (om : list COrphanTx) (tx : CTransaction) (peer : Z)
    : bool * list COrphanTx :=
  if existsb (holds (GetHash tx)) om then (false, om)
  else (true, om ++ [{| otx := tx; fromPeer := peer |}]).

Definition limit_orphans (om : list COrphanTx) (nMax : Z)
    : Z * list COrphanTx :=
  let excess := (length om - Z.to_nat nMax)%nat in
  (Z.of_nat excess, skipn excess om).

Definition erase_orphan (om : list COrphanTx) (h : N)
    : Z * list COrphanTx :=
  (Z.of_nat (length (List.filter (holds h) om)),
   List.filter (fun o => negb (holds h o)) om).

Definition erase_orphans_for (om : list COrphanTx) (peer : Z)
    : Z * list COrphanTx :=
  (Z.of_nat (length (List.filter (fun o => Z.eqb (fromPeer o) peer) om)),
   List.filter (fun o => negb (Z.eqb (fromPeer o) peer)) om).

#[export] Instance collaborators : Collaborators := {|
  Ledger := world;
  mp_exists := in_pool;
  mp_info := info;
  mp_infoAll := pool;
  AcceptToMemoryPool := accept;
  CompareDepthAndScore := fun l a b => fee_of l b <? fee_of l a;
  TipBlockHash := tip;
  HasCoinsTip := fun _ => true;
  HaveCoinInCache := fun l op =>
    existsb (N.eqb (op_hash op)) (confirmed l) && N.eqb (op_n op) 0;
  OrphanMgr := list COrphanTx;
  om_Exists := fun om h => existsb (holds h) om;
  FindOrphanTransactionsByPrev := fun om op => List.filter (spends op) om;
  AddOrphanTx := add_orphan;
  LimitOrphanTxSize := limit_orphans;
  EraseOrphanTx := erase_orphan;
  EraseOrphansFor := erase_orphans_for;
  RollingBloom := list N;
  rb_contains := fun rr h => existsb (N.eqb h) rr;
  rb_insert := fun rr h => h :: rr;
  rb_reset := fun _ => [];
  rb_new := [];
  BloomFilter := list N;
  IsRelevantAndUpdate := fun bf tx => (existsb (N.eqb (GetHash tx)) bf, bf);
  RecursiveDynamicUsage := fun tx =>
    100 * Z.of_nat (length (vin tx) + length (vout tx));
  IsFlagsBitOn := fun f bit => Z.land f bit =? bit;
  SetFlagsBit := Z.lor;
  NF_RELAYTX := 1;
  NF_WHITELIST := 2;
  NF_WITNESS := 4;
  NF_NEWTRANSACTION := 1;
  NODE_WITNESS := 8;
  MSG_TX := 1;
  MSG_WITNESS_FLAG := 2 ^ 30;
  SERIALIZE_TRANSACTION_NO_WITNESS := 2 ^ 30;
  REJECT_INTERNAL := 256;
  MAX_REJECT_MESSAGE_LENGTH := 111;
  MAX_INV_SZ := 50000;
  INVENTORY_BROADCAST_MAX := 35
|}.

(** A transaction spending output 0 of each listed parent. *)
Definition mk_tx (h : N) (parents : list N) (outs : nat) (w : bool)
    : CTransaction :=
  {| GetHash := h;
     vin := map (fun p => {| prevout := {| op_hash := p; op_n := 0 |} |})
              parents;
     vout := repeat {| nValue := 1 |} outs;
     HasWitness := w |}.

Definition peer (id fl : Z) : ExNode :=
  {| nodeID := id; flags := fl; nLocalServices := 8; sendVersion := 70015;
     retFlags := 0; nMisbehavior := 0 |}.

Definition args : ArgsManager :=
  {| whitelistrelay := true; whitelistforcerelay := true;
     maxorphantx := 100 |}.

(** A started node on tip 1 with transaction 1 confirmed. *)
Definition node (rejects : list N) (mp : list TxMempoolInfo)
    (orphans : list COrphanTx) : State :=
  {| recentRejects := Some rejects;
     hashRecentRejectsChainTip := 1%N;
     mapRelay := ∅;
     vRelayExpiration := [];
     ledger := {| pool := mp; confirmed := [1%N]; tip := 1%N; clock := 50 |};
     orphanTxMgr := orphans;
     calls := [] |}.

(** *** Scenarios *)

(** A relaying peer, and a whitelisted one. *)
Definition alice : ExNode := peer 7 1.
Definition gateway : ExNode := peer 8 3.
(** A peer that asked not to be relayed to and is not whitelisted. *)
Definition mute : ExNode := peer 6 0.

(** [tx5] spends confirmed transaction 1; [tx6] spends [tx5]. *)
Definition tx5 : CTransaction := mk_tx 5 [1%N] 1 false.
Definition tx6w : CTransaction := mk_tx 6 [5%N] 1 true.
Definition tx6 : CTransaction := mk_tx 6 [5%N] 1 false.
(** Spends [tx5] and the unknown transaction 8. *)
Definition tx9 : CTransaction := mk_tx 9 [5%N; 8%N] 1 false.
(** Without outputs, hence invalid with a DoS score. *)
Definition bad6 : CTransaction := mk_tx 6 [5%N] 0 false.
Definition bad8 : CTransaction := mk_tx 8 [5%N] 0 false.
Definition tx10 : CTransaction := mk_tx 10 [5%N] 1 false.

Definition entry (tx : CTransaction) (time fee : Z) : TxMempoolInfo :=
  {| info_tx := tx; nTime := time; feeRate := fee |}.

Definition orphan (tx : CTransaction) (from : Z) : COrphanTx :=
  {| otx := tx; fromPeer := from |}.

(** Peer 9 has parked two invalid orphans, peer 3 a valid one. *)
Definition crowded : State :=
  node [] [] [orphan bad6 9; orphan bad8 9; orphan tx10 3].

(** A node whose relay cache holds [tx5] until time 100 and whose mempool
    holds [tx6] since time 50. *)
Definition relaying : State :=
  {| recentRejects := Some [];
     hashRecentRejectsChainTip := 1%N;
     mapRelay := {[ 5%N := tx5 ]};
     vRelayExpiration := [(100, 5%N)];
     ledger := {| pool := [entry tx6 50 1000]; confirmed := [1%N];
                  tip := 1%N; clock := 60 |};
     orphanTxMgr := [];
     calls := [] |}.

(** A bloom filter matching the listed txids. *)
Definition matching (l : list N) : option BloomFilter := Some l.

(** Heights in the dependency order of the scenarios: only transaction 5
    has children among the orphans. *)
Definition height (h : N) : nat := if N.eqb h 5 then 1%nat else 0%nat.

(** [relaying] with a filter recorded against an older tip. *)
Definition stale : State := set_rejects_tip 0%N relaying.

(** A node on which [InitializeForNet] never ran. *)
Definition cold : State := set_rejects None (node [] [] []).

(** A node whose rejects filter holds txid 7 and was recorded against an
    older tip; the same with [tx5] in its mempool. *)
Definition moved : State := set_rejects_tip 0%N (node [7%N] [] []).
Definition moved_funded : State :=
  set_rejects_tip 0%N (node [7%N] [entry tx5 50 1000] []).

End Stub.

(** * Properties *)

Section Properties.

Context `{Env : Collaborators}.

(** Case analysis on every test and pair the goal branches on. *)
Ltac split_branches :=
  repeat match goal with
         | |- context [if ?c then _ else _] => destruct c
         | |- context [let '(_, _) := ?c in _] => destruct c
         end.

(** Closes [forall e, f e = true -> g e = true] for two event classifiers
    by inspecting the event. *)
Ltac by_event := intros []; simpl; intro; try reflexivity; discriminate.

(** ** The log only grows *)

Lemma logged_refl s : logged s s [].
Proof. unfold logged. rewrite app_nil_r. tauto. Qed.

Lemma logged_emit e s : logged s (emit e s) [e].
Proof. unfold logged. simpl. tauto. Qed.

Lemma logged_trans s1 s2 s3 n1 n2 :
  logged s1 s2 n1 -> logged s2 s3 n2 -> logged s1 s3 (n1 ++ n2).
Proof.
  unfold logged.
  intros (?&?&?&?&?&?&Hc1) (?&?&?&?&?&?&Hc2).
  rewrite Hc2, Hc1, app_assoc. repeat split; congruence.
Qed.

Lemma ForwardRemoved_logged removed s :
  logged s (ForwardRemoved removed s)
    (map AddToCompactExtraTransactions removed).
Proof.
  revert s. induction removed as [|t rest IH]; intro s; simpl.
  - apply logged_refl.
  - change (AddToCompactExtraTransactions t
            :: map AddToCompactExtraTransactions rest)
      with ([AddToCompactExtraTransactions t]
            ++ map AddToCompactExtraTransactions rest).
    eapply logged_trans; [apply logged_emit | apply IH].
Qed.

Lemma Report_logged xnode tx state s :
  exists new,
    logged s (snd (Report xnode tx state s)) new
    /\ forallb is_reject new = true
    /\ (invalid state = false -> new = []).
Proof.
  unfold Report, IsInvalid.
  destruct (invalid state); simpl.
  - destruct ((0 <? GetRejectCode state)
              && (GetRejectCode state <? REJECT_INTERNAL)); simpl.
    + eexists. split; [apply logged_emit|]. split; [reflexivity | discriminate].
    + exists []. split; [apply logged_refl|]. split; [reflexivity | discriminate].
  - exists []. split; [apply logged_refl|]. split; reflexivity.
Qed.

Lemma forallb_forwarded (f : Event -> bool) removed :
  (forall t, f (AddToCompactExtraTransactions t) = true) ->
  forallb f (map AddToCompactExtraTransactions removed) = true.
Proof.
  intro Hf. induction removed; simpl; [reflexivity|].
  rewrite Hf. assumption.
Qed.

(** The common tail leaves everything but the log alone and emits only
    extra-pool forwards and at most one REJECT. *)
Lemma tail_logged xnode tx state removed s :
  exists new,
    logged s (snd (Report xnode tx state (ForwardRemoved removed s))) new
    /\ forallb is_tail new = true
    /\ (invalid state = false -> forallb is_compact_extra new = true).
Proof.
  destruct (Report_logged xnode tx state (ForwardRemoved removed s))
    as (rep & Hrep & Hrej & Hnone).
  exists (map AddToCompactExtraTransactions removed ++ rep).
  split; [eapply logged_trans; [apply ForwardRemoved_logged | exact Hrep]|].
  split.
  - rewrite forallb_app, forallb_forwarded by reflexivity. simpl.
    apply forallb_forall. intros e He.
    unfold is_tail. rewrite forallb_forall in Hrej.
    rewrite (Hrej e He). apply orb_true_r.
  - intro Hv. rewrite (Hnone Hv), app_nil_r.
    apply forallb_forwarded. reflexivity.
Qed.

(** ** The existence oracle *)

Lemma DoesTxExist_frame h s :
  ledger (snd (DoesTxExist h s)) = ledger s
  /\ orphanTxMgr (snd (DoesTxExist h s)) = orphanTxMgr s
  /\ mapRelay (snd (DoesTxExist h s)) = mapRelay s
  /\ vRelayExpiration (snd (DoesTxExist h s)) = vRelayExpiration s
  /\ calls (snd (DoesTxExist h s)) = calls s.
Proof.
  unfold DoesTxExist.
  destruct (recentRejects s) as [rr|]; [|simpl; tauto].
  destruct (negb _); [simpl; tauto|].
  destruct (rb_contains rr h); simpl; tauto.
Qed.

Lemma DoesTxExist_initialized h s :
  is_Some (recentRejects s) -> is_Some (recentRejects (snd (DoesTxExist h s))).
Proof.
  unfold DoesTxExist. intros [rr Hrr]. rewrite Hrr.
  destruct (negb _); [simpl; eauto|].
  destruct (rb_contains rr h); simpl; rewrite Hrr; eauto.
Qed.

(** A transaction in the mempool is always reported as known. *)
Lemma DoesTxExist_mempool h s :
  mp_exists (ledger s) h = true -> fst (DoesTxExist h s) = true.
Proof.
  intro Hmp. unfold DoesTxExist, known_elsewhere.
  destruct (recentRejects s) as [rr|]; simpl.
  - destruct (negb _); simpl; [rewrite Hmp; reflexivity|].
    destruct (rb_contains rr h); simpl; [reflexivity|].
    rewrite Hmp. reflexivity.
  - rewrite Hmp. reflexivity.
Qed.

(** ** Shape of an ingress call *)

Lemma TryAccept_validated xnode ptx s s0 res l' :
  DoesTxExist (GetHash ptx) s = (false, s0) ->
  AcceptToMemoryPool (ledger s0) ptx = (res, l') ->
  TryAccept xnode ptx s
  = (res, emit (Validated (FromWire (nodeID xnode)) ptx res)
            (set_ledger l' s0)).
Proof. intros Hk Ha. unfold TryAccept. rewrite Hk, Ha. reflexivity. Qed.

Lemma TryAccept_known xnode ptx s :
  fst (DoesTxExist (GetHash ptx) s) = true ->
  TryAccept xnode ptx s = (not_validated, snd (DoesTxExist (GetHash ptx) s)).
Proof.
  intro Hk. unfold TryAccept.
  destruct (DoesTxExist (GetHash ptx) s) as [known s0].
  simpl in *. subst known. reflexivity.
Qed.

Lemma NetReceiveTxData_not_accepted fuel args xnode ptx txHash s res s1 :
  relay_refused args xnode = false ->
  TryAccept xnode ptx s = (res, s1) ->
  atmp_ok res = false ->
  NetReceiveTxData fuel args xnode ptx txHash s
  = (s' <-- (if atmp_missing res then MissingInputs args xnode ptx s1
             else InvalidOrKnown args xnode ptx (atmp_state res) s1) ;;
     Returned (finish xnode ptx (atmp_state res) (atmp_removed res) s')).
Proof.
  intros Hgate Htry Hok. unfold NetReceiveTxData, finish.
  rewrite Hgate, Htry, Hok.
  destruct (atmp_missing res).
  - destruct (MissingInputs args xnode ptx s1) as [s'| |]; simpl; try reflexivity.
    destruct (Report _ _ _ _). reflexivity.
  - destruct (InvalidOrKnown args xnode ptx (atmp_state res) s1) as [s'| |];
      simpl; try reflexivity.
    destruct (Report _ _ _ _). reflexivity.
Qed.

Lemma NetReceiveTxData_accepted fuel args xnode ptx txHash s res s1 :
  relay_refused args xnode = false ->
  TryAccept xnode ptx s = (res, s1) ->
  atmp_ok res = true ->
  NetReceiveTxData fuel args xnode ptx txHash s
  = (b <-- Accepted fuel xnode ptx res s1 ;;
     Returned (finish (fst (fst b)) ptx (atmp_state res) (snd (fst b))
                 (snd b))).
Proof.
  intros Hgate Htry Hok. unfold NetReceiveTxData, finish.
  rewrite Hgate, Htry, Hok.
  destruct (Accepted fuel xnode ptx res s1) as [[[x1 rm] s2]| |];
    simpl; try reflexivity.
  destruct (Report _ _ _ _). reflexivity.
Qed.

Lemma finish_logged xnode1 ptx state removed s2 :
  exists new,
    logged s2 (post (finish xnode1 ptx state removed s2)) new
    /\ forallb is_tail new = true
    /\ (invalid state = false -> forallb is_compact_extra new = true).
Proof. apply tail_logged. Qed.

Lemma forallb_impl {A} (f g : A -> bool) l :
  (forall x, f x = true -> g x = true) ->
  forallb f l = true -> forallb g l = true.
Proof.
  intros Hfg. rewrite !forallb_forall. intros Hf x Hx. auto.
Qed.

(** ** Missing inputs with a rejected parent *)

Lemma RejectedParents_true tx s rr :
  recentRejects s = Some rr ->
  existsb (fun txin => rb_contains rr (op_hash (prevout txin))) (vin tx) = true ->
  RejectedParents tx s = Returned true.
Proof.
  intros Hrr Hex. unfold RejectedParents.
  destruct (vin tx) as [|i ins]; [discriminate|].
  rewrite Hrr, Hex. reflexivity.
Qed.

(** C1: a transaction whose validation reports missing inputs and one of
    whose parents is in the recent-rejects filter is not parked in the
    orphan pool; its own txid is inserted into the filter and none of its
    parents is asked for. *)
Theorem rejected_parent_shuts_orphan
    fuel args xnode ptx txHash s s0 res l' rr :
  relay_refused args xnode = false ->
  DoesTxExist (GetHash ptx) s = (false, s0) ->
  AcceptToMemoryPool (ledger s0) ptx = (res, l') ->
  atmp_ok res = false ->
  atmp_missing res = true ->
  recentRejects s0 = Some rr ->
  existsb (fun txin => rb_contains rr (op_hash (prevout txin))) (vin ptx)
    = true ->
  exists r new,
    NetReceiveTxData fuel args xnode ptx txHash s = Returned r
    /\ orphanTxMgr (post r) = orphanTxMgr s
    /\ recentRejects (post r) = Some (rb_insert rr (GetHash ptx))
    /\ calls (post r) = calls s ++ new
    /\ In (RejectsInsert (GetHash ptx)) new
    /\ forallb (fun e => negb (is_ask e)) new = true.
Proof.
  intros Hgate Hk Ha Hok Hmiss Hrr Hpar.
  pose proof (TryAccept_validated xnode ptx s s0 res l' Hk Ha) as Htry.
  rewrite (NetReceiveTxData_not_accepted _ _ _ _ _ _ _ _ Hgate Htry Hok).
  rewrite Hmiss. unfold MissingInputs.
  rewrite (RejectedParents_true ptx _ rr) by (simpl; assumption).
  simpl. unfold rejects_insert. simpl. rewrite Hrr. simpl.
  match goal with
  | |- context [finish ?x ?t ?st ?rm ?s2] =>
      destruct (finish_logged x t st rm s2) as (tl & Hlog & Htl & _)
  end.
  destruct Hlog as (Hrej & _ & _ & _ & _ & Horph & Hcalls).
  pose proof (DoesTxExist_frame (GetHash ptx) s) as (_ & Ho & _ & _ & Hc).
  rewrite Hk in Ho, Hc. simpl in Ho, Hc.
  eexists.
  exists ([Validated (FromWire (nodeID xnode)) ptx res;
           RejectsInsert (GetHash ptx)] ++ tl).
  split; [reflexivity|].
  split; [rewrite Horph; simpl; exact Ho|].
  split; [rewrite Hrej; reflexivity|].
  split.
  { rewrite Hcalls. simpl. rewrite Hc, <- !app_assoc. reflexivity. }
  split.
  { apply in_or_app. left. simpl. auto. }
  simpl. apply (forallb_impl is_tail); [|exact Htl].
  by_event.
Qed.

(** ** Serving a fetch request *)

(** C8: a fetch is answered from the relay cache if the txid is there;
    otherwise from the mempool if the entry is there and is not younger
    than the peer's last mempool request; otherwise nothing is sent and the
    answer is false.  The witness is stripped exactly when the peer does
    not want it. *)
Theorem NetRequestTxData_serves (xnode : ExNode) (txHash : uint256)
    (witness : bool) (timeLastMempoolReq : Z) (s : State) :
  let nSendFlags :=
    if witness then 0 else SERIALIZE_TRANSACTION_NO_WITNESS in
  let send tx := SendTx (nodeID xnode) (sendVersion xnode) nSendFlags tx in
  let out := NetRequestTxData xnode txHash witness timeLastMempoolReq s in
  (forall tx, mapRelay s !! txHash = Some tx ->
     out = (true, emit (send tx) s))
  /\ (forall txinfo,
        mapRelay s !! txHash = None ->
        mp_info (ledger s) txHash = Some txinfo ->
        nTime txinfo <= timeLastMempoolReq ->
        out = (true, emit (send (info_tx txinfo)) s))
  /\ (mapRelay s !! txHash = None ->
      (forall txinfo, mp_info (ledger s) txHash = Some txinfo ->
                      timeLastMempoolReq < nTime txinfo) ->
      out = (false, s)).
Proof.
  cbv zeta. unfold NetRequestTxData. repeat split.
  - intros tx Hrel. rewrite Hrel. reflexivity.
  - intros txinfo Hrel Hmp Ht. rewrite Hrel, Hmp.
    destruct (Z.leb_spec (nTime txinfo) timeLastMempoolReq); [reflexivity|lia].
  - intros Hrel Hyoung. rewrite Hrel.
    destruct (mp_info (ledger s) txHash) as [txinfo|]; [|reflexivity].
    specialize (Hyoung txinfo eq_refl).
    destruct (Z.leb_spec (nTime txinfo) timeLastMempoolReq); [lia|reflexivity].
Qed.

(** ** Forced relay for whitelisted peers *)

Lemma TryAccept_logged xnode ptx s res s1 :
  TryAccept xnode ptx s = (res, s1) ->
  orphanTxMgr s1 = orphanTxMgr s
  /\ (is_Some (recentRejects s) -> is_Some (recentRejects s1))
  /\ exists pre,
       calls s1 = calls s ++ pre
       /\ (pre = [] /\ res = not_validated
           \/ pre = [Validated (FromWire (nodeID xnode)) ptx res]).
Proof.
  unfold TryAccept.
  pose proof (DoesTxExist_frame (GetHash ptx) s) as (_ & Ho & _ & _ & Hc).
  pose proof (DoesTxExist_initialized (GetHash ptx) s) as Hi.
  destruct (DoesTxExist (GetHash ptx) s) as [known s0]. simpl in *.
  destruct known.
  - intros [= <- <-]. split; [assumption|]. split; [assumption|].
    exists []. rewrite app_nil_r. auto.
  - destruct (AcceptToMemoryPool (ledger s0) ptx) as [res' l'].
    intros [= <- <-]. simpl. split; [assumption|]. split; [assumption|].
    eexists. rewrite Hc. split; [reflexivity|]. auto.
Qed.

Lemma InvalidOrKnown_force_relay args xnode tx state s :
  is_Some (recentRejects s) ->
  IsFlagsBitOn (flags xnode) NF_WHITELIST = true ->
  whitelistforcerelay args = true ->
  invalid state = false \/ nDoS state = 0 ->
  exists s' new,
    InvalidOrKnown args xnode tx state s = Returned s'
    /\ calls s' = calls s ++ new
    /\ In (BroadcastTransaction (GetHash tx)) new
    /\ forallb (fun e => negb (is_reject e)) new = true.
Proof.
  intros [rr Hrr] Hwl Hfr Hdos. unfold InvalidOrKnown, rejects_insert.
  rewrite Hwl, Hfr, Hrr. simpl.
  assert (Hrelay : (let '(inv, nDoS') := IsInvalid state 0 in
                    negb inv || (nDoS' =? 0)) = true).
  { unfold IsInvalid. destruct (invalid state) eqn:Hinv; simpl; [|reflexivity].
    destruct Hdos as [?|Hz]; [discriminate|]. rewrite Hz. reflexivity. }
  destruct (IsInvalid state 0) as [inv nDoS'].
  rewrite Hrelay.
  destruct (negb (HasWitness tx) && negb (CorruptionPossible state)); simpl.
  - destruct (RecursiveDynamicUsage tx <? 100000); simpl;
      eexists; eexists; (split; [reflexivity|]); simpl;
      rewrite <- ?app_assoc; (split; [reflexivity|]); simpl; auto 6.
  - destruct (HasWitness tx && (RecursiveDynamicUsage tx <? 100000)); simpl;
      eexists; eexists; (split; [reflexivity|]); simpl;
      rewrite <- ?app_assoc; (split; [reflexivity|]); simpl; auto 6.
Qed.

Lemma InvalidOrKnown_frame args xnode tx state s s' :
  InvalidOrKnown args xnode tx state s = Returned s' ->
  ledger s' = ledger s /\ orphanTxMgr s' = orphanTxMgr s.
Proof.
  unfold InvalidOrKnown, rejects_insert.
  destruct (recentRejects s) as [rr|];
    split_branches; simpl; try discriminate; intros [= <-]; simpl; auto.
Qed.

(** C7: in the branch for invalid or already known transactions, a
    whitelisted peer under [-whitelistforcerelay] gets its transaction
    broadcast whenever the validation state is not invalid or carries a
    zero DoS score; in particular a transaction already in the mempool is
    broadcast and no REJECT is sent. *)
Theorem whitelist_force_relay fuel args xnode ptx txHash s :
  relay_refused args xnode = false ->
  IsFlagsBitOn (flags xnode) NF_WHITELIST = true ->
  whitelistforcerelay args = true ->
  is_Some (recentRejects s) ->
  (forall res s1,
     TryAccept xnode ptx s = (res, s1) ->
     atmp_ok res = false ->
     atmp_missing res = false ->
     invalid (atmp_state res) = false \/ nDoS (atmp_state res) = 0 ->
     exists r new,
       NetReceiveTxData fuel args xnode ptx txHash s = Returned r
       /\ calls (post r) = calls s ++ new
       /\ In (BroadcastTransaction (GetHash ptx)) new)
  /\ (mp_exists (ledger s) (GetHash ptx) = true ->
      exists r new,
        NetReceiveTxData fuel args xnode ptx txHash s = Returned r
        /\ ledger (post r) = ledger s
        /\ calls (post r) = calls s ++ new
        /\ In (BroadcastTransaction (GetHash ptx)) new
        /\ forallb (fun e => negb (is_reject e)) new = true).
Proof.
  intros Hgate Hwl Hfr Hinit. split.
  - intros res s1 Htry Hok Hmiss Hdos.
    rewrite (NetReceiveTxData_not_accepted _ _ _ _ _ _ _ _ Hgate Htry Hok).
    rewrite Hmiss.
    destruct (TryAccept_logged _ _ _ _ _ Htry) as (_ & Hi & pre & Hpre & _).
    destruct (InvalidOrKnown_force_relay args xnode ptx (atmp_state res) s1
                (Hi Hinit) Hwl Hfr Hdos) as (s' & mid & -> & Hmid & Hin & _).
    simpl.
    destruct (finish_logged xnode ptx (atmp_state res) (atmp_removed res) s')
      as (tl & Hlog & _ & _).
    destruct Hlog as (_ & _ & _ & _ & _ & _ & Hcalls).
    eexists. exists (pre ++ mid ++ tl). split; [reflexivity|]. split.
    + rewrite Hcalls, Hmid, Hpre, <- !app_assoc. reflexivity.
    + rewrite !in_app_iff. auto.
  - intros Hmp.
    pose proof (TryAccept_known xnode ptx s
                  (DoesTxExist_mempool _ _ Hmp)) as Htry.
    rewrite (NetReceiveTxData_not_accepted _ _ _ _ _ _ _ _ Hgate Htry eq_refl).
    simpl atmp_missing. cbv iota.
    pose proof (DoesTxExist_frame (GetHash ptx) s) as (Hl & _ & _ & _ & Hc).
    destruct (InvalidOrKnown_force_relay args xnode ptx fresh_state
                (snd (DoesTxExist (GetHash ptx) s))
                (DoesTxExist_initialized _ _ Hinit) Hwl Hfr (or_introl eq_refl))
      as (s' & mid & Hrun & Hmid & Hin & Hnorej).
    simpl atmp_state. rewrite Hrun. simpl.
    destruct (InvalidOrKnown_frame _ _ _ _ _ _ Hrun) as (Hls & _).
    rewrite Hl in Hls.
    destruct (finish_logged xnode ptx fresh_state [] s')
      as (tl & Hlog & _ & Hquiet).
    destruct Hlog as (_ & _ & _ & _ & Hl' & _ & Hcalls).
    eexists. exists (mid ++ tl). split; [reflexivity|].
    split; [rewrite Hl'; exact Hls|].
    split; [rewrite Hcalls, Hmid, Hc, <- app_assoc; reflexivity|].
    split; [rewrite in_app_iff; auto|].
    rewrite forallb_app, Hnorej. simpl.
    apply (forallb_impl is_compact_extra); [|apply Hquiet; reflexivity].
    by_event.
Qed.

(** ** Expiry of the relay cache *)

Lemma ExpireRelay_shrinks nNow q : forall m h x,
  fst (ExpireRelay nNow m q) !! h = Some x -> m !! h = Some x.
Proof.
  induction q as [|[t0 h0] rest IH]; intros m h x; simpl; [auto|].
  destruct (t0 <? nNow); simpl; [|auto].
  intro Hm. apply IH in Hm.
  destruct (decide (h0 = h)) as [->|Hne].
  - rewrite lookup_delete_eq in Hm. discriminate.
  - rewrite lookup_delete_ne in Hm by assumption. assumption.
Qed.

Lemma ExpireRelay_sorted nNow q : forall m,
  relay_sorted q -> relay_sorted (snd (ExpireRelay nNow m q)).
Proof.
  induction q as [|[t0 h0] rest IH]; intros m Hs; simpl; [assumption|].
  destruct (t0 <? nNow); simpl; [|assumption].
  apply IH. inversion Hs. assumption.
Qed.

Lemma ExpireRelay_suffix nNow q : forall m e,
  In e (snd (ExpireRelay nNow m q)) -> In e q.
Proof.
  induction q as [|[t0 h0] rest IH]; intros m e; simpl; [auto|].
  destruct (t0 <? nNow); simpl; [|auto].
  intro He. right. eapply IH. exact He.
Qed.

(** What is left in the queue has not expired before [nNow]. *)
Lemma ExpireRelay_fresh nNow q : forall m,
  relay_sorted q ->
  Forall (fun e => nNow <= fst e) (snd (ExpireRelay nNow m q)).
Proof.
  induction q as [|[t0 h0] rest IH]; intros m Hs; simpl; [constructor|].
  inversion Hs as [|? ? Hrest Hall]; subst.
  destruct (Z.ltb_spec t0 nNow); simpl.
  - apply IH. assumption.
  - constructor; [simpl; lia|].
    eapply Forall_impl; [exact Hall|]. simpl. intros e He. lia.
Qed.

(** An entry that expired before [nNow] is gone from the map. *)
Lemma ExpireRelay_deletes nNow q : forall m t h,
  relay_sorted q -> In (t, h) q -> t < nNow ->
  fst (ExpireRelay nNow m q) !! h = None.
Proof.
  induction q as [|[t0 h0] rest IH]; intros m t h Hs Hin Hlt; [destruct Hin|].
  inversion Hs as [|? ? Hrest Hall]; subst. simpl.
  destruct (Z.ltb_spec t0 nNow).
  - destruct Hin as [[= -> ->]|Hin].
    + destruct (fst (ExpireRelay nNow (delete h m) rest) !! h) eqn:Hl;
        [|reflexivity].
      apply ExpireRelay_shrinks in Hl. rewrite lookup_delete_eq in Hl.
      discriminate.
    + eapply IH; eassumption.
  - exfalso. destruct Hin as [[= -> ->]|Hin]; [lia|].
    rewrite List.Forall_forall in Hall. specialize (Hall _ Hin). simpl in Hall. lia.
Qed.

(** A map entry that survives keeps all its queue entries. *)
Lemma ExpireRelay_keeps nNow q : forall m t h,
  is_Some (fst (ExpireRelay nNow m q) !! h) -> In (t, h) q ->
  In (t, h) (snd (ExpireRelay nNow m q)).
Proof.
  induction q as [|[t0 h0] rest IH]; intros m t h Hsome Hin; [destruct Hin|].
  simpl in *. destruct (t0 <? nNow); simpl in *; [|assumption].
  destruct Hin as [[= -> ->]|Hin].
  - destruct Hsome as [x Hx]. apply ExpireRelay_shrinks in Hx.
    rewrite lookup_delete_eq in Hx. discriminate.
  - apply IH; assumption.
Qed.

Lemma ExpireRelay_indexed nNow m q :
  relay_indexed m q ->
  relay_indexed (fst (ExpireRelay nNow m q)) (snd (ExpireRelay nNow m q)).
Proof.
  intros Hidx h Hsome.
  destruct (Hidx h) as [t Ht].
  { destruct Hsome as [x Hx]. apply ExpireRelay_shrinks in Hx. eauto. }
  exists t. apply ExpireRelay_keeps; assumption.
Qed.

(** ** The mempool dump *)

Lemma advertised_app l1 l2 :
  advertised (l1 ++ l2) = advertised l1 ++ advertised l2.
Proof.
  induction l1 as [|e l1 IH]; simpl; [reflexivity|].
  destruct e; simpl; rewrite IH; try reflexivity.
  rewrite app_assoc. reflexivity.
Qed.

Lemma erase_first_occurrences h l x :
  (occurrences (erase_first h l) x <= occurrences l x)%nat.
Proof.
  unfold occurrences. induction l as [|y l IH]; simpl; [lia|].
  destruct (N.eqb_spec y h) as [->|Hne]; simpl.
  - destruct (N.eq_dec h x); lia.
  - destruct (N.eq_dec y x); lia.
Qed.

Lemma erase_first_occurrence h l :
  occurrences (erase_first h l) h = pred (occurrences l h).
Proof.
  unfold occurrences. induction l as [|y l IH]; simpl; [reflexivity|].
  destruct (N.eqb_spec y h) as [->|Hne]; simpl.
  - destruct (N.eq_dec h h); [reflexivity|congruence].
  - destruct (N.eq_dec y h); [congruence|exact IH].
Qed.

(** In a vector without duplicates a txid that occurs at most zero times
    does not occur. *)
Lemma absent_of_NoDup (l l' : list uint256) h :
  List.NoDup l ->
  (occurrences l' h <= pred (occurrences l h))%nat ->
  ~ In h l'.
Proof.
  intros Hnd Hle Hin. unfold occurrences in *.
  apply (count_occ_In N.eq_dec) in Hin.
  rewrite (NoDup_count_occ N.eq_dec) in Hnd. specialize (Hnd h). lia.
Qed.

Lemma erase_first_length h l : (length (erase_first h l) <= length l)%nat.
Proof.
  induction l as [|y l IH]; simpl; [lia|].
  destruct (N.eqb y h); simpl; lia.
Qed.

Lemma grows_refl v : grows v v [] [].
Proof.
  unfold grows. split; [exists []; rewrite !app_nil_r; auto|].
  rewrite app_nil_r. auto.
Qed.

Lemma grows_occurrences v v' more sent x :
  grows v v' more sent ->
  (occurrences (toSendTxHashes v') x <= occurrences (toSendTxHashes v) x)%nat.
Proof. intros (_ & _ & H). apply H. Qed.

Lemma grows_trans v1 v2 v3 m1 s1 m2 s2 :
  grows v1 v2 m1 s1 -> grows v2 v3 m2 s2 ->
  grows v1 v3 (m1 ++ m2) (s1 ++ s2).
Proof.
  intros ((n1 & Hc1 & Ha1) & Hs1 & Hi1) ((n2 & Hc2 & Ha2) & Hs2 & Hi2).
  split; [|split].
  - exists (n1 ++ n2). split.
    + rewrite Hc2, Hc1, app_assoc. reflexivity.
    + rewrite advertised_app, <- app_assoc, Ha2, app_assoc, Ha1, app_assoc.
      reflexivity.
  - rewrite Hs2, Hs1, app_assoc. reflexivity.
  - intro x. specialize (Hi1 x). specialize (Hi2 x). lia.
Qed.

Lemma grows_erase v h :
  grows v (with_toSend (erase_first h (toSendTxHashes v)) v) [] [].
Proof.
  unfold grows. simpl.
  split; [exists []; rewrite !app_nil_r; auto|].
  rewrite app_nil_r. split; [reflexivity|].
  intro x. apply erase_first_occurrences.
Qed.

Lemma grows_txFilter v f : grows v (with_txFilter f v) [] [].
Proof.
  unfold grows. simpl.
  split; [exists []; rewrite !app_nil_r; auto|].
  rewrite app_nil_r. auto.
Qed.

Lemma grows_haveSent v h :
  grows v (with_haveSent (haveSentTxHashes v ++ [h]) v) [] [h].
Proof.
  unfold grows. simpl.
  split; [exists []; rewrite !app_nil_r; auto|]. auto.
Qed.

Lemma grows_istate v s' :
  calls s' = calls (istate v) -> grows v (with_istate s' v) [] [].
Proof.
  intro Hc. unfold grows. simpl.
  split; [exists []; rewrite !app_nil_r; auto|].
  rewrite app_nil_r. auto.
Qed.

Lemma grows_push_inv xnode inv v :
  grows v (push_inv xnode inv v) [inv_hash inv] [].
Proof.
  unfold grows, push_inv.
  destruct (Z.of_nat (length (vInv v ++ [inv])) =? MAX_INV_SZ); simpl.
  - split; [|rewrite app_nil_r; auto].
    eexists. split; [reflexivity|]. simpl.
    rewrite !app_nil_r, map_app. reflexivity.
  - split; [|rewrite app_nil_r; auto].
    exists []. rewrite app_nil_r. split; [reflexivity|].
    simpl. rewrite map_app. reflexivity.
Qed.

Lemma push_inv_toSend xnode inv v :
  toSendTxHashes (push_inv xnode inv v) = toSendTxHashes v.
Proof. unfold push_inv. destruct (_ =? _); reflexivity. Qed.

(** One mempool entry of the dump: if it passes the floor and the filter
    its txid is queued and recorded, and its first occurrence leaves the
    pending vector either way. *)
Lemma DumpEntry_grows xnode minFeeFilter txinfo v :
  exists more sent,
    grows v (DumpEntry xnode minFeeFilter txinfo v) more sent
    /\ (fst (passes minFeeFilter txinfo (txFilter v)) = true ->
        In (GetHash (info_tx txinfo)) more
        /\ In (GetHash (info_tx txinfo)) sent)
    /\ occurrences (toSendTxHashes (DumpEntry xnode minFeeFilter txinfo v))
         (GetHash (info_tx txinfo))
       = pred (occurrences (toSendTxHashes v) (GetHash (info_tx txinfo))).
Proof.
  unfold DumpEntry. simpl.
  destruct (passes minFeeFilter txinfo (txFilter v)) as [ok f'] eqn:Hp.
  set (hash := GetHash (info_tx txinfo)).
  set (v1 := with_toSend (erase_first hash (toSendTxHashes v)) v).
  set (v2 := with_txFilter f' v1).
  assert (G12 : grows v v2 ([] ++ []) ([] ++ [])).
  { eapply grows_trans; [apply grows_erase | apply grows_txFilter]. }
  destruct ok; simpl.
  - set (v3 := with_haveSent (haveSentTxHashes v2 ++ [hash]) v2).
    exists (([] ++ []) ++ [] ++ [hash]), (([] ++ []) ++ [hash] ++ []).
    split; [|split].
    + eapply grows_trans; [exact G12|].
      eapply grows_trans; [apply grows_haveSent|].
      apply (grows_push_inv xnode {| inv_type := MSG_TX; inv_hash := hash |}).
    + intros _. simpl. auto.
    + rewrite push_inv_toSend. simpl. apply erase_first_occurrence.
  - exists ([] ++ []), ([] ++ []). split; [exact G12|]. split.
    + discriminate.
    + simpl. apply erase_first_occurrence.
Qed.

Lemma Dump_grows xnode minFeeFilter vtxinfo : forall v,
  exists more sent, grows v (Dump xnode minFeeFilter vtxinfo v) more sent.
Proof.
  induction vtxinfo as [|txinfo rest IH]; intro v; simpl.
  - exists [], []. apply grows_refl.
  - destruct (DumpEntry_grows xnode minFeeFilter txinfo v)
      as (m1 & s1 & G1 & _).
    destruct (IH (DumpEntry xnode minFeeFilter txinfo v)) as (m2 & s2 & G2).
    exists (m1 ++ m2), (s1 ++ s2). eapply grows_trans; eassumption.
Qed.

Lemma Dump_app xnode minFeeFilter l1 l2 v :
  Dump xnode minFeeFilter (l1 ++ l2) v
  = Dump xnode minFeeFilter l2 (Dump xnode minFeeFilter l1 v).
Proof.
  revert v. induction l1 as [|e l1 IH]; intro v; simpl; [reflexivity|].
  apply IH.
Qed.

Lemma Drain_grows xnode minFeeFilter nNow rounds : forall nRelayed v,
  exists more sent,
    grows v (Drain rounds xnode minFeeFilter nNow nRelayed v) more sent.
Proof.
  induction rounds as [|rounds IH]; intros nRelayed v; simpl.
  { exists [], []. apply grows_refl. }
  destruct (heap_top _ _) as [hash|]; [|exists [], []; apply grows_refl].
  destruct (negb _); [exists [], []; apply grows_refl|].
  set (v1 := with_toSend (erase_first hash (toSendTxHashes v)) v).
  assert (G1 : grows v v1 [] []) by apply grows_erase.
  simpl.
  destruct (mp_info (ledger (istate v)) hash) as [txinfo|].
  - destruct (passes minFeeFilter txinfo (txFilter v)) as [ok f'].
    destruct ok.
    + match goal with
      | |- context [Drain rounds _ _ _ ?n ?v5] =>
          destruct (IH n v5) as (m2 & s2 & G2)
      end.
      eexists. eexists.
      eapply grows_trans; [exact G1|].
      eapply grows_trans; [apply grows_txFilter|].
      eapply grows_trans; [apply grows_haveSent|].
      eapply grows_trans; [apply grows_istate|].
      2: { eapply grows_trans; [apply grows_push_inv | exact G2]. }
      simpl. unfold PublishRelay.
      destruct (mapRelay _ !! hash); reflexivity.
    + destruct (IH nRelayed (with_txFilter f' v1)) as (m2 & s2 & G2).
      eexists. eexists.
      eapply grows_trans; [exact G1|].
      eapply grows_trans; [apply grows_txFilter | exact G2].
  - destruct (IH nRelayed v1) as (m2 & s2 & G2).
    eexists. eexists. eapply grows_trans; [exact G1 | exact G2].
Qed.

Lemma PendingDrain_grows xnode minFeeFilter nNow v :
  exists more sent,
    grows v (PendingDrain xnode minFeeFilter nNow v) more sent.
Proof.
  unfold PendingDrain.
  destruct (toSendTxHashes v) as [|h0 rest] eqn:Hts.
  { exists [], []. apply grows_refl. }
  destruct (ExpireRelay nNow _ _) as [m q].
  match goal with
  | |- context [Drain ?n _ _ _ ?k ?v'] =>
      destruct (Drain_grows xnode minFeeFilter nNow n k v') as (m2 & s2 & G2)
  end.
  exists ([] ++ m2), ([] ++ s2).
  eapply grows_trans; [|exact G2].
  apply grows_istate. reflexivity.
Qed.

(** Everything queued during a call has been sent when it returns. *)
Lemma FlushInv_sends xnode v :
  exists new,
    calls (istate (FlushInv xnode v)) = calls (istate v) ++ new
    /\ advertised new = map inv_hash (vInv v)
    /\ haveSentTxHashes (FlushInv xnode v) = haveSentTxHashes v
    /\ toSendTxHashes (FlushInv xnode v) = toSendTxHashes v.
Proof.
  unfold FlushInv. destruct (vInv v) as [|i rest] eqn:Hv.
  - exists []. rewrite app_nil_r. auto.
  - eexists. simpl. split; [reflexivity|]. simpl.
    rewrite app_nil_r. auto.
Qed.

(** C6: in a mempool dump, an entry that passes the fee-rate floor and the
    bloom filter (in the state the filter has when the entry is reached)
    has its hash appended to [haveSentTxHashes] and sent in an INV message
    of the call, and an occurrence of its txid is erased from
    [toSendTxHashes]; the pending set holds a txid at most once, so the
    txid is gone from it. *)
Theorem mempool_dump_advertises
    xnode minFeeFilter filter toSend haveSent nNow s before txinfo after :
  mp_infoAll (ledger s) = before ++ txinfo :: after ->
  let v0 := {| toSendTxHashes := toSend; haveSentTxHashes := haveSent;
               txFilter := filter; vInv := []; istate := s |} in
  fst (passes minFeeFilter txinfo
         (txFilter (Dump xnode minFeeFilter before v0))) = true ->
  let hash := GetHash (info_tx txinfo) in
  let out := snd (NetRequestTxInventory xnode true minFeeFilter filter
                    toSend haveSent nNow s) in
  (exists sent, haveSentTxHashes out = haveSent ++ sent /\ In hash sent)
  /\ (exists new, calls (istate out) = calls s ++ new
                  /\ In hash (advertised new))
  /\ (occurrences (toSendTxHashes out) hash
      <= pred (occurrences toSend hash))%nat
  /\ (List.NoDup toSend -> ~ In hash (toSendTxHashes out)).
Proof.
  intros Hall v0 Hpass hash out.
  subst out. unfold NetRequestTxInventory. fold v0. simpl snd.
  rewrite Hall, Dump_app. simpl Dump.
  set (va := Dump xnode minFeeFilter before v0) in *.
  set (vb := DumpEntry xnode minFeeFilter txinfo va).
  set (v1 := Dump xnode minFeeFilter after vb).
  set (v2 := PendingDrain xnode minFeeFilter nNow v1).
  destruct (Dump_grows xnode minFeeFilter before v0) as (ma & sa & Ga).
  destruct (DumpEntry_grows xnode minFeeFilter txinfo va)
    as (mb & sb & Gb & Hin & Hgone).
  destruct (Hin Hpass) as [Hmb Hsb].
  destruct (Dump_grows xnode minFeeFilter after vb) as (m1 & s1 & G1).
  destruct (PendingDrain_grows xnode minFeeFilter nNow v1) as (m2 & s2 & G2).
  assert (Gtail : grows vb v2 (m1 ++ m2) (s1 ++ s2))
    by (eapply grows_trans; eassumption).
  assert (Gall : grows v0 v2 (ma ++ mb ++ m1 ++ m2) (sa ++ sb ++ s1 ++ s2)).
  { eapply grows_trans; [exact Ga|]. eapply grows_trans; eassumption. }
  destruct (FlushInv_sends xnode v2) as (fl & Hfc & Hfa & Hfs & Hft).
  assert (Hocc : (occurrences (toSendTxHashes (FlushInv xnode v2)) hash
                  <= pred (occurrences toSend hash))%nat).
  { rewrite Hft.
    pose proof (grows_occurrences _ _ _ _ hash Gtail) as H1.
    pose proof (grows_occurrences _ _ _ _ hash Ga) as H2.
    change (toSendTxHashes v0) with toSend in H2.
    fold va in H2. subst hash vb. lia. }
  destruct Gall as ((new & Hc & Ha) & Hs & _).
  split; [|split; [|split]].
  - exists (sa ++ sb ++ s1 ++ s2). rewrite Hfs, Hs. split; [reflexivity|].
    rewrite !in_app_iff. auto.
  - exists (new ++ fl). split.
    + rewrite Hfc, Hc, app_assoc. reflexivity.
    + rewrite advertised_app, Hfa, Ha. simpl. rewrite !in_app_iff. auto.
  - exact Hocc.
  - intro Hnd. exact (absent_of_NoDup toSend _ hash Hnd Hocc).
Qed.

(** ** The pending drain *)

Lemma heap_top_In comp v h : heap_top comp v = Some h -> In h v.
Proof.
  destruct v as [|x rest]; simpl; [discriminate|].
  intros [= <-]. revert x.
  induction rest as [|y rest IH]; intro x; simpl; [auto|].
  destruct (IH (if comp x y then y else x)) as [Heq|Hin]; [|auto].
  rewrite <- Heq. destruct (comp x y); auto.
Qed.

Lemma erase_first_length_In h l :
  In h l -> S (length (erase_first h l)) = length l.
Proof.
  induction l as [|y l IH]; simpl; [intros []|].
  destruct (N.eqb_spec y h) as [->|Hne]; [reflexivity|].
  intros [Heq|Hin]; [congruence|]. simpl. rewrite IH by assumption.
  reflexivity.
Qed.

(** The loop stops by its own condition: rounds beyond the length of the
    pending vector are never used. *)
Lemma Drain_rounds_enough xnode minFeeFilter nNow n : forall m nRelayed v,
  (length (toSendTxHashes v) <= n)%nat ->
  (length (toSendTxHashes v) <= m)%nat ->
  Drain n xnode minFeeFilter nNow nRelayed v
  = Drain m xnode minFeeFilter nNow nRelayed v.
Proof.
  induction n as [|n IH]; intros [|m] nRelayed v Hn Hm; simpl;
    try reflexivity;
    try (destruct (toSendTxHashes v); simpl in *; [reflexivity|lia]).
  destruct (heap_top _ _) as [hash|] eqn:Htop; [|reflexivity].
  destruct (negb _); [reflexivity|].
  pose proof (erase_first_length_In hash _ (heap_top_In _ _ _ Htop)) as Hlen.
  destruct (mp_info _ hash) as [txinfo|]; simpl.
  - destruct (passes _ _ _) as [ok f']. destruct ok.
    + apply IH; rewrite push_inv_toSend; simpl; lia.
    + apply IH; simpl; lia.
  - apply IH; simpl; lia.
Qed.

(** ** The relay cache keeps its invariants *)

Lemma relay_sorted_snoc q e :
  relay_sorted q -> relay_bounded (fst e) q -> relay_sorted (q ++ [e]).
Proof.
  unfold relay_sorted, relay_bounded.
  induction q as [|x q IH]; simpl; intros Hs Hb.
  - repeat constructor.
  - inversion Hs as [|? ? Hq Hx]; subst.
    inversion Hb as [|? ? Hxe Hqe]; subst.
    constructor; [auto|].
    apply List.Forall_app. split; [exact Hx|]. constructor; [exact Hxe|].
    constructor.
Qed.

(** An entry that has not expired before [nNow] stays in the queue,
    whatever the order of the queue. *)
Lemma ExpireRelay_kept_queue nNow q : forall m t h,
  In (t, h) q -> nNow <= t -> In (t, h) (snd (ExpireRelay nNow m q)).
Proof.
  induction q as [|[t0 h0] rest IH]; intros m t h Hin Hle; [destruct Hin|].
  simpl. destruct (Z.ltb_spec t0 nNow); simpl; [|exact Hin].
  destruct Hin as [[= -> ->]|Hin]; [lia|]. apply IH; assumption.
Qed.

(** A map entry none of whose queue entries expired before [nNow] is
    left as it is. *)
Lemma ExpireRelay_kept_map nNow q : forall m h,
  (forall t, In (t, h) q -> nNow <= t) ->
  fst (ExpireRelay nNow m q) !! h = m !! h.
Proof.
  induction q as [|[t0 h0] rest IH]; intros m h Hall; [reflexivity|].
  simpl. destruct (Z.ltb_spec t0 nNow); simpl; [|reflexivity].
  rewrite IH by (intros t Ht; apply Hall; right; exact Ht).
  apply lookup_delete_ne. intros ->.
  specialize (Hall t0 (or_introl eq_refl)). lia.
Qed.

(** The expire step pops a prefix of the queue, all of it expired before
    [nNow], and erases exactly the map entries of the popped txids. *)
Lemma ExpireRelay_split nNow q : forall m,
  exists dropped,
    q = dropped ++ snd (ExpireRelay nNow m q)
    /\ (forall t h, In (t, h) dropped ->
          t < nNow /\ fst (ExpireRelay nNow m q) !! h = None)
    /\ (forall h, (forall t, ~ In (t, h) dropped) ->
          fst (ExpireRelay nNow m q) !! h = m !! h).
Proof.
  induction q as [|[t0 h0] rest IH]; intro m.
  { exists []. split; [reflexivity|]. split; [intros t h []|reflexivity]. }
  simpl. destruct (Z.ltb_spec t0 nNow) as [Hlt|Hge]; simpl.
  - destruct (IH (delete h0 m)) as (dropped & Hq & Hd & Hk).
    exists ((t0, h0) :: dropped). split; [simpl; congruence|]. split.
    + intros t h [[= <- <-]|Hin]; [|apply Hd; exact Hin].
      split; [exact Hlt|].
      destruct (fst (ExpireRelay nNow (delete h0 m) rest) !! h0) eqn:Hl;
        [|reflexivity].
      apply ExpireRelay_shrinks in Hl. rewrite lookup_delete_eq in Hl.
      discriminate.
    + intros h Hno. rewrite Hk.
      * apply lookup_delete_ne. intros ->. apply (Hno t0). left. reflexivity.
      * intros t Ht. apply (Hno t). right. exact Ht.
  - exists []. split; [reflexivity|]. split; [intros t h []|reflexivity].
Qed.

(** C4, as the code has it.  After the expire step at time [nNow] every
    entry whose expiry time lies strictly before [nNow] is gone from both
    the map and the queue, and every surviving entry has an expiry time of
    at least [nNow].  Nothing else is removed: the step pops a prefix of
    the queue and erases the map entries of the popped txids only, so an
    entry whose expiry time is [nNow] or later is kept, the one expiring
    exactly at [nNow] included.  The expiry time is the insertion time
    plus 15 minutes: a transaction published at [tIns] is gone after the
    step if [tIns + 15 min < nNow] and is still served if
    [nNow <= tIns + 15 min]. *)
Theorem expire_drops_overdue nNow m q :
  relay_sorted q ->
  relay_indexed m q ->
  let m' := fst (ExpireRelay nNow m q) in
  let q' := snd (ExpireRelay nNow m q) in
  (forall t h, In (t, h) q -> t < nNow -> ~ In (t, h) q' /\ m' !! h = None)
  /\ (forall t h, In (t, h) q' -> nNow <= t)
  /\ (forall h, is_Some (m' !! h) -> exists t, In (t, h) q' /\ nNow <= t)
  /\ (exists dropped,
        q = dropped ++ q'
        /\ (forall t h, In (t, h) dropped -> t < nNow /\ m' !! h = None)
        /\ (forall h, (forall t, ~ In (t, h) dropped) -> m' !! h = m !! h))
  /\ (forall t h, In (t, h) q -> nNow <= t -> In (t, h) q')
  /\ (forall h, (forall t, In (t, h) q -> nNow <= t) -> m' !! h = m !! h)
  /\ (forall s tIns h tx,
        mapRelay s = m -> vRelayExpiration s = q ->
        m !! h = None -> (forall t, ~ In (t, h) q) ->
        relay_bounded (tIns + 15 * 60 * 1000000) q ->
        let s1 := PublishRelay tIns h tx s in
        let m1 := fst (ExpireRelay nNow (mapRelay s1) (vRelayExpiration s1)) in
        let q1 := snd (ExpireRelay nNow (mapRelay s1) (vRelayExpiration s1)) in
        (tIns + 15 * 60 * 1000000 < nNow ->
         m1 !! h = None /\ forall t, ~ In (t, h) q1)
        /\ (nNow <= tIns + 15 * 60 * 1000000 ->
            m1 !! h = Some tx /\ In (tIns + 15 * 60 * 1000000, h) q1)).
Proof.
  intros Hs Hidx m' q'.
  pose proof (ExpireRelay_fresh nNow q m Hs) as Hfresh.
  rewrite List.Forall_forall in Hfresh.
  split; [|split; [|split; [|split; [|split; [|split]]]]].
  - intros t h Hin Hlt. split.
    + intro Hq'. specialize (Hfresh _ Hq'). simpl in Hfresh. lia.
    + eapply ExpireRelay_deletes; eassumption.
  - intros t h Hin. apply (Hfresh _ Hin).
  - intros h Hsome.
    destruct (ExpireRelay_indexed nNow m q Hidx h Hsome) as [t Ht].
    exists t. split; [exact Ht|]. apply (Hfresh _ Ht).
  - apply ExpireRelay_split.
  - intros t h Hin Hle. apply ExpireRelay_kept_queue; assumption.
  - intros h Hall. apply ExpireRelay_kept_map. exact Hall.
  - intros s tIns h tx Hm Hq Hnone Hnoq Hbound s1 m1 q1.
    assert (Hm1 : mapRelay s1 = <[h := tx]> m).
    { subst s1. unfold PublishRelay. rewrite Hm, Hnone. reflexivity. }
    assert (Hq1 : vRelayExpiration s1
                  = q ++ [(tIns + 15 * 60 * 1000000, h)]).
    { subst s1. unfold PublishRelay. rewrite Hm, Hnone, Hq. reflexivity. }
    subst m1 q1. rewrite Hm1, Hq1.
    assert (Hs1 : relay_sorted (q ++ [(tIns + 15 * 60 * 1000000, h)])).
    { apply relay_sorted_snoc; assumption. }
    split.
    + intro Hlt. split.
      * apply (ExpireRelay_deletes nNow _ _ (tIns + 15 * 60 * 1000000) h Hs1);
          [apply in_or_app; right; left; reflexivity|exact Hlt].
      * intros t Hin.
        pose proof (ExpireRelay_fresh nNow _ (<[h := tx]> m) Hs1) as Hf.
        rewrite List.Forall_forall in Hf. specialize (Hf _ Hin).
        apply ExpireRelay_suffix in Hin.
        apply in_app_or in Hin as [Hin|[[= <-]|[]]];
          [exact (Hnoq t Hin)|simpl in Hf; lia].
    + intro Hle. split.
      * rewrite ExpireRelay_kept_map; [apply lookup_insert_eq|].
        intros t Hin.
        apply in_app_or in Hin as [Hin|[[= <-]|[]]];
          [elim (Hnoq t Hin)|exact Hle].
      * apply ExpireRelay_kept_queue; [|exact Hle].
        apply in_or_app. right. left. reflexivity.
Qed.

Lemma PublishRelay_invariant nNow hash tx s :
  let bound := nNow + 15 * 60 * 1000000 in
  relay_sorted (vRelayExpiration s) ->
  relay_indexed (mapRelay s) (vRelayExpiration s) ->
  relay_bounded bound (vRelayExpiration s) ->
  relay_sorted (vRelayExpiration (PublishRelay nNow hash tx s))
  /\ relay_indexed (mapRelay (PublishRelay nNow hash tx s))
       (vRelayExpiration (PublishRelay nNow hash tx s))
  /\ relay_bounded bound (vRelayExpiration (PublishRelay nNow hash tx s)).
Proof.
  intros bound Hs Hi Hb. unfold PublishRelay.
  destruct (mapRelay s !! hash) eqn:Hl; [auto|]. simpl.
  split; [|split].
  - apply relay_sorted_snoc; assumption.
  - intros h Hsome. destruct (decide (hash = h)) as [->|Hne].
    + exists bound. apply in_or_app. right. simpl. auto.
    + rewrite lookup_insert_ne in Hsome by assumption.
      destruct (Hi h Hsome) as [t Ht]. exists t. apply in_or_app. auto.
  - apply List.Forall_app. split; [exact Hb|].
    constructor; [simpl; lia|constructor].
Qed.

Lemma push_inv_relay xnode inv v :
  mapRelay (istate (push_inv xnode inv v)) = mapRelay (istate v)
  /\ vRelayExpiration (istate (push_inv xnode inv v))
     = vRelayExpiration (istate v).
Proof. unfold push_inv. destruct (_ =? _); simpl; auto. Qed.

Lemma Dump_relay xnode minFeeFilter vtxinfo : forall v,
  mapRelay (istate (Dump xnode minFeeFilter vtxinfo v)) = mapRelay (istate v)
  /\ vRelayExpiration (istate (Dump xnode minFeeFilter vtxinfo v))
     = vRelayExpiration (istate v).
Proof.
  induction vtxinfo as [|txinfo rest IH]; intro v; simpl; [auto|].
  destruct (IH (DumpEntry xnode minFeeFilter txinfo v)) as [-> ->].
  unfold DumpEntry. destruct (passes _ _ _) as [ok f'].
  destruct ok; [|simpl; auto].
  match goal with
  | |- context [push_inv ?x ?i ?w] =>
      destruct (push_inv_relay x i w) as [-> ->]
  end. simpl. auto.
Qed.

Lemma Drain_relay_invariant xnode minFeeFilter nNow rounds :
  forall nRelayed v,
  let bound := nNow + 15 * 60 * 1000000 in
  relay_sorted (vRelayExpiration (istate v)) ->
  relay_indexed (mapRelay (istate v)) (vRelayExpiration (istate v)) ->
  relay_bounded bound (vRelayExpiration (istate v)) ->
  let v' := Drain rounds xnode minFeeFilter nNow nRelayed v in
  relay_sorted (vRelayExpiration (istate v'))
  /\ relay_indexed (mapRelay (istate v')) (vRelayExpiration (istate v'))
  /\ relay_bounded bound (vRelayExpiration (istate v')).
Proof.
  induction rounds as [|rounds IH]; intros nRelayed v bound Hs Hi Hb; simpl;
    [auto|].
  destruct (heap_top _ _) as [hash|]; [|auto].
  destruct (negb _); [auto|]. simpl.
  destruct (mp_info _ hash) as [txinfo|]; [|apply IH; assumption].
  destruct (passes _ _ _) as [ok f'].
  destruct ok; [|apply IH; assumption].
  destruct (PublishRelay_invariant nNow hash (info_tx txinfo) (istate v)
              Hs Hi Hb) as (Hs' & Hi' & Hb').
  apply IH;
    match goal with
    | |- context [push_inv ?x ?i ?w] =>
        destruct (push_inv_relay x i w) as [Hm Hq]
    end; rewrite ?Hm, ?Hq; simpl; assumption.
Qed.

(** An egress round keeps the queue sorted and every map entry indexed,
    provided the clock has not run backwards past a queued expiry. *)
Lemma NetRequestTxInventory_relay_invariant
    xnode sendMempool minFeeFilter filter toSend haveSent nNow s :
  relay_sorted (vRelayExpiration s) ->
  relay_indexed (mapRelay s) (vRelayExpiration s) ->
  relay_bounded (nNow + 15 * 60 * 1000000) (vRelayExpiration s) ->
  let s' := istate (snd (NetRequestTxInventory xnode sendMempool minFeeFilter
                           filter toSend haveSent nNow s)) in
  relay_sorted (vRelayExpiration s')
  /\ relay_indexed (mapRelay s') (vRelayExpiration s').
Proof.
  intros Hs Hi Hb. unfold NetRequestTxInventory. simpl snd.
  set (v0 := {| toSendTxHashes := toSend; haveSentTxHashes := haveSent;
                txFilter := filter; vInv := []; istate := s |}).
  set (v1 := if sendMempool
             then Dump xnode minFeeFilter (mp_infoAll (ledger s)) v0 else v0).
  assert (Hrel : mapRelay (istate v1) = mapRelay s
                 /\ vRelayExpiration (istate v1) = vRelayExpiration s).
  { unfold v1. destruct sendMempool; [|auto].
    apply (Dump_relay xnode minFeeFilter (mp_infoAll (ledger s)) v0). }
  destruct Hrel as [Hm Hq].
  assert (Hdrain :
            relay_sorted
              (vRelayExpiration
                 (istate (PendingDrain xnode minFeeFilter nNow v1)))
            /\ relay_indexed
                 (mapRelay (istate (PendingDrain xnode minFeeFilter nNow v1)))
                 (vRelayExpiration
                    (istate (PendingDrain xnode minFeeFilter nNow v1)))).
  { unfold PendingDrain.
    destruct (toSendTxHashes v1) as [|h0 rest]; [rewrite Hm, Hq; auto|].
    rewrite Hm, Hq.
    pose proof (ExpireRelay_sorted nNow (vRelayExpiration s) (mapRelay s) Hs)
      as Hs1.
    pose proof (ExpireRelay_indexed nNow (mapRelay s) (vRelayExpiration s) Hi)
      as Hi1.
    assert (Hb1 : relay_bounded (nNow + 15 * 60 * 1000000)
                    (snd (ExpireRelay nNow (mapRelay s) (vRelayExpiration s)))).
    { apply List.Forall_forall. intros e He.
      apply ExpireRelay_suffix in He.
      unfold relay_bounded in Hb. rewrite List.Forall_forall in Hb. auto. }
    destruct (ExpireRelay nNow (mapRelay s) (vRelayExpiration s)) as [m q].
    match goal with
    | |- context [Drain ?n _ _ _ ?k ?w] =>
        destruct (Drain_relay_invariant xnode minFeeFilter nNow n k w)
          as (H1 & H2 & _); simpl; auto
    end. }
  unfold FlushInv. destruct (vInv _); simpl; exact Hdrain.
Qed.

(** ** Recursive orphan resolution *)

(** The loop body does one of the four things [resolved] lists, and never
    touches the orphan pool itself. *)
Lemma ResolveOrphan_resolved o r r' :
  ResolveOrphan o r = Returned r' ->
  exists added,
    calls (rstate r') = calls (rstate r) ++ added
    /\ orphanTxMgr (rstate r') = orphanTxMgr (rstate r)
    /\ resolved o r r' added.
Proof.
  unfold ResolveOrphan.
  destruct (decide (fromPeer o ∈ setMisbehaving r)) as [Hin|Hnin].
  { intros [= <-]. exists []. rewrite app_nil_r.
    split; [reflexivity|]. split; [reflexivity|].
    apply resolved_skipped; auto. }
  destruct (AcceptToMemoryPool (ledger (rstate r)) (otx o)) as [res l'] eqn:Ha.
  assert (Hres : fst (AcceptToMemoryPool (ledger (rstate r)) (otx o)) = res)
    by (rewrite Ha; reflexivity).
  destruct (atmp_ok res) eqn:Hok.
  { simpl. intros [= <-]. eexists. simpl. rewrite <- !app_assoc. simpl.
    split; [reflexivity|]. split; [reflexivity|].
    eapply resolved_accepted; eauto. }
  destruct (atmp_missing res) eqn:Hmiss; simpl.
  { intros [= <-]. eexists. simpl. rewrite <- !app_assoc. simpl.
    split; [reflexivity|]. split; [reflexivity|].
    eapply resolved_missing; eauto. }
  unfold IsInvalid, rejects_insert.
  destruct (invalid (atmp_state res)) eqn:Hinv;
    [destruct (Z.ltb_spec 0 (nDoS (atmp_state res)))|];
    destruct (HasWitness (otx o)) eqn:Hw;
    destruct (CorruptionPossible (atmp_state res)) eqn:Hcp;
    simpl;
    try (destruct (recentRejects (rstate r)) as [rr|] eqn:Hrr; simpl;
         [|discriminate]);
    intros [= <-]; simpl;
    eexists; rewrite <- ?app_assoc; simpl;
    (split; [reflexivity|]); (split; [reflexivity|]).
  all: first
    [ apply (resolved_dropped o r _ res
               [MisbehaveNode (fromPeer o) (nDoS (atmp_state res))]
               [RejectsInsert (GetHash (otx o))])
    | apply (resolved_dropped o r _ res
               [MisbehaveNode (fromPeer o) (nDoS (atmp_state res))] [])
    | apply (resolved_dropped o r _ res []
               [RejectsInsert (GetHash (otx o))])
    | apply (resolved_dropped o r _ res [] []) ];
    simpl; eauto 10.
Qed.

Section LoopInvariant.

(** A property of the loop state and of the calls made since the loop
    started that every pass of the body maintains. *)
Variable Inv : Resolution -> list Event -> Prop.

Hypothesis Inv_step : forall o r r' new added,
  Inv r new -> resolved o r r' added -> Inv r' (new ++ added).

Hypothesis Inv_pop : forall r q new, Inv r new -> Inv (with_queue q r) new.

Lemma ResolveOrphans_invariant os : forall r r' new,
  ResolveOrphans os r = Returned r' ->
  Inv r new ->
  exists added,
    calls (rstate r') = calls (rstate r) ++ added
    /\ orphanTxMgr (rstate r') = orphanTxMgr (rstate r)
    /\ Inv r' (new ++ added).
Proof.
  induction os as [|o os IH]; intros r r' new; simpl.
  - intros [= <-] HI. exists []. rewrite !app_nil_r. auto.
  - destruct (ResolveOrphan o r) as [r1| |] eqn:Hstep; simpl;
      try discriminate.
    intros Hrest HI.
    destruct (ResolveOrphan_resolved o r r1 Hstep) as (a1 & Hc1 & Ho1 & Hr1).
    destruct (IH r1 r' (new ++ a1) Hrest (Inv_step _ _ _ _ _ HI Hr1))
      as (a2 & Hc2 & Ho2 & HI2).
    exists (a1 ++ a2). rewrite Hc2, Hc1, Ho2, Ho1, <- !app_assoc.
    rewrite <- app_assoc in HI2. auto.
Qed.

Lemma ProcessWorkQueue_invariant fuel : forall r r' new,
  ProcessWorkQueue fuel r = Returned r' ->
  Inv r new ->
  exists added,
    calls (rstate r') = calls (rstate r) ++ added
    /\ orphanTxMgr (rstate r') = orphanTxMgr (rstate r)
    /\ Inv r' (new ++ added).
Proof.
  induction fuel as [|fuel IH]; intros r r' new; simpl.
  - destruct (vWorkQueue r); [|discriminate].
    intros [= <-] HI. exists []. rewrite !app_nil_r. auto.
  - destruct (vWorkQueue r) as [|front rest].
    { intros [= <-] HI. exists []. rewrite !app_nil_r. auto. }
    destruct (ResolveOrphans _ _) as [r1| |] eqn:Hinner; simpl;
      try discriminate.
    intros Hrest HI.
    destruct (ResolveOrphans_invariant _ _ _ new Hinner (Inv_pop _ _ _ HI))
      as (a1 & Hc1 & Ho1 & HI1).
    destruct (IH r1 r' (new ++ a1) Hrest HI1) as (a2 & Hc2 & Ho2 & HI2).
    exists (a1 ++ a2). rewrite Hc2, Hc1, Ho2, Ho1, <- !app_assoc.
    rewrite <- app_assoc in HI2. auto.
Qed.

End LoopInvariant.

Lemma EraseOrphans_frame hashes : forall s,
  recentRejects (EraseOrphans hashes s) = recentRejects s
  /\ ledger (EraseOrphans hashes s) = ledger s
  /\ calls (EraseOrphans hashes s) = calls s.
Proof.
  induction hashes as [|h rest IH]; intro s; simpl; [auto|].
  destruct (IH (set_orphans (snd (EraseOrphanTx (orphanTxMgr s) h)) s))
    as (-> & -> & ->). auto.
Qed.

(** ** A peer is scored at most once per call *)

Lemma scored_once_app l1 l2 :
  scored_once (l1 ++ l2)
  <-> scored_once l1 /\ scored_once l2
      /\ forall p d, In (MisbehaveNode p d) l1 ->
                     forallb (quiet_about p) l2 = true.
Proof.
  induction l1 as [|e l1 IH]; simpl.
  - split; [intro H; repeat split; auto; intros ? ? []|tauto].
  - rewrite IH. split.
    + intros (He & H1 & H2 & H12). repeat split; auto.
      * destruct e; auto. rewrite forallb_app in He.
        apply andb_true_iff in He. tauto.
      * intros p d [->|Hin]; [|eauto].
        rewrite forallb_app in He. apply andb_true_iff in He. tauto.
    + intros ((He & H1) & H2 & H12).
      split; [|split; [assumption|split; [assumption|eauto]]].
      destruct e; auto. rewrite forallb_app, He. simpl. eauto.
Qed.

Lemma scored_once_unscored l :
  forallb (fun e => negb (is_scoring e)) l = true -> scored_once l.
Proof.
  induction l as [|e l IH]; simpl; [auto|].
  intro H. apply andb_true_iff in H as [He Hl].
  split; [|auto]. destruct e; auto; discriminate.
Qed.

Lemma unscored_quiet l :
  forallb (fun e => negb (is_scoring e)) l = true ->
  forall p d, ~ In (MisbehaveNode p d) l.
Proof.
  intros H p d Hin. rewrite forallb_forall in H.
  specialize (H _ Hin). discriminate.
Qed.

(** At most one [MisbehaveNode] per peer in a log that is [scored_once]. *)
Lemma scored_once_count l p :
  scored_once l -> (length (List.filter (is_misbehave p) l) <= 1)%nat.
Proof.
  induction l as [|e l IH]; simpl; [lia|].
  intros [He Hl]. specialize (IH Hl).
  destruct (is_misbehave p e) eqn:Hm; simpl; [|exact IH].
  destruct e; try discriminate. simpl in Hm.
  apply Z.eqb_eq in Hm. subst peer.
  assert (Hnone : List.filter (is_misbehave p) l = []).
  { clear -He. induction l as [|e l IH]; simpl in *; [reflexivity|].
    apply andb_true_iff in He as [Hq Hl]. unfold quiet_about in Hq.
    apply andb_true_iff in Hq as [Hq _].
    destruct (is_misbehave p e); [discriminate|]. auto. }
  rewrite Hnone. simpl. lia.
Qed.

Lemma scored_once_split l before p d after :
  scored_once l ->
  l = before ++ MisbehaveNode p d :: after ->
  forallb (quiet_about p) after = true.
Proof.
  intros Hs ->. apply scored_once_app in Hs as (_ & Hs & _).
  simpl in Hs. tauto.
Qed.

Lemma fairness_step o r r' new added :
  fairness r new -> resolved o r r' added -> fairness r' (new ++ added).
Proof.
  intros [Hso Hset] Hres.
  assert (Hq : forall q, q ∈ setMisbehaving r -> q <> fromPeer o ->
                 quiet_about q
                   (Validated (FromOrphanPool (fromPeer o)) (otx o)
                      (fst (AcceptToMemoryPool (ledger (rstate r)) (otx o))))
                 = true).
  { intros q _ Hne. unfold quiet_about. simpl.
    destruct (Z.eqb_spec (fromPeer o) q); [congruence|reflexivity]. }
  destruct Hres as
    [Hin ->
    | res Hnin Hres Hok Hq' He Hm Hrr
    | res Hnin Hres Hok Hmiss Hq' He Hm Hrr
    | res scoring inserting Hnin Hres Hok Hmiss Hq' He Hsc Hins].
  - rewrite app_nil_r. split; assumption.
  - split.
    + apply scored_once_app. split; [assumption|]. split; [simpl; tauto|].
      intros p d Hp. specialize (Hset p d Hp).
      assert (p <> fromPeer o) by (intros ->; contradiction).
      simpl. subst res. rewrite Hq by assumption. reflexivity.
    + intros p d Hp. rewrite Hm. apply in_app_or in Hp as [Hp|Hp]; [eauto|].
      simpl in Hp. intuition discriminate.
  - split.
    + apply scored_once_app. split; [assumption|]. split; [simpl; tauto|].
      intros p d Hp. specialize (Hset p d Hp).
      assert (p <> fromPeer o) by (intros ->; contradiction).
      simpl. subst res. rewrite Hq by assumption. reflexivity.
    + intros p d Hp. rewrite Hm. apply in_app_or in Hp as [Hp|Hp]; [eauto|].
      simpl in Hp. intuition discriminate.
  - assert (Hquiet : forall p d, In (MisbehaveNode p d) new ->
              forallb (quiet_about p)
                ([Validated (FromOrphanPool (fromPeer o)) (otx o) res]
                 ++ scoring ++ inserting ++ [MempoolCheck]) = true).
    { intros p d Hp. specialize (Hset p d Hp).
      assert (Hne : p <> fromPeer o) by (intros ->; contradiction).
      simpl. subst res. rewrite Hq by assumption. simpl.
      rewrite !forallb_app.
      assert (forallb (quiet_about p) scoring = true) as ->.
      { destruct Hsc as [[-> _]|[-> _]]; [reflexivity|].
        simpl. unfold quiet_about. simpl.
        destruct (Z.eqb_spec (fromPeer o) p); [congruence|reflexivity]. }
      assert (forallb (quiet_about p) inserting = true) as ->.
      { destruct Hins as [[-> _]|[-> _]]; reflexivity. }
      reflexivity. }
    assert (Hafter : forallb (quiet_about (fromPeer o))
                       (inserting ++ [MempoolCheck]) = true).
    { destruct Hins as [[-> _]|[-> _]]; reflexivity. }
    split.
    + apply scored_once_app. split; [assumption|]. split; [|exact Hquiet].
      simpl. split; [exact I|].
      destruct Hsc as [[-> _]|[-> _]]; simpl.
      * apply scored_once_unscored.
        destruct Hins as [[-> _]|[-> _]]; reflexivity.
      * split; [exact Hafter|].
        apply scored_once_unscored.
        destruct Hins as [[-> _]|[-> _]]; reflexivity.
    + intros p d Hp. apply in_app_or in Hp as [Hp|Hp].
      * specialize (Hset p d Hp).
        destruct Hsc as [[_ ->]|[_ [-> _]]]; [assumption|].
        apply elem_of_union. right. assumption.
      * simpl in Hp. destruct Hp as [Hp|Hp]; [discriminate|].
        apply in_app_or in Hp as [Hp|Hp].
        -- destruct Hsc as [[-> _]|[-> [-> _]]]; [destruct Hp|].
           simpl in Hp. destruct Hp as [[= <- _]|[]].
           apply elem_of_union. left. apply elem_of_singleton. reflexivity.
        -- exfalso. apply in_app_or in Hp as [Hp|Hp].
           ++ destruct Hins as [[-> _]|[-> _]]; simpl in Hp;
                intuition discriminate.
           ++ simpl in Hp. intuition discriminate.
Qed.

Lemma fairness_pop r q new : fairness r new -> fairness (with_queue q r) new.
Proof. intros [? ?]. split; assumption. Qed.

(** ** The branches of an ingress call, by the calls they make *)

Lemma RequestParents_logged xnode nFetchFlags ins : forall s,
  exists mid,
    calls (RequestParents xnode nFetchFlags ins s) = calls s ++ mid
    /\ forallb is_request mid = true
    /\ ledger (RequestParents xnode nFetchFlags ins s) = ledger s
    /\ orphanTxMgr (RequestParents xnode nFetchFlags ins s) = orphanTxMgr s
    /\ (is_Some (recentRejects s) ->
        is_Some (recentRejects (RequestParents xnode nFetchFlags ins s))).
Proof.
  induction ins as [|txin rest IH]; intro s; simpl.
  - exists []. rewrite app_nil_r. auto.
  - set (h := op_hash (prevout txin)).
    set (s1 := emit (AddTxInventoryKnown (nodeID xnode) h nFetchFlags) s).
    pose proof (DoesTxExist_frame h s1) as (Hl & Ho & _ & _ & Hc).
    pose proof (DoesTxExist_initialized h s1) as Hi.
    destruct (DoesTxExist h s1) as [known s2]. simpl in *.
    match goal with
    | |- context [RequestParents _ _ rest ?s3] =>
        destruct (IH s3) as (mid & Hmid & Hreq & Hl3 & Ho3 & Hi3)
    end.
    destruct known; simpl in *.
    + exists (AddTxInventoryKnown (nodeID xnode) h nFetchFlags :: mid).
      rewrite Hmid, Hc, Hl3, Ho3, Hl, Ho, <- app_assoc. simpl.
      repeat split; auto.
    + exists (AddTxInventoryKnown (nodeID xnode) h nFetchFlags
              :: AskForTransaction (nodeID xnode) h nFetchFlags :: mid).
      rewrite Hmid, Hl3, Ho3. simpl. rewrite Hc, Hl, Ho, <- !app_assoc. simpl.
      repeat split; auto.
Qed.

Lemma MissingInputs_events args xnode tx s s' :
  MissingInputs args xnode tx s = Returned s' ->
  exists mid,
    calls s' = calls s ++ mid
    /\ ledger s' = ledger s
    /\ (is_Some (recentRejects s) -> is_Some (recentRejects s'))
    /\ (RejectedParents tx s = Returned true
        /\ mid = [RejectsInsert (GetHash tx)]
        /\ orphanTxMgr s' = orphanTxMgr s
        \/ RejectedParents tx s = Returned false
           /\ forallb is_request mid = true).
Proof.
  unfold MissingInputs.
  destruct (RejectedParents tx s) as [[|]| |] eqn:Hrp; simpl; try discriminate.
  - unfold rejects_insert.
    destruct (recentRejects s) as [rr|]; [|discriminate].
    intros [= <-]. simpl. eexists. split; [reflexivity|].
    split; [reflexivity|]. split; [eauto|]. left. auto.
  - intros [= <-]. simpl.
    match goal with
    | |- context [RequestParents ?x ?f ?i s] =>
        destruct (RequestParents_logged x f i s)
          as (mid & Hmid & Hreq & Hl & Ho & Hi)
    end.
    exists mid. simpl.
    split; [exact Hmid|]. split; [exact Hl|]. split; [exact Hi|].
    right. auto.
Qed.

Lemma InvalidOrKnown_events args xnode tx state s s' :
  InvalidOrKnown args xnode tx state s = Returned s' ->
  exists mid,
    calls s' = calls s ++ mid
    /\ (is_Some (recentRejects s) -> is_Some (recentRejects s'))
    /\ forall e, In e mid ->
         e = RejectsInsert (GetHash tx)
           /\ HasWitness tx = false /\ CorruptionPossible state = false
         \/ e = AddToCompactExtraTransactions tx
         \/ e = BroadcastTransaction (GetHash tx).
Proof.
  unfold InvalidOrKnown, rejects_insert.
  destruct (HasWitness tx) eqn:Hw;
    destruct (CorruptionPossible state) eqn:Hcp; simpl;
    try (destruct (recentRejects s) as [rr|] eqn:Hrr; simpl; [|discriminate]);
    split_branches; simpl; intros [= <-]; simpl;
    (eexists; split;
     [first [rewrite <- ?app_assoc; simpl; reflexivity
            | symmetry; apply app_nil_r]|]);
    (split; [simpl; eauto|]);
    simpl; intros e He;
    repeat (destruct He as [<-|He]; [auto|]); destruct He.
Qed.

Lemma Accepted_loop fuel xnode tx res s out :
  Accepted fuel xnode tx res s = Returned out ->
  exists rfin,
    ProcessWorkQueue fuel
      (StartResolution tx res
         (emit (BroadcastTransaction (GetHash tx)) (emit MempoolCheck s)))
    = Returned rfin
    /\ snd out = EraseOrphans (vEraseQueue rfin) (rstate rfin).
Proof.
  unfold Accepted.
  destruct (ProcessWorkQueue _ _) as [rfin| |]; simpl; try discriminate.
  intros [= <-]. exists rfin. auto.
Qed.

(** Every returning call is a refusal at the gate or one of the three
    branches followed by the common tail. *)
Lemma NetReceiveTxData_cases fuel args xnode ptx txHash s r :
  NetReceiveTxData fuel args xnode ptx txHash s = Returned r ->
  relay_refused args xnode = true /\ post r = s
  \/ relay_refused args xnode = false
     /\ exists res s1 pre s2 tail,
          TryAccept xnode ptx s = (res, s1)
          /\ calls s1 = calls s ++ pre
          /\ (pre = [] /\ res = not_validated
              \/ pre = [Validated (FromWire (nodeID xnode)) ptx res])
          /\ logged s2 (post r) tail
          /\ forallb is_tail tail = true
          /\ (atmp_ok res = true
              /\ (exists rfin,
                    ProcessWorkQueue fuel
                      (StartResolution ptx res
                         (emit (BroadcastTransaction (GetHash ptx))
                            (emit MempoolCheck s1)))
                    = Returned rfin
                    /\ s2 = EraseOrphans (vEraseQueue rfin) (rstate rfin))
              \/ atmp_ok res = false /\ atmp_missing res = true
                 /\ MissingInputs args xnode ptx s1 = Returned s2
              \/ atmp_ok res = false /\ atmp_missing res = false
                 /\ InvalidOrKnown args xnode ptx (atmp_state res) s1
                    = Returned s2).
Proof.
  intro Hrun.
  destruct (relay_refused args xnode) eqn:Hgate.
  { left. unfold NetReceiveTxData in Hrun. rewrite Hgate in Hrun.
    injection Hrun as <-. auto. }
  right. split; [reflexivity|].
  destruct (TryAccept xnode ptx s) as [res s1] eqn:Htry.
  destruct (TryAccept_logged _ _ _ _ _ Htry) as (_ & _ & pre & Hpre & Hshape).
  exists res, s1, pre.
  destruct (atmp_ok res) eqn:Hok.
  - rewrite (NetReceiveTxData_accepted _ _ _ _ _ _ _ _ Hgate Htry Hok) in Hrun.
    destruct (Accepted fuel xnode ptx res s1) as [out| |] eqn:Hacc;
      simpl in Hrun; try discriminate.
    injection Hrun as <-.
    destruct (Accepted_loop _ _ _ _ _ _ Hacc) as (rfin & Hloop & Hout).
    destruct (finish_logged (fst (fst out)) ptx (atmp_state res)
                (snd (fst out)) (snd out)) as (tl & Hlog & Htl & _).
    exists (snd out), tl. (split; [reflexivity|]); (split; [exact Hpre|]);
      (split; [exact Hshape|]); (split; [exact Hlog|]); (split; [exact Htl|]).
    left. split; [reflexivity|]. exists rfin. auto.
  - rewrite (NetReceiveTxData_not_accepted _ _ _ _ _ _ _ _ Hgate Htry Hok)
      in Hrun.
    destruct (atmp_missing res) eqn:Hmiss.
    + destruct (MissingInputs args xnode ptx s1) as [s2| |] eqn:Hm;
        simpl in Hrun; try discriminate.
      injection Hrun as <-.
      destruct (finish_logged xnode ptx (atmp_state res) (atmp_removed res) s2)
        as (tl & Hlog & Htl & _).
      exists s2, tl. (split; [reflexivity|]); (split; [exact Hpre|]);
      (split; [exact Hshape|]); (split; [exact Hlog|]); (split; [exact Htl|]). right. left. auto.
    + destruct (InvalidOrKnown args xnode ptx (atmp_state res) s1)
        as [s2| |] eqn:Hm; simpl in Hrun; try discriminate.
      injection Hrun as <-.
      destruct (finish_logged xnode ptx (atmp_state res) (atmp_removed res) s2)
        as (tl & Hlog & Htl & _).
      exists s2, tl. (split; [reflexivity|]); (split; [exact Hpre|]);
      (split; [exact Hshape|]); (split; [exact Hlog|]); (split; [exact Htl|]). right. right. auto.
Qed.

Lemma tail_quiet l p :
  forallb is_tail l = true -> forallb (quiet_about p) l = true.
Proof.
  apply forallb_impl. by_event.
Qed.

Lemma tail_unscored l :
  forallb is_tail l = true -> forallb (fun e => negb (is_scoring e)) l = true.
Proof.
  apply forallb_impl. by_event.
Qed.

Lemma request_unscored l :
  forallb is_request l = true ->
  forallb (fun e => negb (is_scoring e)) l = true.
Proof.
  apply forallb_impl. by_event.
Qed.

(** The calls of a whole ingress call are [scored_once]. *)
Lemma NetReceiveTxData_scored_once fuel args xnode ptx txHash s r :
  NetReceiveTxData fuel args xnode ptx txHash s = Returned r ->
  exists new, calls (post r) = calls s ++ new /\ scored_once new.
Proof.
  intro Hrun.
  destruct (NetReceiveTxData_cases _ _ _ _ _ _ _ Hrun)
    as [[_ ->]
       |(_ & res & s1 & pre & s2 & tl & _ & Hpre & Hshape & Hlog & Htl & Hbr)].
  { exists []. rewrite app_nil_r. simpl. auto. }
  destruct Hlog as (_ & _ & _ & _ & _ & _ & Hcalls).
  assert (Hpre_un : forallb (fun e => negb (is_scoring e)) pre = true).
  { destruct Hshape as [[-> _]| ->]; reflexivity. }
  assert (Hmid : exists mid, calls s2 = calls s1 ++ mid /\ scored_once mid).
  { destruct Hbr as [(_ & rfin & Hloop & ->)
                    |[(_ & _ & Hm)|(_ & _ & Hm)]].
    - destruct (ProcessWorkQueue_invariant fairness fairness_step fairness_pop
                  _ _ _ [] Hloop) as (added & Hc & _ & Hfair & _).
      { split; [exact I|]. intros p d []. }
      destruct (EraseOrphans_frame (vEraseQueue rfin) (rstate rfin))
        as (_ & _ & ->).
      exists ([MempoolCheck; BroadcastTransaction (GetHash ptx)] ++ added).
      split.
      + rewrite Hc. simpl. rewrite <- !app_assoc. reflexivity.
      + apply scored_once_app. split; [simpl; tauto|].
        split; [exact Hfair|]. intros p d Hin. simpl in Hin.
        destruct Hin as [?|[?|[]]]; discriminate.
    - destruct (MissingInputs_events _ _ _ _ _ Hm)
        as (mid & Hc & _ & _ & [(_ & -> & _)|(_ & Hreq)]).
      + eexists. split; [exact Hc|]. simpl. tauto.
      + exists mid. split; [exact Hc|].
        apply scored_once_unscored, request_unscored, Hreq.
    - destruct (InvalidOrKnown_events _ _ _ _ _ _ Hm) as (mid & Hc & _ & Hev).
      exists mid. split; [exact Hc|]. apply scored_once_unscored.
      apply forallb_forall. intros e He.
      destruct (Hev e He) as [(-> & _)|[->| ->]]; reflexivity. }
  destruct Hmid as (mid & Hmidc & Hso).
  exists (pre ++ mid ++ tl). split.
  { rewrite Hcalls, Hmidc, Hpre, <- !app_assoc. reflexivity. }
  apply scored_once_app. split; [apply scored_once_unscored, Hpre_un|].
  split.
  - apply scored_once_app. split; [exact Hso|].
    split; [apply scored_once_unscored, tail_unscored, Htl|].
    intros p d _. apply tail_quiet, Htl.
  - intros p d Hin. exfalso. exact (unscored_quiet _ Hpre_un p d Hin).
Qed.

(** C3: within one ingress call [MisbehaveNode] is invoked at most once
    for any peer, and once a peer has been scored for an invalid orphan no
    further orphan of that peer is validated or scored in the call. *)
Theorem orphan_fairness fuel args xnode ptx txHash s r :
  NetReceiveTxData fuel args xnode ptx txHash s = Returned r ->
  exists new,
    calls (post r) = calls s ++ new
    /\ (forall p, (length (List.filter (is_misbehave p) new) <= 1)%nat)
    /\ (forall before p d after,
          new = before ++ MisbehaveNode p d :: after ->
          forallb (fun e => negb (is_misbehave p e)
                            && negb (is_revalidation p e)) after = true).
Proof.
  intro Hrun.
  destruct (NetReceiveTxData_scored_once _ _ _ _ _ _ _ Hrun)
    as (new & Hc & Hso).
  exists new. split; [exact Hc|]. split.
  - intro p. apply scored_once_count. exact Hso.
  - intros before p d after Heq.
    exact (scored_once_split _ _ _ _ _ Hso Heq).
Qed.

(** ** Orphans that still lack inputs *)

Lemma settled_mono new added h : settled new h -> settled (new ++ added) h.
Proof.
  intros (p & tx & res & Hin & H). exists p, tx, res.
  split; [apply in_or_app; auto|exact H].
Qed.

Lemma rejected_orphan_mono new added h :
  rejected_orphan new h -> rejected_orphan (new ++ added) h.
Proof.
  intros (p & tx & res & Hin & H). exists p, tx, res.
  split; [apply in_or_app; auto|exact H].
Qed.

Lemma accounted_step o r r' new added :
  accounted r new -> resolved o r r' added -> accounted r' (new ++ added).
Proof.
  intros (He & Hr & Hm) Hres.
  assert (Hold : (forall h, In h (vEraseQueue r) -> settled (new ++ added) h)
                 /\ (forall h, In (RejectsInsert h) new ->
                       rejected_orphan (new ++ added) h)
                 /\ (forall p d, In (MisbehaveNode p d) new ->
                       exists tx res,
                         In (Validated (FromOrphanPool p) tx res) (new ++ added)
                         /\ atmp_ok res = false /\ atmp_missing res = false)).
  { split; [|split].
    - intros h Hh. apply settled_mono. auto.
    - intros h Hh. apply rejected_orphan_mono. auto.
    - intros p d Hp. destruct (Hm p d Hp) as (tx & res & Hin & H).
      exists tx, res. split; [apply in_or_app; auto|exact H]. }
  destruct Hold as (He' & Hr' & Hm').
  destruct Hres as
    [Hin ->
    | res Hnin Hres Hok Hq' Heq Hmis Hrr
    | res Hnin Hres Hok Hmiss Hq' Heq Hmis Hrr
    | res scoring inserting Hnin Hres Hok Hmiss Hq' Heq Hsc Hins].
  - rewrite app_nil_r. repeat split; assumption.
  - split; [|split].
    + intros h Hh. rewrite Heq in Hh. apply in_app_or in Hh as [Hh|[<-|[]]];
        [auto|].
      exists (fromPeer o), (otx o), res.
      split; [apply in_or_app; right; simpl; auto|]. auto.
    + intros h Hh. apply in_app_or in Hh as [Hh|Hh]; [auto|].
      simpl in Hh. destruct Hh as [?|[?|[?|[]]]]; discriminate.
    + intros p d Hp. apply in_app_or in Hp as [Hp|Hp]; [eauto|].
      simpl in Hp. destruct Hp as [?|[?|[?|[]]]]; discriminate.
  - split; [|split].
    + intros h Hh. rewrite Heq in Hh. auto.
    + intros h Hh. apply in_app_or in Hh as [Hh|Hh]; [auto|].
      simpl in Hh. destruct Hh as [?|[?|[]]]; discriminate.
    + intros p d Hp. apply in_app_or in Hp as [Hp|Hp]; [eauto|].
      simpl in Hp. destruct Hp as [?|[?|[]]]; discriminate.
  - assert (Hval : In (Validated (FromOrphanPool (fromPeer o)) (otx o) res)
                     (new ++ [Validated (FromOrphanPool (fromPeer o))
                                (otx o) res]
                          ++ scoring ++ inserting ++ [MempoolCheck])).
    { apply in_or_app. right. simpl. auto. }
    split; [|split].
    + intros h Hh. rewrite Heq in Hh. apply in_app_or in Hh as [Hh|[<-|[]]];
        [auto|].
      exists (fromPeer o), (otx o), res. auto.
    + intros h Hh. apply in_app_or in Hh as [Hh|Hh]; [auto|].
      simpl in Hh. destruct Hh as [?|Hh]; [discriminate|].
      apply in_app_or in Hh as [Hh|Hh].
      { destruct Hsc as [[-> _]|[-> _]]; simpl in Hh;
          [destruct Hh|destruct Hh as [?|[]]; discriminate]. }
      apply in_app_or in Hh as [Hh|Hh].
      2: { simpl in Hh. destruct Hh as [?|[]]; discriminate. }
      destruct Hins as [[-> _]|(-> & Hw & Hcp & _)]; [destruct Hh|].
      simpl in Hh. destruct Hh as [[= <-]|[]].
      exists (fromPeer o), (otx o), res. auto 8.
    + intros p d Hp. apply in_app_or in Hp as [Hp|Hp]; [eauto|].
      simpl in Hp. destruct Hp as [?|Hp]; [discriminate|].
      apply in_app_or in Hp as [Hp|Hp].
      { destruct Hsc as [[-> _]|[-> _]]; simpl in Hp; [destruct Hp|].
        destruct Hp as [[= <- _]|[]]. exists (otx o), res. auto. }
      exfalso. apply in_app_or in Hp as [Hp|Hp].
      * destruct Hins as [[-> _]|[-> _]]; simpl in Hp;
          [destruct Hp|destruct Hp as [?|[]]; discriminate].
      * simpl in Hp. destruct Hp as [?|[]]; discriminate.
Qed.

Lemma accounted_pop r q new : accounted r new -> accounted (with_queue q r) new.
Proof. intros (? & ? & ?). repeat split; assumption. Qed.

(** The work-queue loop never writes the orphan pool, and its log accounts
    for everything it marks, inserts or scores. *)
Lemma ProcessWorkQueue_accounted fuel tx res0 s rfin :
  ProcessWorkQueue fuel (StartResolution tx res0 s) = Returned rfin ->
  orphanTxMgr (rstate rfin) = orphanTxMgr s
  /\ exists new, calls (rstate rfin) = calls s ++ new /\ accounted rfin new.
Proof.
  intro Hloop.
  destruct (ProcessWorkQueue_invariant accounted accounted_step accounted_pop
              _ _ _ [] Hloop) as (added & Hc & Ho & Hacc).
  { split; [intros h []|]. split; [intros h []|intros p d []]. }
  split; [exact Ho|]. exists added. auto.
Qed.

(** C9: a re-validation of an orphan that ends in missing inputs leaves the
    orphan alone: it is not marked for erasure, the orphan pool is not
    written, nothing is inserted into the rejects filter and nobody is
    scored.  Over the whole work-queue loop, an orphan none of whose
    re-validations ended otherwise is neither marked for erasure nor
    inserted into the rejects filter. *)
Theorem missing_inputs_orphan_untouched o r res l' :
  fromPeer o ∉ setMisbehaving r ->
  AcceptToMemoryPool (ledger (rstate r)) (otx o) = (res, l') ->
  atmp_ok res = false ->
  atmp_missing res = true ->
  (exists r',
     ResolveOrphan o r = Returned r'
     /\ vEraseQueue r' = vEraseQueue r
     /\ orphanTxMgr (rstate r') = orphanTxMgr (rstate r)
     /\ recentRejects (rstate r') = recentRejects (rstate r)
     /\ setMisbehaving r' = setMisbehaving r
     /\ vWorkQueue r' = vWorkQueue r
     /\ calls (rstate r')
        = calls (rstate r)
          ++ [Validated (FromOrphanPool (fromPeer o)) (otx o) res;
              MempoolCheck])
  /\ (forall fuel tx res0 s rfin new,
        ProcessWorkQueue fuel (StartResolution tx res0 s) = Returned rfin ->
        calls (rstate rfin) = calls s ++ new ->
        ~ settled new (GetHash (otx o)) ->
        orphanTxMgr (rstate rfin) = orphanTxMgr s
        /\ ~ In (GetHash (otx o)) (vEraseQueue rfin)
        /\ ~ In (RejectsInsert (GetHash (otx o))) new).
Proof.
  intros Hnin Ha Hok Hmiss. split.
  - unfold ResolveOrphan.
    destruct (decide (fromPeer o ∈ setMisbehaving r)); [contradiction|].
    rewrite Ha, Hok, Hmiss. simpl.
    eexists. split; [reflexivity|]. simpl.
    rewrite <- app_assoc. auto 10.
  - intros fuel tx res0 s rfin new Hloop Hnew Hns.
    destruct (ProcessWorkQueue_accounted _ _ _ _ _ Hloop)
      as (Ho & added & Hc & He & Hr & _).
    rewrite Hc in Hnew. apply app_inv_head in Hnew. subst added.
    split; [exact Ho|]. split.
    + intro Hin. exact (Hns (He _ Hin)).
    + intro Hin. apply Hns.
      destruct (Hr _ Hin) as (p & tx' & res' & Hv & Hh & _ & Hm & _).
      exists p, tx', res'. auto.
Qed.

(** ** What enters the rejects filter *)

Lemma tail_no_insert l h :
  forallb is_tail l = true -> ~ In (RejectsInsert h) l.
Proof.
  intros H Hin. rewrite forallb_forall in H. specialize (H _ Hin).
  discriminate.
Qed.

Lemma tail_no_validation l who tx res :
  forallb is_tail l = true -> ~ In (Validated who tx res) l.
Proof.
  intros H Hin. rewrite forallb_forall in H. specialize (H _ Hin).
  discriminate.
Qed.

(** C2, as the code has it: a txid is inserted into the recent-rejects
    filter only (a) for the received transaction, invalid or already known,
    when it has no witness and its validation state is not
    corruption-possible, (b) for a re-validated orphan under the same two
    conditions, or (c) for the received transaction when validation
    reported missing inputs and one of its parents is in the filter; in
    case (c) neither the witness nor the corruption flag is consulted. *)
Theorem rejects_insert_guarded fuel args xnode ptx txHash s r :
  NetReceiveTxData fuel args xnode ptx txHash s = Returned r ->
  exists new,
    calls (post r) = calls s ++ new
    /\ forall h, In (RejectsInsert h) new ->
         (h = GetHash ptx
          /\ HasWitness ptx = false
          /\ forall res,
               In (Validated (FromWire (nodeID xnode)) ptx res) new ->
               atmp_ok res = false /\ atmp_missing res = false
               /\ CorruptionPossible (atmp_state res) = false)
         \/ rejected_orphan new h
         \/ (h = GetHash ptx
             /\ RejectedParents ptx (snd (TryAccept xnode ptx s))
                = Returned true
             /\ exists res,
                  In (Validated (FromWire (nodeID xnode)) ptx res) new
                  /\ atmp_ok res = false /\ atmp_missing res = true).
Proof.
  intro Hrun.
  destruct (NetReceiveTxData_cases _ _ _ _ _ _ _ Hrun)
    as [[_ ->]
       |(_ & res & s1 & pre & s2 & tl & Htry & Hpre & Hshape & Hlog & Htl
         & Hbr)].
  { exists []. rewrite app_nil_r. split; [reflexivity|]. intros h []. }
  destruct Hlog as (_ & _ & _ & _ & _ & _ & Hcalls).
  assert (Hpre_ins : forall h, ~ In (RejectsInsert h) pre).
  { intros h Hin. destruct Hshape as [[-> _]| ->]; simpl in Hin;
      [destruct Hin|destruct Hin as [?|[]]; discriminate]. }
  destruct Hbr as [(Hok & rfin & Hloop & ->)
                  |[(Hok & Hmiss & Hm)|(Hok & Hmiss & Hm)]].
  - destruct (ProcessWorkQueue_accounted _ _ _ _ _ Hloop)
      as (_ & added & Hc & _ & Hr & _).
    destruct (EraseOrphans_frame (vEraseQueue rfin) (rstate rfin))
      as (_ & _ & He).
    exists (pre ++ [MempoolCheck; BroadcastTransaction (GetHash ptx)]
            ++ added ++ tl).
    split.
    { rewrite Hcalls, He, Hc. simpl. rewrite Hpre, <- !app_assoc.
      reflexivity. }
    intros h Hin. right. left.
    apply in_app_or in Hin as [Hin|Hin]; [destruct (Hpre_ins _ Hin)|].
    simpl in Hin. destruct Hin as [?|[?|Hin]]; try discriminate.
    apply in_app_or in Hin as [Hin|Hin];
      [|destruct (tail_no_insert _ _ Htl Hin)].
    destruct (Hr _ Hin) as (p & tx & res' & Hv & H).
    exists p, tx, res'. split; [|exact H].
    apply in_or_app. right. simpl. right. right.
    apply in_or_app. left. exact Hv.
  - destruct (MissingInputs_events _ _ _ _ _ Hm)
      as (mid & Hc & _ & _ & [(Hrp & -> & _)|(_ & Hreq)]).
    + exists (pre ++ [RejectsInsert (GetHash ptx)] ++ tl). split.
      { rewrite Hcalls, Hc, Hpre, <- !app_assoc. reflexivity. }
      intros h Hin. right. right.
      apply in_app_or in Hin as [Hin|Hin]; [destruct (Hpre_ins _ Hin)|].
      simpl in Hin. destruct Hin as [[= <-]|Hin];
        [|destruct (tail_no_insert _ _ Htl Hin)].
      split; [reflexivity|]. rewrite Htry. split; [exact Hrp|].
      exists res. split; [|auto].
      destruct Hshape as [[_ ->]| ->]; [discriminate|].
      simpl. auto.
    + exists (pre ++ mid ++ tl). split.
      { rewrite Hcalls, Hc, Hpre, <- !app_assoc. reflexivity. }
      intros h Hin. exfalso.
      apply in_app_or in Hin as [Hin|Hin]; [destruct (Hpre_ins _ Hin)|].
      apply in_app_or in Hin as [Hin|Hin];
        [|destruct (tail_no_insert _ _ Htl Hin)].
      rewrite forallb_forall in Hreq. specialize (Hreq _ Hin). discriminate.
  - destruct (InvalidOrKnown_events _ _ _ _ _ _ Hm) as (mid & Hc & _ & Hev).
    exists (pre ++ mid ++ tl). split.
    { rewrite Hcalls, Hc, Hpre, <- !app_assoc. reflexivity. }
    intros h Hin. left.
    apply in_app_or in Hin as [Hin|Hin]; [destruct (Hpre_ins _ Hin)|].
    apply in_app_or in Hin as [Hin|Hin];
      [|destruct (tail_no_insert _ _ Htl Hin)].
    destruct (Hev _ Hin) as [([= ->] & Hw & Hcp)|[?|?]]; try discriminate.
    split; [reflexivity|]. split; [exact Hw|].
    intros res' Hv.
    apply in_app_or in Hv as [Hv|Hv].
    + destruct Hshape as [[-> _]| ->]; [destruct Hv|].
      simpl in Hv. destruct Hv as [[= <-]|[]]. auto.
    + exfalso. apply in_app_or in Hv as [Hv|Hv];
        [|destruct (tail_no_validation _ _ _ _ Htl Hv)].
      destruct (Hev _ Hv) as [(? & _)|[?|?]]; discriminate.
Qed.

(** ** The call returns, and returns true *)

Lemma cost_succ K rk : cost K (S rk) = (cost K rk + K * cost K rk)%nat.
Proof. unfold cost. rewrite Nat.pow_succ_r'. lia. Qed.

Lemma cost_pos K rk : (1 <= cost K rk)%nat.
Proof.
  induction rk as [|rk IH]; [unfold cost; simpl; lia|].
  rewrite cost_succ. lia.
Qed.

Lemma cost_mono K a b : (a <= b)%nat -> (cost K a <= cost K b)%nat.
Proof. intro H. unfold cost. apply Nat.pow_le_mono_r; lia. Qed.

Lemma weight_app K rank q1 q2 :
  weight K rank (q1 ++ q2) = (weight K rank q1 + weight K rank q2)%nat.
Proof. unfold weight. rewrite map_app, list_sum_app. reflexivity. Qed.

Lemma weight_outpoints K rank h n :
  weight K rank (outpoints_of h n) = (n * cost K (rank h))%nat.
Proof.
  unfold weight, outpoints_of. rewrite map_map. simpl.
  rewrite <- (length_seq n 0) at 2.
  induction (seq 0 n) as [|i l IH]; simpl; [reflexivity|].
  rewrite IH. reflexivity.
Qed.

(** The loop body returns once the rejects filter exists. *)
Lemma ResolveOrphan_returns o r :
  is_Some (recentRejects (rstate r)) ->
  exists r', ResolveOrphan o r = Returned r'.
Proof.
  intros [rr Hrr]. unfold ResolveOrphan, rejects_insert, IsInvalid.
  destruct (decide _); [eauto|].
  destruct (AcceptToMemoryPool _ _) as [res l'].
  destruct (atmp_ok res); simpl; [eauto|].
  destruct (atmp_missing res); simpl; [eauto|].
  destruct (invalid (atmp_state res)); [destruct (0 <? _)|];
    destruct (negb (HasWitness (otx o)) && _); simpl;
    rewrite ?Hrr; simpl; eauto.
Qed.

Lemma resolved_initialized o r r' added :
  resolved o r r' added ->
  is_Some (recentRejects (rstate r)) -> is_Some (recentRejects (rstate r')).
Proof.
  intros Hres Hi.
  destruct Hres as
    [_ ->
    | res _ _ _ _ _ _ Hrr
    | res _ _ _ _ _ _ _ Hrr
    | res scoring inserting _ _ _ _ _ _ _ Hins]; try congruence.
  destruct Hins as [[_ ->]|(_ & _ & _ & rr & _ & ->)]; eauto.
Qed.

Lemma resolved_pushed K rank o r r' added :
  resolved o r r' added ->
  exists pushed,
    vWorkQueue r' = vWorkQueue r ++ pushed
    /\ (weight K rank pushed
        <= length (vout (otx o)) * cost K (rank (GetHash (otx o))))%nat.
Proof.
  intros Hres.
  destruct Hres as
    [_ ->
    | res _ _ _ Hq _ _ _
    | res _ _ _ _ Hq _ _ _
    | res scoring inserting _ _ _ _ Hq _ _ _].
  - exists []. rewrite app_nil_r. split; [reflexivity|]. apply Nat.le_0_l.
  - eexists. split; [exact Hq|]. rewrite weight_outpoints. lia.
  - exists []. rewrite app_nil_r. split; [exact Hq|]. apply Nat.le_0_l.
  - exists []. rewrite app_nil_r. split; [exact Hq|]. apply Nat.le_0_l.
Qed.

(** The children of an outpoint of rank below [S rk] push at most
    [fanout * cost rk] worth of work. *)
Lemma ResolveOrphans_returns K rank rk os : forall r,
  is_Some (recentRejects (rstate r)) ->
  (forall o, In o os -> (rank (GetHash (otx o)) <= rk)%nat) ->
  exists r' pushed,
    ResolveOrphans os r = Returned r'
    /\ is_Some (recentRejects (rstate r'))
    /\ orphanTxMgr (rstate r') = orphanTxMgr (rstate r)
    /\ vWorkQueue r' = vWorkQueue r ++ pushed
    /\ (weight K rank pushed <= fanout os * cost K rk)%nat.
Proof.
  induction os as [|o os IH]; intros r Hi Hrk; simpl.
  - exists r, []. rewrite app_nil_r.
    repeat (split; [first [reflexivity | assumption]|]). apply Nat.le_0_l.
  - destruct (ResolveOrphan_returns o r Hi) as [r1 Hstep].
    rewrite Hstep. simpl.
    destruct (ResolveOrphan_resolved o r r1 Hstep) as (a1 & _ & Ho1 & Hr1).
    destruct (resolved_pushed K rank _ _ _ _ Hr1) as (p1 & Hq1 & Hw1).
    destruct (IH r1 (resolved_initialized _ _ _ _ Hr1 Hi))
      as (r' & p2 & Hrun & Hi' & Ho2 & Hq2 & Hw2).
    { intros o' Ho'. apply Hrk. right. exact Ho'. }
    exists r', (p1 ++ p2). split; [exact Hrun|]. split; [exact Hi'|].
    split; [congruence|]. split.
    + rewrite Hq2, Hq1, app_assoc. reflexivity.
    + rewrite weight_app. unfold fanout in *. simpl.
      pose proof (cost_mono K _ _ (Hrk o (or_introl eq_refl))) as Hc.
      nia.
Qed.

Lemma ProcessWorkQueue_returns K rank fuel : forall r,
  (weight K rank (vWorkQueue r) <= fuel)%nat ->
  is_Some (recentRejects (rstate r)) ->
  acyclic rank (orphanTxMgr (rstate r)) ->
  bounded_fanout K (orphanTxMgr (rstate r)) ->
  exists r', ProcessWorkQueue fuel r = Returned r'.
Proof.
  induction fuel as [|fuel IH]; intros r Hw Hi Hac Hbf; simpl.
  - destruct (vWorkQueue r) as [|front rest]; [eauto|].
    exfalso. unfold weight in Hw. simpl in Hw.
    pose proof (cost_pos K (rank (op_hash front))). lia.
  - destruct (vWorkQueue r) as [|front rest] eqn:Hq; [eauto|].
    set (os := FindOrphanTransactionsByPrev (orphanTxMgr (rstate r)) front).
    unfold weight in Hw. simpl in Hw. fold (weight K rank rest) in Hw.
    destruct (rank (op_hash front)) as [|rk] eqn:Hrk.
    + (* rank 0: the outpoint has no children *)
      assert (Hnil : os = []).
      { destruct os as [|o os'] eqn:Hos; [reflexivity|].
        pose proof (Hac front o) as Hlt. fold os in Hlt. rewrite Hos in Hlt.
        specialize (Hlt (or_introl eq_refl)). lia. }
      rewrite Hnil. simpl.
      apply IH; simpl; try assumption.
      pose proof (cost_pos K 0). lia.
    + destruct (ResolveOrphans_returns K rank rk os (with_queue rest r))
        as (r1 & pushed & Hrun & Hi1 & Ho1 & Hq1 & Hw1).
      { exact Hi. }
      { intros o Ho. pose proof (Hac front o Ho). lia. }
      rewrite Hrun. simpl.
      simpl in Ho1, Hq1.
      apply IH.
      * rewrite Hq1, weight_app.
        pose proof (Hbf front) as Hk. fold os in Hk.
        rewrite cost_succ in Hw.
        pose proof (cost_pos K rk). nia.
      * exact Hi1.
      * rewrite Ho1. exact Hac.
      * rewrite Ho1. exact Hbf.
Qed.

Lemma MissingInputs_returns args xnode tx s :
  is_Some (recentRejects s) ->
  exists s', MissingInputs args xnode tx s = Returned s'.
Proof.
  intros [rr Hrr]. unfold MissingInputs, RejectedParents, rejects_insert.
  destruct (vin tx) as [|i ins]; simpl; [eauto|].
  rewrite Hrr. simpl.
  destruct (negb _); simpl; eauto.
Qed.

Lemma InvalidOrKnown_returns args xnode tx state s :
  is_Some (recentRejects s) ->
  exists s', InvalidOrKnown args xnode tx state s = Returned s'.
Proof.
  intros [rr Hrr]. unfold InvalidOrKnown, rejects_insert. rewrite Hrr.
  destruct (negb (HasWitness tx) && _); simpl; [eauto|].
  destruct (HasWitness tx && _); simpl; eauto.
Qed.

Lemma NetReceiveTxData_ret fuel args xnode ptx txHash s r :
  NetReceiveTxData fuel args xnode ptx txHash s = Returned r -> ret r = true.
Proof.
  unfold NetReceiveTxData.
  destruct (relay_refused args xnode); [intros [= <-]; reflexivity|].
  destruct (TryAccept xnode ptx s) as [res s1].
  match goal with
  | |- (_ <-- ?branch ;; _) = _ -> _ =>
      destruct branch as [[[x1 rm] s2]| |]; simpl; try discriminate
  end.
  destruct (Report _ _ _ _). intros [= <-]. reflexivity.
Qed.

(** C10: the call returns, and the value it returns is [true] on every
    path.  The rejects filter must have been created by
    [InitializeForNet]; the work-queue loop ends because orphans cannot
    depend on themselves, within the stated number of popped outpoints. *)
Theorem NetReceiveTxData_returns_true
    args xnode ptx txHash s (rank : uint256 -> nat) (K fuel : nat) :
  is_Some (recentRejects s) ->
  acyclic rank (orphanTxMgr s) ->
  bounded_fanout K (orphanTxMgr s) ->
  (length (vout ptx) * cost K (rank (GetHash ptx)) <= fuel)%nat ->
  (exists r,
     NetReceiveTxData fuel args xnode ptx txHash s = Returned r
     /\ ret r = true)
  /\ (forall fuel' r',
        NetReceiveTxData fuel' args xnode ptx txHash s = Returned r' ->
        ret r' = true).
Proof.
  intros Hi Hac Hbf Hfuel.
  split; [|intros fuel' r'; apply NetReceiveTxData_ret].
  assert (Hret : exists r,
            NetReceiveTxData fuel args xnode ptx txHash s = Returned r).
  { destruct (relay_refused args xnode) eqn:Hgate.
    { unfold NetReceiveTxData. rewrite Hgate. eauto. }
    destruct (TryAccept xnode ptx s) as [res s1] eqn:Htry.
    destruct (TryAccept_logged _ _ _ _ _ Htry) as (Ho & Hi1 & _).
    specialize (Hi1 Hi).
    destruct (atmp_ok res) eqn:Hok.
    - rewrite (NetReceiveTxData_accepted _ _ _ _ _ _ _ _ Hgate Htry Hok).
      unfold Accepted.
      destruct (ProcessWorkQueue_returns K rank fuel
                  (StartResolution ptx res
                     (emit (BroadcastTransaction (GetHash ptx))
                        (emit MempoolCheck s1)))) as [rfin Hloop].
      + simpl. rewrite weight_outpoints. exact Hfuel.
      + exact Hi1.
      + simpl. rewrite Ho. exact Hac.
      + simpl. rewrite Ho. exact Hbf.
      + rewrite Hloop. simpl. eauto.
    - rewrite (NetReceiveTxData_not_accepted _ _ _ _ _ _ _ _ Hgate Htry Hok).
      destruct (atmp_missing res).
      + destruct (MissingInputs_returns args xnode ptx s1 Hi1) as [s2 ->].
        simpl. eauto.
      + destruct (InvalidOrKnown_returns args xnode ptx (atmp_state res) s1
                    Hi1) as [s2 ->].
        simpl. eauto. }
  destruct Hret as [r Hr]. exists r. split; [exact Hr|].
  exact (NetReceiveTxData_ret _ _ _ _ _ _ _ Hr).
Qed.

(** ** Receiving the same transaction again *)

Lemma NetReceiveTxData_refused fuel args xnode ptx txHash s :
  relay_refused args xnode = true ->
  NetReceiveTxData fuel args xnode ptx txHash s
  = Returned {| ret := true; xnode_out := xnode; txHash_out := txHash;
                post := s |}.
Proof. intro Hgate. unfold NetReceiveTxData. rewrite Hgate. reflexivity. Qed.

Lemma InvalidOrKnown_rejects args xnode tx state s s' rr :
  recentRejects s = Some rr ->
  InvalidOrKnown args xnode tx state s = Returned s' ->
  recentRejects s'
  = Some (if negb (HasWitness tx) && negb (CorruptionPossible state)
          then rb_insert rr (GetHash tx) else rr).
Proof.
  intros Hrr. unfold InvalidOrKnown, rejects_insert. rewrite Hrr.
  destruct (negb (HasWitness tx) && negb (CorruptionPossible state)); simpl;
    split_branches; simpl; intros [= <-]; simpl; auto.
Qed.

Lemma DoesTxExist_same_tip h s :
  TipBlockHash (ledger s) = hashRecentRejectsChainTip s ->
  snd (DoesTxExist h s) = s.
Proof.
  intro Htip. unfold DoesTxExist.
  destruct (recentRejects s) as [rr|]; [|reflexivity].
  rewrite Htip, N.eqb_refl. simpl.
  destruct (rb_contains rr h); reflexivity.
Qed.

(** A call for a transaction the existence oracle already knows: the
    mempool and the orphan pool are not written, and the last branch
    decides about the rejects filter from a fresh validation state. *)
Lemma NetReceiveTxData_known fuel args xnode ptx txHash s rr :
  relay_refused args xnode = false ->
  fst (DoesTxExist (GetHash ptx) s) = true ->
  recentRejects (snd (DoesTxExist (GetHash ptx) s)) = Some rr ->
  exists r,
    NetReceiveTxData fuel args xnode ptx txHash s = Returned r
    /\ ledger (post r) = ledger s
    /\ orphanTxMgr (post r) = orphanTxMgr s
    /\ recentRejects (post r)
       = Some (if HasWitness ptx then rr else rb_insert rr (GetHash ptx)).
Proof.
  intros Hgate Hknown Hrr.
  pose proof (TryAccept_known xnode ptx s Hknown) as Htry.
  rewrite (NetReceiveTxData_not_accepted _ _ _ _ _ _ _ _ Hgate Htry eq_refl).
  simpl atmp_missing. cbv iota. simpl atmp_state. simpl atmp_removed.
  pose proof (DoesTxExist_frame (GetHash ptx) s) as (Hl & Ho & _).
  set (s' := snd (DoesTxExist (GetHash ptx) s)) in *.
  destruct (InvalidOrKnown_returns args xnode ptx fresh_state s')
    as [s2 Hs2]; [eauto|].
  rewrite Hs2. simpl.
  destruct (InvalidOrKnown_frame _ _ _ _ _ _ Hs2) as (Hl2 & Ho2).
  pose proof (InvalidOrKnown_rejects _ _ _ _ _ _ _ Hrr Hs2) as Hr2.
  destruct (finish_logged xnode ptx fresh_state [] s2) as (tl & Hlog & _).
  destruct Hlog as (Hr3 & _ & _ & _ & Hl3 & Ho3 & _).
  eexists. split; [reflexivity|].
  split; [rewrite Hl3, Hl2; exact Hl|].
  split; [rewrite Ho3, Ho2; exact Ho|].
  rewrite Hr3, Hr2. simpl. rewrite andb_true_r.
  destruct (HasWitness ptx); reflexivity.
Qed.

(** * Further properties of the component *)

(** ** The existence oracle and the chain tip *)

(** X1: after a query the rejects filter, if there is one, is recorded
    against the current chain tip, and a further query for any txid leaves
    the state as it is. *)
Theorem DoesTxExist_settles_tip h h' s :
  let s1 := snd (DoesTxExist h s) in
  (is_Some (recentRejects s) ->
   hashRecentRejectsChainTip s1 = TipBlockHash (ledger s1))
  /\ snd (DoesTxExist h' s1) = s1.
Proof.
  cbv zeta.
  assert (Hcases :
            snd (DoesTxExist h s) = s
            /\ (is_Some (recentRejects s) ->
                TipBlockHash (ledger s) = hashRecentRejectsChainTip s)
            \/ exists rr,
                 snd (DoesTxExist h s)
                 = set_rejects (Some rr)
                     (set_rejects_tip (TipBlockHash (ledger s)) s)).
  { unfold DoesTxExist.
    destruct (recentRejects s) as [rr|];
      [|left; split; [reflexivity|intros [? ?]; discriminate]].
    destruct (N.eqb_spec (TipBlockHash (ledger s))
                (hashRecentRejectsChainTip s)) as [Heq|Hne]; simpl.
    - left. destruct (rb_contains rr h); auto.
    - right. eauto. }
  destruct Hcases as [[-> Htip]|[rr ->]].
  - split; [intro Hi; symmetry; auto|].
    unfold DoesTxExist.
    destruct (recentRejects s) as [rr|] eqn:Hrr; [|reflexivity].
    rewrite (Htip ltac:(eauto)), N.eqb_refl. simpl.
    destruct (rb_contains rr h'); reflexivity.
  - split; [reflexivity|]. apply DoesTxExist_same_tip. reflexivity.
Qed.

(** X2: a transaction in the mempool or in the orphan pool is reported as
    known whatever the rejects filter holds, also by the query that resets
    the filter after a tip change and before the filter exists. *)
Theorem DoesTxExist_pools h s :
  mp_exists (ledger s) h || om_Exists (orphanTxMgr s) h = true ->
  fst (DoesTxExist h s) = true.
Proof.
  intro Hin. unfold DoesTxExist, known_elsewhere.
  destruct (recentRejects s) as [rr|]; simpl.
  - destruct (negb _); simpl; [rewrite Hin; reflexivity|].
    destruct (rb_contains rr h); simpl; [reflexivity|].
    rewrite Hin. reflexivity.
  - rewrite Hin. reflexivity.
Qed.

(** ** Serving a fetch request never writes the component state *)

(** X3: a fetch leaves the rejects filter, the relay cache, the mempool
    and the orphan pool alone; it answers true exactly when it sent one TX
    message, to the asking peer, and false exactly when it sent nothing. *)
Theorem NetRequestTxData_frame
    (xnode : ExNode) (txHash : uint256) (witness : bool)
    (timeLastMempoolReq : Z) (s : State) :
  let out := NetRequestTxData xnode txHash witness timeLastMempoolReq s in
  exists new,
    logged s (snd out) new
    /\ (fst out = false /\ new = []
        \/ fst out = true
           /\ exists tx,
                new = [SendTx (nodeID xnode) (sendVersion xnode)
                         (if witness then 0
                          else SERIALIZE_TRANSACTION_NO_WITNESS) tx]
                /\ (mapRelay s !! txHash = Some tx
                    \/ exists txinfo,
                         mp_info (ledger s) txHash = Some txinfo
                         /\ info_tx txinfo = tx)).
Proof.
  cbv zeta. unfold NetRequestTxData.
  destruct (mapRelay s !! txHash) as [tx|] eqn:Hrel.
  - eexists. split; [apply logged_emit|]. right. simpl. eauto.
  - destruct (mp_info (ledger s) txHash) as [txinfo|] eqn:Hmp.
    + destruct (nTime txinfo <=? timeLastMempoolReq).
      * eexists. split; [apply logged_emit|]. right. simpl. eauto 7.
      * exists []. split; [apply logged_refl|]. left. auto.
    + exists []. split; [apply logged_refl|]. left. auto.
Qed.

(** ** Expiry composes *)

(** X4: expiring the relay cache at a time and then at a later time is
    the same as expiring it at the later time; in particular expiring
    twice at the same time changes nothing the second time. *)
Theorem ExpireRelay_compose t1 t2 q : forall m,
  t1 <= t2 ->
  ExpireRelay t2 (fst (ExpireRelay t1 m q)) (snd (ExpireRelay t1 m q))
  = ExpireRelay t2 m q.
Proof.
  induction q as [|[t0 h0] rest IH]; intros m Hle; simpl; [reflexivity|].
  destruct (Z.ltb_spec t0 t1) as [Hlt|Hge].
  - destruct (Z.ltb_spec t0 t2); [|lia]. apply IH. exact Hle.
  - reflexivity.
Qed.

(** ** The anatomy of an ingress call *)

Lemma kept_relay_refl s : kept_relay s s.
Proof.
  split; [reflexivity|]. split; [reflexivity|]. split; [auto|].
  exists []. symmetry. apply app_nil_r.
Qed.

Lemma kept_relay_trans s1 s2 s3 :
  kept_relay s1 s2 -> kept_relay s2 s3 -> kept_relay s1 s3.
Proof.
  intros (Hm & Hq & Hr & n1 & Hc) (Hm' & Hq' & Hr' & n2 & Hc').
  split; [congruence|]. split; [congruence|]. split; [auto|].
  exists (n1 ++ n2). rewrite Hc', Hc, app_assoc. reflexivity.
Qed.

Lemma logged_kept_relay s s' new : logged s s' new -> kept_relay s s'.
Proof.
  intros (Hr & _ & Hm & Hq & _ & _ & Hc).
  split; [exact Hm|]. split; [exact Hq|]. split; [rewrite Hr; auto|].
  eauto.
Qed.

Lemma Report_shape xnode tx state s :
  exists rep,
    logged s (snd (Report xnode tx state s)) rep
    /\ (rep = []
        \/ rep = [reject_for xnode tx state]
           /\ invalid state = true
           /\ 0 < GetRejectCode state < REJECT_INTERNAL)
    /\ fst (Report xnode tx state s)
       = if invalid state && (0 <? nDoS state)
         then set_nMisbehavior (nDoS state) xnode else xnode.
Proof.
  unfold Report, IsInvalid.
  destruct (invalid state) eqn:Hinv; simpl.
  - destruct (Z.ltb_spec 0 (GetRejectCode state));
      destruct (Z.ltb_spec (GetRejectCode state) REJECT_INTERNAL); simpl.
    + eexists. split; [apply logged_emit|]. split; [|reflexivity].
      right. unfold reject_for. auto.
    + exists []. split; [apply logged_refl|]. auto.
    + exists []. split; [apply logged_refl|]. auto.
    + exists []. split; [apply logged_refl|]. auto.
  - exists []. split; [apply logged_refl|]. auto.
Qed.

Lemma finish_shape xnode1 ptx state removed s2 :
  exists fw rep,
    logged s2 (post (finish xnode1 ptx state removed s2)) (fw ++ rep)
    /\ forallb is_compact_extra fw = true
    /\ (rep = []
        \/ rep = [reject_for xnode1 ptx state]
           /\ invalid state = true
           /\ 0 < GetRejectCode state < REJECT_INTERNAL)
    /\ xnode_out (finish xnode1 ptx state removed s2)
       = if invalid state && (0 <? nDoS state)
         then set_nMisbehavior (nDoS state) xnode1 else xnode1.
Proof.
  destruct (Report_shape xnode1 ptx state (ForwardRemoved removed s2))
    as (rep & Hlog & Hrep & Hx).
  exists (map AddToCompactExtraTransactions removed), rep.
  split; [eapply logged_trans; [apply ForwardRemoved_logged|exact Hlog]|].
  split; [apply forallb_forwarded; reflexivity|]. split; [exact Hrep|].
  exact Hx.
Qed.

(** A call that passes the gate and returns is one of the three branches
    followed by [finish]. *)
Lemma NetReceiveTxData_finish fuel args xnode ptx txHash s r :
  NetReceiveTxData fuel args xnode ptx txHash s = Returned r ->
  relay_refused args xnode = false ->
  exists res s1 x1 removed s2,
    TryAccept xnode ptx s = (res, s1)
    /\ r = finish x1 ptx (atmp_state res) removed s2
    /\ (atmp_ok res = true
        /\ Accepted fuel xnode ptx res s1 = Returned (x1, removed, s2)
        \/ atmp_ok res = false /\ x1 = xnode
           /\ (if atmp_missing res then MissingInputs args xnode ptx s1
               else InvalidOrKnown args xnode ptx (atmp_state res) s1)
              = Returned s2).
Proof.
  intros Hrun Hgate.
  destruct (TryAccept xnode ptx s) as [res s1] eqn:Htry.
  exists res, s1.
  destruct (atmp_ok res) eqn:Hok.
  - rewrite (NetReceiveTxData_accepted _ _ _ _ _ _ _ _ Hgate Htry Hok) in Hrun.
    destruct (Accepted fuel xnode ptx res s1) as [[[x1 rm] s2]| |];
      simpl in Hrun; try discriminate.
    injection Hrun as <-. exists x1, rm, s2.
    split; [reflexivity|]. split; [reflexivity|]. left. auto.
  - rewrite (NetReceiveTxData_not_accepted _ _ _ _ _ _ _ _ Hgate Htry Hok)
      in Hrun.
    destruct (if atmp_missing res then _ else _) as [s2| |];
      simpl in Hrun; try discriminate.
    injection Hrun as <-. exists xnode, (atmp_removed res), s2.
    split; [reflexivity|]. split; [reflexivity|]. right. auto.
Qed.

Lemma Accepted_context fuel xnode tx res s x1 removed s2 :
  Accepted fuel xnode tx res s = Returned (x1, removed, s2) ->
  x1 = set_retFlags (SetFlagsBit (retFlags xnode) NF_NEWTRANSACTION) xnode.
Proof.
  unfold Accepted. destruct (ProcessWorkQueue _ _); simpl; try discriminate.
  intros [= <- _ _]. reflexivity.
Qed.

(** ** The peer context *)

(** X5: the peer context a call hands back is decided by the gate and by
    the verdict on the transaction the peer sent, never by the
    re-validation of orphans: a refused call returns it untouched, and
    otherwise [retFlags] gains [NF_NEWTRANSACTION] exactly on acceptance
    and [nMisbehavior] is overwritten exactly when that verdict is invalid
    with a positive DoS score.  The [txHash] reference is written exactly
    when the gate is passed. *)
Theorem ingress_peer_context fuel args xnode ptx txHash s r :
  NetReceiveTxData fuel args xnode ptx txHash s = Returned r ->
  xnode_out r
  = (if relay_refused args xnode then xnode
     else context_after xnode (fst (TryAccept xnode ptx s)))
  /\ txHash_out r
     = (if relay_refused args xnode then txHash else GetHash ptx).
Proof.
  intro Hrun. destruct (relay_refused args xnode) eqn:Hgate.
  { rewrite (NetReceiveTxData_refused _ _ _ _ _ _ Hgate) in Hrun.
    injection Hrun as <-. auto. }
  destruct (NetReceiveTxData_finish _ _ _ _ _ _ _ Hrun Hgate)
    as (res & s1 & x1 & removed & s2 & Htry & -> & Hbr).
  rewrite Htry. simpl fst. split; [|reflexivity].
  destruct (finish_shape x1 ptx (atmp_state res) removed s2)
    as (fw & rep & _ & _ & _ & ->).
  unfold context_after.
  destruct Hbr as [(Hok & Hacc)|(Hok & -> & _)]; rewrite Hok.
  - rewrite (Accepted_context _ _ _ _ _ _ _ _ Hacc). reflexivity.
  - reflexivity.
Qed.

Lemma ProcessWorkQueue_log fuel r r' :
  ProcessWorkQueue fuel r = Returned r' ->
  exists added, calls (rstate r') = calls (rstate r) ++ added.
Proof.
  intro Hloop.
  destruct (ProcessWorkQueue_invariant (fun _ _ => True)
              (fun _ _ _ _ _ _ _ => I) (fun _ _ _ _ => I) _ _ _ [] Hloop I)
    as (added & Hc & _). eauto.
Qed.

(** The calls of a call that passes the gate: the validation of the
    received transaction if it ran, the calls of the branch taken, the
    hand-overs to the extra pool, and at most one REJECT. *)
Lemma NetReceiveTxData_trace fuel args xnode ptx txHash s r :
  NetReceiveTxData fuel args xnode ptx txHash s = Returned r ->
  relay_refused args xnode = false ->
  exists res s1 pre mid fw rep,
    TryAccept xnode ptx s = (res, s1)
    /\ (pre = [] /\ res = not_validated
        \/ pre = [Validated (FromWire (nodeID xnode)) ptx res])
    /\ calls (post r) = calls s ++ pre ++ mid ++ fw ++ rep
    /\ forallb is_compact_extra fw = true
    /\ (rep = []
        \/ rep = [reject_for xnode ptx (atmp_state res)]
           /\ invalid (atmp_state res) = true
           /\ 0 < GetRejectCode (atmp_state res) < REJECT_INTERNAL)
    /\ (atmp_ok res = true
        /\ (exists rfin added,
              ProcessWorkQueue fuel
                (StartResolution ptx res
                   (emit (BroadcastTransaction (GetHash ptx))
                      (emit MempoolCheck s1)))
              = Returned rfin
              /\ calls (rstate rfin)
                 = calls (emit (BroadcastTransaction (GetHash ptx))
                            (emit MempoolCheck s1)) ++ added
              /\ mid = [MempoolCheck; BroadcastTransaction (GetHash ptx)]
                       ++ added)
        \/ atmp_ok res = false /\ atmp_missing res = true
           /\ (exists s2, MissingInputs args xnode ptx s1 = Returned s2
                          /\ calls s2 = calls s1 ++ mid)
        \/ atmp_ok res = false /\ atmp_missing res = false
           /\ (exists s2, InvalidOrKnown args xnode ptx (atmp_state res) s1
                          = Returned s2
                          /\ calls s2 = calls s1 ++ mid)).
Proof.
  intros Hrun Hgate.
  destruct (NetReceiveTxData_finish _ _ _ _ _ _ _ Hrun Hgate)
    as (res & s1 & x1 & removed & s2 & Htry & -> & Hbr).
  destruct (TryAccept_logged _ _ _ _ _ Htry) as (_ & _ & pre & Hpre & Hshape).
  destruct (finish_shape x1 ptx (atmp_state res) removed s2)
    as (fw & rep & Hlog & Hfw & Hrep & _).
  destruct Hlog as (_ & _ & _ & _ & _ & _ & Hcalls).
  assert (Hx1 : reject_for x1 ptx (atmp_state res)
                = reject_for xnode ptx (atmp_state res)).
  { destruct Hbr as [(_ & Hacc)|(_ & -> & _)]; [|reflexivity].
    rewrite (Accepted_context _ _ _ _ _ _ _ _ Hacc). reflexivity. }
  rewrite Hx1 in Hrep.
  assert (Hmid : exists mid,
            calls s2 = calls s1 ++ mid
            /\ (atmp_ok res = true
                /\ (exists rfin added,
                      ProcessWorkQueue fuel
                        (StartResolution ptx res
                           (emit (BroadcastTransaction (GetHash ptx))
                              (emit MempoolCheck s1)))
                      = Returned rfin
                      /\ calls (rstate rfin)
                         = calls (emit (BroadcastTransaction (GetHash ptx))
                                    (emit MempoolCheck s1)) ++ added
                      /\ mid = [MempoolCheck;
                                BroadcastTransaction (GetHash ptx)] ++ added)
                \/ atmp_ok res = false /\ atmp_missing res = true
                   /\ (exists s2', MissingInputs args xnode ptx s1
                                   = Returned s2'
                                   /\ calls s2' = calls s1 ++ mid)
                \/ atmp_ok res = false /\ atmp_missing res = false
                   /\ (exists s2', InvalidOrKnown args xnode ptx
                                     (atmp_state res) s1 = Returned s2'
                                   /\ calls s2' = calls s1 ++ mid))).
  { destruct Hbr as [(Hok & Hacc)|(Hok & _ & Hrun2)].
    - destruct (Accepted_loop _ _ _ _ _ _ Hacc) as (rfin & Hloop & Hs2).
      simpl in Hs2. subst s2.
      destruct (ProcessWorkQueue_log _ _ _ Hloop) as (added & Hadd).
      destruct (EraseOrphans_frame (vEraseQueue rfin) (rstate rfin))
        as (_ & _ & He).
      exists ([MempoolCheck; BroadcastTransaction (GetHash ptx)] ++ added).
      split.
      { rewrite He, Hadd. simpl. rewrite <- !app_assoc. reflexivity. }
      left. split; [exact Hok|]. exists rfin, added. auto.
    - destruct (atmp_missing res) eqn:Hmiss.
      + destruct (MissingInputs_events _ _ _ _ _ Hrun2) as (mid & Hc & _).
        exists mid. split; [exact Hc|]. right. left. eauto.
      + destruct (InvalidOrKnown_events _ _ _ _ _ _ Hrun2) as (mid & Hc & _).
        exists mid. split; [exact Hc|]. right. right. eauto. }
  destruct Hmid as (mid & Hmc & Hbranch).
  exists res, s1, pre, mid, fw, rep.
  split; [exact Htry|]. split; [exact Hshape|]. split.
  { rewrite Hcalls, Hmc, Hpre, <- !app_assoc. reflexivity. }
  auto.
Qed.

Lemma justified_step o r r' new added :
  justified new -> resolved o r r' added -> justified (new ++ added).
Proof.
  intros (Hw & Hb & Hm) Hres.
  assert (Hadd : justified added).
  { destruct Hres as
      [Hin ->
      | res Hnin Hres Hok _ _ _ _
      | res Hnin Hres Hok Hmiss _ _ _ _
      | res scoring inserting Hnin Hres Hok Hmiss _ _ Hsc Hins].
    - split; [reflexivity|]. split; [intros h []|intros p d []].
    - split; [reflexivity|]. split.
      + intros h [?|[[= <-]|[?|[]]]]; try discriminate.
        exists (fromPeer o), (otx o), res. simpl. auto.
      + intros p d [?|[?|[?|[]]]]; discriminate.
    - split; [reflexivity|]. split.
      + intros h [?|[?|[]]]; discriminate.
      + intros p d [?|[?|[]]]; discriminate.
    - split.
      { simpl. rewrite !forallb_app.
        destruct Hsc as [[-> _]|[-> _]];
          destruct Hins as [[-> _]|[-> _]]; reflexivity. }
      split.
      + intros h Hin. exfalso. simpl in Hin.
        destruct Hin as [?|Hin]; [discriminate|].
        apply in_app_or in Hin as [Hin|Hin].
        { destruct Hsc as [[-> _]|[-> _]]; simpl in Hin;
            [destruct Hin|destruct Hin as [?|[]]; discriminate]. }
        apply in_app_or in Hin as [Hin|Hin].
        { destruct Hins as [[-> _]|[-> _]]; simpl in Hin;
            [destruct Hin|destruct Hin as [?|[]]; discriminate]. }
        simpl in Hin. destruct Hin as [?|[]]; discriminate.
      + intros p d Hin. simpl in Hin.
        destruct Hin as [?|Hin]; [discriminate|].
        apply in_app_or in Hin as [Hin|Hin].
        { destruct Hsc as [[-> _]|(-> & _ & Hinv & Hpos)]; simpl in Hin;
            [destruct Hin|].
          destruct Hin as [[= <- <-]|[]]. split; [exact Hpos|].
          exists (otx o), res. simpl. auto 7. }
        exfalso. apply in_app_or in Hin as [Hin|Hin].
        { destruct Hins as [[-> _]|[-> _]]; simpl in Hin;
            [destruct Hin|destruct Hin as [?|[]]; discriminate]. }
        simpl in Hin. destruct Hin as [?|[]]; discriminate. }
  destruct Hadd as (Hw' & Hb' & Hm').
  split; [rewrite forallb_app, Hw, Hw'; reflexivity|]. split.
  - intros h Hin. apply in_app_or in Hin as [Hin|Hin].
    + destruct (Hb h Hin) as (p & tx & res & Hv & H).
      exists p, tx, res. split; [apply in_or_app; auto|exact H].
    + destruct (Hb' h Hin) as (p & tx & res & Hv & H).
      exists p, tx, res. split; [apply in_or_app; auto|exact H].
  - intros p d Hin. apply in_app_or in Hin as [Hin|Hin].
    + destruct (Hm p d Hin) as (Hpos & tx & res & Hv & H).
      split; [exact Hpos|]. exists tx, res.
      split; [apply in_or_app; auto|exact H].
    + destruct (Hm' p d Hin) as (Hpos & tx & res & Hv & H).
      split; [exact Hpos|]. exists tx, res.
      split; [apply in_or_app; auto|exact H].
Qed.

Lemma ProcessWorkQueue_justified fuel r rfin added :
  ProcessWorkQueue fuel r = Returned rfin ->
  calls (rstate rfin) = calls (rstate r) ++ added ->
  justified added.
Proof.
  intros Hloop Hadd.
  destruct (ProcessWorkQueue_invariant (fun _ new => justified new)
              (fun o r r' new added H => justified_step o r r' new added H)
              (fun _ _ _ H => H) _ _ _ [] Hloop) as (added' & Hc & _ & Hj).
  { split; [reflexivity|]. split; [intros h []|intros p d []]. }
  rewrite Hc in Hadd. apply app_inv_head in Hadd. subst added'.
  exact Hj.
Qed.

Lemma substring_length n : forall str,
  (String.length (substring 0 n str) <= n)%nat.
Proof.
  induction n as [|n IH]; intros [|c str]; simpl; try lia.
  specialize (IH str). lia.
Qed.

Lemma filter_none {A} (P : A -> bool) (l : list A) :
  (forall e, In e l -> P e = false) -> List.filter P l = [].
Proof.
  induction l as [|a l IH]; intro H; simpl; [reflexivity|].
  rewrite (H a (or_introl eq_refl)). apply IH. intros e He. apply H.
  right. exact He.
Qed.

Lemma InvalidOrKnown_broadcast args xnode tx state s s' mid h :
  InvalidOrKnown args xnode tx state s = Returned s' ->
  calls s' = calls s ++ mid ->
  In (BroadcastTransaction h) mid ->
  h = GetHash tx
  /\ IsFlagsBitOn (flags xnode) NF_WHITELIST && whitelistforcerelay args = true
  /\ (invalid state = false \/ nDoS state = 0).
Proof.
  intros Hrun Hmid.
  assert (H : exists mid0,
            calls s' = calls s ++ mid0
            /\ (In (BroadcastTransaction h) mid0 ->
                h = GetHash tx
                /\ IsFlagsBitOn (flags xnode) NF_WHITELIST
                   && whitelistforcerelay args = true
                /\ (invalid state = false \/ nDoS state = 0))).
  { revert Hrun. unfold InvalidOrKnown, rejects_insert, IsInvalid.
    destruct (HasWitness tx); destruct (CorruptionPossible state); simpl;
      try (destruct (recentRejects s) as [rr|]; simpl; [|discriminate]);
      destruct (IsFlagsBitOn (flags xnode) NF_WHITELIST
                && whitelistforcerelay args) eqn:Hwl;
      destruct (invalid state) eqn:Hinv; simpl;
      try destruct (Z.eqb_spec (nDoS state) 0);
      split_branches; simpl; intros [= <-]; simpl;
      (eexists; split;
       [first [rewrite <- ?app_assoc; simpl; reflexivity
              | symmetry; apply app_nil_r]|]);
      simpl; intro He;
      repeat (destruct He as [He|He]; [try discriminate|]);
      try (destruct He; fail);
      try (injection He as <-); auto. }
  destruct H as (mid0 & Hc & Hp). rewrite Hc in Hmid.
  apply app_inv_head in Hmid. subst mid0. exact Hp.
Qed.

(** X6: a returning call sends at most one REJECT message.  It goes to
    the sender, names the received transaction, carries the validator's
    reject code as one byte and at most MAX_REJECT_MESSAGE_LENGTH
    characters of its reason, and is sent only for an invalid state
    whose code lies strictly between 0 and REJECT_INTERNAL. *)
Theorem reject_message fuel args xnode ptx txHash s r :
  NetReceiveTxData fuel args xnode ptx txHash s = Returned r ->
  exists new,
    calls (post r) = calls s ++ new
    /\ (List.filter is_reject new = []
        \/ exists state reason,
             state = atmp_state (fst (TryAccept xnode ptx s))
             /\ List.filter is_reject new
                = [SendReject (nodeID xnode) (sendVersion xnode)
                     (GetRejectCode state mod 256) reason (GetHash ptx)]
             /\ invalid state = true
             /\ 0 < GetRejectCode state < REJECT_INTERNAL
             /\ reason = substring 0 MAX_REJECT_MESSAGE_LENGTH
                           (GetRejectReason state)
             /\ (String.length reason <= MAX_REJECT_MESSAGE_LENGTH)%nat).
Proof.
  intro Hrun.
  destruct (relay_refused args xnode) eqn:Hgate.
  { rewrite (NetReceiveTxData_refused _ _ _ _ _ _ Hgate) in Hrun.
    injection Hrun as <-. exists []. simpl. rewrite app_nil_r. auto. }
  destruct (NetReceiveTxData_trace _ _ _ _ _ _ _ Hrun Hgate)
    as (res & s1 & pre & mid & fw & rep & Htry & Hpre & Hcalls & Hfw & Hrep
        & Hbr).
  rewrite Htry. simpl.
  exists (pre ++ mid ++ fw ++ rep). split; [exact Hcalls|].
  assert (Hpre0 : List.filter is_reject pre = []).
  { destruct Hpre as [[-> _]| ->]; reflexivity. }
  assert (Hfw0 : List.filter is_reject fw = []).
  { apply filter_none. intros e He.
    pose proof (proj1 (forallb_forall _ _) Hfw e He) as Hc.
    destruct e; simpl in *; congruence. }
  assert (Hmid0 : List.filter is_reject mid = []).
  { apply filter_none. intros e He.
    destruct Hbr as [(_ & rfin & added & Hloop & Hadd & ->)
                    |[(_ & _ & s2 & Hmi & Hc)|(_ & _ & s2 & Hik & Hc)]].
    - destruct He as [<-|[<-|He]]; try reflexivity.
      destruct (ProcessWorkQueue_justified _ _ _ _ Hloop Hadd) as (Hw & _).
      pose proof (proj1 (forallb_forall _ _) Hw e He) as Hc.
      destruct e; simpl in *; congruence.
    - destruct (MissingInputs_events _ _ _ _ _ Hmi)
        as (mid' & Hc' & _ & _ & Hsh).
      rewrite Hc' in Hc. apply app_inv_head in Hc. subst mid'.
      destruct Hsh as [(_ & -> & _)|(_ & Hreq)].
      + destruct He as [<-|[]]. reflexivity.
      + pose proof (proj1 (forallb_forall _ _) Hreq e He) as Hc.
        destruct e; simpl in *; congruence.
    - destruct (InvalidOrKnown_events _ _ _ _ _ _ Hik)
        as (mid' & Hc' & _ & Hsh).
      rewrite Hc' in Hc. apply app_inv_head in Hc. subst mid'.
      destruct (Hsh e He) as [(-> & _)|[->| ->]]; reflexivity. }
  rewrite !List.filter_app, Hpre0, Hmid0, Hfw0. simpl.
  destruct Hrep as [->|(-> & Hinv & Hcode)]; [left; reflexivity|].
  right. exists (atmp_state res), (substring 0 MAX_REJECT_MESSAGE_LENGTH
                                     (GetRejectReason (atmp_state res))).
  split; [reflexivity|]. split; [reflexivity|]. split; [exact Hinv|].
  split; [exact Hcode|]. split; [reflexivity|]. apply substring_length.
Qed.

(** X7: what a returning call relays.  Every BroadcastTransaction is
    for the received transaction, which then was accepted or came from a
    whitelisted peer under -whitelistforcerelay without a positive DoS
    score, or for an orphan that the same call re-validated with
    success. *)
Theorem broadcast_only_accepted fuel args xnode ptx txHash s r :
  NetReceiveTxData fuel args xnode ptx txHash s = Returned r ->
  exists new,
    calls (post r) = calls s ++ new
    /\ forall h, In (BroadcastTransaction h) new ->
         h = GetHash ptx
         /\ (atmp_ok (fst (TryAccept xnode ptx s)) = true
             \/ atmp_ok (fst (TryAccept xnode ptx s)) = false
                /\ atmp_missing (fst (TryAccept xnode ptx s)) = false
                /\ IsFlagsBitOn (flags xnode) NF_WHITELIST
                   && whitelistforcerelay args = true
                /\ (invalid (atmp_state (fst (TryAccept xnode ptx s))) = false
                    \/ nDoS (atmp_state (fst (TryAccept xnode ptx s))) = 0))
         \/ exists p tx res,
              In (Validated (FromOrphanPool p) tx res) new
              /\ GetHash tx = h /\ atmp_ok res = true.
Proof.
  intro Hrun.
  destruct (relay_refused args xnode) eqn:Hgate.
  { rewrite (NetReceiveTxData_refused _ _ _ _ _ _ Hgate) in Hrun.
    injection Hrun as <-. exists []. simpl. rewrite app_nil_r.
    split; [reflexivity|]. intros h []. }
  destruct (NetReceiveTxData_trace _ _ _ _ _ _ _ Hrun Hgate)
    as (res & s1 & pre & mid & fw & rep & Htry & Hpre & Hcalls & Hfw & Hrep
        & Hbr).
  rewrite Htry. simpl.
  exists (pre ++ mid ++ fw ++ rep). split; [exact Hcalls|].
  intros h Hin.
  apply in_app_or in Hin as [Hin|Hin].
  { exfalso. destruct Hpre as [[-> _]| ->]; simpl in Hin;
      [destruct Hin|destruct Hin as [?|[]]; discriminate]. }
  apply in_app_or in Hin as [Hin|Hin].
  2:{ exfalso. apply in_app_or in Hin as [Hin|Hin].
      - pose proof (proj1 (forallb_forall _ _) Hfw _ Hin). discriminate.
      - destruct Hrep as [->|(-> & _)]; simpl in Hin;
          [destruct Hin|destruct Hin as [?|[]]; discriminate]. }
  destruct Hbr as [(Hok & rfin & added & Hloop & Hadd & ->)
                  |[(_ & _ & s2 & Hmi & Hc)|(Hok & Hmiss & s2 & Hik & Hc)]].
  - destruct Hin as [?|[[= <-]|Hin]]; [discriminate|left; auto|].
    destruct (ProcessWorkQueue_justified _ _ _ _ Hloop Hadd) as (_ & Hb & _).
    destruct (Hb h Hin) as (p & tx & res' & Hv & Hh & Hok').
    right. exists p, tx, res'. split; [|auto].
    apply in_or_app. right. apply in_or_app. left.
    right. right. exact Hv.
  - exfalso.
    destruct (MissingInputs_events _ _ _ _ _ Hmi)
      as (mid' & Hc' & _ & _ & Hsh).
    rewrite Hc' in Hc. apply app_inv_head in Hc. subst mid'.
    destruct Hsh as [(_ & -> & _)|(_ & Hreq)].
    + destruct Hin as [?|[]]. discriminate.
    + pose proof (proj1 (forallb_forall _ _) Hreq _ Hin). discriminate.
  - destruct (InvalidOrKnown_broadcast _ _ _ _ _ _ _ _ Hik Hc Hin)
      as (-> & Hwl & Hd).
    left. split; [reflexivity|]. right. auto.
Qed.

(** X8: a returning call raises a peer's misbehaviour score only for an
    orphan of that peer which the same call re-validated and the
    validator found invalid, and by the positive DoS score the validator
    reported for it. *)
Theorem misbehaviour_only_invalid_orphan fuel args xnode ptx txHash s r :
  NetReceiveTxData fuel args xnode ptx txHash s = Returned r ->
  exists new,
    calls (post r) = calls s ++ new
    /\ forall p d, In (MisbehaveNode p d) new ->
         0 < d
         /\ exists tx res,
              In (Validated (FromOrphanPool p) tx res) new
              /\ atmp_ok res = false /\ atmp_missing res = false
              /\ invalid (atmp_state res) = true
              /\ nDoS (atmp_state res) = d.
Proof.
  intro Hrun.
  destruct (relay_refused args xnode) eqn:Hgate.
  { rewrite (NetReceiveTxData_refused _ _ _ _ _ _ Hgate) in Hrun.
    injection Hrun as <-. exists []. simpl. rewrite app_nil_r.
    split; [reflexivity|]. intros p d []. }
  destruct (NetReceiveTxData_trace _ _ _ _ _ _ _ Hrun Hgate)
    as (res & s1 & pre & mid & fw & rep & Htry & Hpre & Hcalls & Hfw & Hrep
        & Hbr).
  exists (pre ++ mid ++ fw ++ rep). split; [exact Hcalls|].
  intros p d Hin.
  apply in_app_or in Hin as [Hin|Hin].
  { exfalso. destruct Hpre as [[-> _]| ->]; simpl in Hin;
      [destruct Hin|destruct Hin as [?|[]]; discriminate]. }
  apply in_app_or in Hin as [Hin|Hin].
  2:{ exfalso. apply in_app_or in Hin as [Hin|Hin].
      - pose proof (proj1 (forallb_forall _ _) Hfw _ Hin). discriminate.
      - destruct Hrep as [->|(-> & _)]; simpl in Hin;
          [destruct Hin|destruct Hin as [?|[]]; discriminate]. }
  destruct Hbr as [(Hok & rfin & added & Hloop & Hadd & ->)
                  |[(_ & _ & s2 & Hmi & Hc)|(Hok & Hmiss & s2 & Hik & Hc)]].
  - destruct Hin as [?|[?|Hin]]; try discriminate.
    destruct (ProcessWorkQueue_justified _ _ _ _ Hloop Hadd) as (_ & _ & Hm).
    destruct (Hm p d Hin) as (Hpos & tx & res' & Hv & H).
    split; [exact Hpos|]. exists tx, res'. split; [|exact H].
    apply in_or_app. right. apply in_or_app. left.
    right. right. exact Hv.
  - exfalso.
    destruct (MissingInputs_events _ _ _ _ _ Hmi)
      as (mid' & Hc' & _ & _ & Hsh).
    rewrite Hc' in Hc. apply app_inv_head in Hc. subst mid'.
    destruct Hsh as [(_ & -> & _)|(_ & Hreq)].
    + destruct Hin as [?|[]]. discriminate.
    + pose proof (proj1 (forallb_forall _ _) Hreq _ Hin). discriminate.
  - exfalso.
    destruct (InvalidOrKnown_events _ _ _ _ _ _ Hik)
      as (mid' & Hc' & _ & Hsh).
    rewrite Hc' in Hc. apply app_inv_head in Hc. subst mid'.
    destruct (Hsh _ Hin) as [(? & _)|[?|?]]; discriminate.
Qed.

Lemma kept_relay_emit e s : kept_relay s (emit e s).
Proof. eapply logged_kept_relay, logged_emit. Qed.

Lemma kept_relay_DoesTxExist h s : kept_relay s (snd (DoesTxExist h s)).
Proof.
  destruct (DoesTxExist_frame h s) as (_ & _ & Hm & Hq & Hc).
  split; [exact Hm|]. split; [exact Hq|].
  split; [apply DoesTxExist_initialized|].
  exists []. rewrite Hc. symmetry. apply app_nil_r.
Qed.

Lemma kept_relay_rejects_insert h s s' :
  rejects_insert h s = Returned s' -> kept_relay s s'.
Proof.
  unfold rejects_insert. destruct (recentRejects s) as [rr|] eqn:Hrr;
    [|discriminate].
  intros [= <-]. split; [reflexivity|]. split; [reflexivity|].
  split; [simpl; eauto|]. simpl. eauto.
Qed.

Lemma kept_relay_set_ledger l s : kept_relay s (set_ledger l s).
Proof.
  split; [reflexivity|]. split; [reflexivity|]. split; [auto|].
  exists []. simpl. symmetry. apply app_nil_r.
Qed.

Lemma kept_relay_set_orphans o s : kept_relay s (set_orphans o s).
Proof.
  split; [reflexivity|]. split; [reflexivity|]. split; [auto|].
  exists []. simpl. symmetry. apply app_nil_r.
Qed.

Lemma ResolveOrphan_kept_relay o r r' :
  ResolveOrphan o r = Returned r' -> kept_relay (rstate r) (rstate r').
Proof.
  unfold ResolveOrphan.
  destruct (decide (fromPeer o ∈ setMisbehaving r)).
  { intros [= <-]. apply kept_relay_refl. }
  destruct (AcceptToMemoryPool (ledger (rstate r)) (otx o)) as [res l'].
  set (s1 := emit _ (set_ledger l' (rstate r))).
  assert (H1 : kept_relay (rstate r) s1).
  { eapply kept_relay_trans; [apply kept_relay_set_ledger|].
    apply kept_relay_emit. }
  destruct (atmp_ok res); simpl.
  { intros [= <-]. simpl.
    eapply kept_relay_trans; [exact H1|].
    eapply kept_relay_trans; apply kept_relay_emit. }
  destruct (atmp_missing res); simpl.
  { intros [= <-]. simpl.
    eapply kept_relay_trans; [exact H1|]. apply kept_relay_emit. }
  destruct (IsInvalid (atmp_state res) 0) as [inv nDos].
  set (s2 := if inv && (0 <? nDos) then _ else s1).
  assert (H2 : kept_relay (rstate r) s2).
  { subst s2. destruct (inv && (0 <? nDos)); [|exact H1].
    eapply kept_relay_trans; [exact H1|]. apply kept_relay_emit. }
  destruct (negb (HasWitness (otx o))
            && negb (CorruptionPossible (atmp_state res))).
  - destruct (rejects_insert (GetHash (otx o)) s2) as [s3| |] eqn:Hins;
      simpl; try discriminate.
    intros [= <-]. simpl.
    eapply kept_relay_trans; [exact H2|].
    eapply kept_relay_trans; [exact (kept_relay_rejects_insert _ _ _ Hins)|].
    apply kept_relay_emit.
  - simpl. intros [= <-]. simpl.
    eapply kept_relay_trans; [exact H2|]. apply kept_relay_emit.
Qed.

Lemma ResolveOrphans_kept_relay os : forall r r',
  ResolveOrphans os r = Returned r' -> kept_relay (rstate r) (rstate r').
Proof.
  induction os as [|o os IH]; simpl; intros r r'.
  { intros [= <-]. apply kept_relay_refl. }
  destruct (ResolveOrphan o r) as [r1| |] eqn:H1; simpl; try discriminate.
  intro H. eapply kept_relay_trans;
    [exact (ResolveOrphan_kept_relay _ _ _ H1)|exact (IH _ _ H)].
Qed.

Lemma ProcessWorkQueue_kept_relay fuel : forall r r',
  ProcessWorkQueue fuel r = Returned r' -> kept_relay (rstate r) (rstate r').
Proof.
  induction fuel as [|fuel IH]; intros r r'; simpl;
    destruct (vWorkQueue r) as [|front rest];
    try (intros [= <-]; apply kept_relay_refl); try discriminate.
  destruct (ResolveOrphans _ (with_queue rest r)) as [r1| |] eqn:H1; simpl;
    try discriminate.
  intro H. eapply kept_relay_trans;
    [exact (ResolveOrphans_kept_relay _ _ _ H1)|exact (IH _ _ H)].
Qed.

Lemma EraseOrphans_kept_relay hashes : forall s,
  kept_relay s (EraseOrphans hashes s).
Proof.
  induction hashes as [|h hashes IH]; simpl; intro s.
  { apply kept_relay_refl. }
  eapply kept_relay_trans; [apply kept_relay_set_orphans|apply IH].
Qed.

Lemma RequestParents_kept_relay xnode nFetchFlags ins : forall s,
  kept_relay s (RequestParents xnode nFetchFlags ins s).
Proof.
  induction ins as [|txin ins IH]; simpl; intro s.
  { apply kept_relay_refl. }
  match goal with
  | |- context [DoesTxExist ?h ?s0] =>
      pose proof (kept_relay_DoesTxExist h s0) as Hd;
      destruct (DoesTxExist h s0) as [known s2]
  end.
  simpl in Hd.
  eapply kept_relay_trans; [apply kept_relay_emit|].
  eapply kept_relay_trans; [exact Hd|].
  destruct known; [apply IH|].
  eapply kept_relay_trans; [apply kept_relay_emit|apply IH].
Qed.

Lemma MissingInputs_kept_relay args xnode tx s s' :
  MissingInputs args xnode tx s = Returned s' -> kept_relay s s'.
Proof.
  unfold MissingInputs.
  destruct (RejectedParents tx s) as [[|]| |]; simpl; try discriminate.
  - apply kept_relay_rejects_insert.
  - intros [= <-].
    eapply kept_relay_trans; [apply RequestParents_kept_relay|].
    eapply kept_relay_trans; apply kept_relay_set_orphans.
Qed.

Lemma InvalidOrKnown_kept_relay args xnode tx state s s' :
  InvalidOrKnown args xnode tx state s = Returned s' -> kept_relay s s'.
Proof.
  unfold InvalidOrKnown.
  match goal with
  | |- (x <-- ?m ;; _) = _ -> _ =>
      assert (Hm : forall s1, m = Returned s1 -> kept_relay s s1);
      [|destruct m as [s1| |]; simpl; try discriminate]
  end.
  { intro s1.
    destruct (negb (HasWitness tx) && negb (CorruptionPossible state)).
    - destruct (rejects_insert (GetHash tx) s) as [s0| |] eqn:Hins; simpl;
        try discriminate.
      pose proof (kept_relay_rejects_insert _ _ _ Hins) as H0.
      destruct (RecursiveDynamicUsage tx <? 100000); intros [= <-];
        [|exact H0].
      eapply kept_relay_trans; [exact H0|apply kept_relay_emit].
    - destruct (HasWitness tx && (RecursiveDynamicUsage tx <? 100000));
        intros [= <-]; [apply kept_relay_emit|apply kept_relay_refl]. }
  specialize (Hm s1 eq_refl).
  intros [= <-].
  destruct (IsFlagsBitOn (flags xnode) NF_WHITELIST && whitelistforcerelay args);
    [|exact Hm].
  destruct (IsInvalid state 0) as [inv nDoS'].
  destruct (negb inv || (nDoS' =? 0)); [|exact Hm].
  eapply kept_relay_trans; [exact Hm|apply kept_relay_emit].
Qed.

Lemma TryAccept_kept_relay xnode ptx s :
  kept_relay s (snd (TryAccept xnode ptx s)).
Proof.
  unfold TryAccept.
  pose proof (kept_relay_DoesTxExist (GetHash ptx) s) as Hd.
  destruct (DoesTxExist (GetHash ptx) s) as [known s0]. simpl in Hd.
  destruct known; [exact Hd|].
  destruct (AcceptToMemoryPool (ledger s0) ptx) as [res l']. simpl.
  eapply kept_relay_trans; [exact Hd|].
  eapply kept_relay_trans; [apply kept_relay_set_ledger|].
  apply kept_relay_emit.
Qed.

Lemma NetReceiveTxData_kept_relay fuel args xnode ptx txHash s r :
  NetReceiveTxData fuel args xnode ptx txHash s = Returned r ->
  kept_relay s (post r).
Proof.
  intro Hrun.
  destruct (relay_refused args xnode) eqn:Hgate.
  { rewrite (NetReceiveTxData_refused _ _ _ _ _ _ Hgate) in Hrun.
    injection Hrun as <-. apply kept_relay_refl. }
  destruct (NetReceiveTxData_finish _ _ _ _ _ _ _ Hrun Hgate)
    as (res & s1 & x1 & removed & s2 & Htry & -> & Hbr).
  pose proof (TryAccept_kept_relay xnode ptx s) as H1.
  rewrite Htry in H1. simpl in H1.
  destruct (finish_shape x1 ptx (atmp_state res) removed s2)
    as (fw & rep & Hlog & _).
  eapply kept_relay_trans; [exact H1|].
  eapply kept_relay_trans; [|exact (logged_kept_relay _ _ _ Hlog)].
  destruct Hbr as [(_ & Hacc)|(_ & _ & Hrun2)].
  - destruct (Accepted_loop _ _ _ _ _ _ Hacc) as (rfin & Hloop & Hs2).
    simpl in Hs2. subst s2.
    eapply kept_relay_trans; [apply kept_relay_emit|].
    eapply kept_relay_trans; [apply kept_relay_emit|].
    eapply kept_relay_trans;
      [exact (ProcessWorkQueue_kept_relay _ _ _ Hloop)|].
    apply EraseOrphans_kept_relay.
  - destruct (atmp_missing res).
    + exact (MissingInputs_kept_relay _ _ _ _ _ Hrun2).
    + exact (InvalidOrKnown_kept_relay _ _ _ _ _ _ Hrun2).
Qed.

(** X9: a returning call leaves the relay cache and its expiration queue
    as they were, keeps every call already made in place, and never
    drops the rejects filter once it was created. *)
Theorem ingress_keeps_relay fuel args xnode ptx txHash s r :
  NetReceiveTxData fuel args xnode ptx txHash s = Returned r ->
  mapRelay (post r) = mapRelay s
  /\ vRelayExpiration (post r) = vRelayExpiration s
  /\ (is_Some (recentRejects s) -> is_Some (recentRejects (post r)))
  /\ exists new, calls (post r) = calls s ++ new.
Proof. apply NetReceiveTxData_kept_relay. Qed.

Lemma TryAccept_uninitialized xnode ptx s :
  recentRejects s = None ->
  recentRejects (snd (TryAccept xnode ptx s)) = None.
Proof.
  intro Hrr. unfold TryAccept, DoesTxExist. rewrite Hrr.
  destruct (known_elsewhere (GetHash ptx) s); [exact Hrr|].
  destruct (AcceptToMemoryPool (ledger s) ptx) as [res l']. exact Hrr.
Qed.

(** X10: the received transaction was not accepted and the rejects
    filter was never created.  The call then stops at a dereference of
    the null filter exactly when the branch taken reads or writes it:
    with missing inputs, when the transaction has an input to look up;
    otherwise, when the transaction has no witness and the state reports
    no possible corruption. *)
Theorem ingress_without_filter fuel args xnode ptx txHash s :
  recentRejects s = None ->
  relay_refused args xnode = false ->
  atmp_ok (fst (TryAccept xnode ptx s)) = false ->
  (NetReceiveTxData fuel args xnode ptx txHash s = Aborted
   <-> if atmp_missing (fst (TryAccept xnode ptx s))
       then vin ptx <> []
       else HasWitness ptx = false
            /\ CorruptionPossible
                 (atmp_state (fst (TryAccept xnode ptx s))) = false)
  /\ NetReceiveTxData fuel args xnode ptx txHash s <> OutOfFuel.
Proof.
  intros Hrr Hgate Hok.
  pose proof (TryAccept_uninitialized xnode ptx s Hrr) as Hrr1.
  destruct (TryAccept xnode ptx s) as [res s1] eqn:Htry.
  simpl in Hok, Hrr1 |- *.
  rewrite (NetReceiveTxData_not_accepted _ _ _ _ _ _ _ _ Hgate Htry Hok).
  destruct (atmp_missing res).
  - unfold MissingInputs, RejectedParents. rewrite Hrr1.
    destruct (vin ptx) as [|txin ins]; simpl.
    + split; [|discriminate]. split; [discriminate|]. intro H. now elim H.
    + split; [|discriminate]. split; [discriminate|reflexivity].
  - unfold InvalidOrKnown, rejects_insert. rewrite Hrr1.
    destruct (HasWitness ptx); destruct (CorruptionPossible (atmp_state res));
      simpl; split; try discriminate.
    all: try (split; [discriminate|intros [? ?]; discriminate]).
    all: try (split; [auto|reflexivity]).
    all: split_branches; simpl; try discriminate;
      (split; [discriminate|intros [? ?]; discriminate]).
Qed.

Lemma DoesTxExist_tip h s :
  is_Some (recentRejects s) ->
  hashRecentRejectsChainTip (snd (DoesTxExist h s))
  = TipBlockHash (ledger (snd (DoesTxExist h s))).
Proof.
  intros [rr Hrr]. unfold DoesTxExist. rewrite Hrr.
  destruct (N.eqb_spec (TipBlockHash (ledger s))
              (hashRecentRejectsChainTip s)) as [Heq|Hne]; simpl.
  - destruct (rb_contains rr h); simpl; auto.
  - reflexivity.
Qed.

Lemma known_elsewhere_ext h s s' :
  ledger s' = ledger s -> orphanTxMgr s' = orphanTxMgr s ->
  known_elsewhere h s' = known_elsewhere h s.
Proof. intros Hl Ho. unfold known_elsewhere. rewrite Hl, Ho. reflexivity. Qed.

Lemma parent_requests_ext xnode s s' ins :
  ledger s' = ledger s -> orphanTxMgr s' = orphanTxMgr s ->
  parent_requests xnode s' ins = parent_requests xnode s ins.
Proof.
  intros Hl Ho. unfold parent_requests.
  induction ins as [|txin ins IH]; simpl; [reflexivity|].
  rewrite IH, (known_elsewhere_ext _ _ _ Hl Ho). reflexivity.
Qed.

Lemma DoesTxExist_current h s rr :
  recentRejects s = Some rr ->
  hashRecentRejectsChainTip s = TipBlockHash (ledger s) ->
  rb_contains rr h = false ->
  DoesTxExist h s = (known_elsewhere h s, s).
Proof.
  intros Hrr Htip Hc. unfold DoesTxExist.
  rewrite Hrr, Htip, N.eqb_refl, Hc. reflexivity.
Qed.

(** With a current filter that holds none of the parents, the parent
    loop only appends [parent_requests] to the log. *)
Lemma RequestParents_current xnode rr b ins : forall s,
  recentRejects s = Some rr ->
  hashRecentRejectsChainTip s = TipBlockHash (ledger s) ->
  ledger s = ledger b -> orphanTxMgr s = orphanTxMgr b ->
  existsb (fun txin => rb_contains rr (op_hash (prevout txin))) ins = false ->
  logged s (RequestParents xnode (fetch_flags xnode) ins s)
    (parent_requests xnode b ins).
Proof.
  induction ins as [|txin ins IH]; intros s Hrr Htip Hl Ho Hnone.
  { apply logged_refl. }
  simpl in Hnone. apply orb_false_iff in Hnone as [Hc Hnone].
  set (e := AddTxInventoryKnown (nodeID xnode) (op_hash (prevout txin))
              (fetch_flags xnode)).
  set (a := AskForTransaction (nodeID xnode) (op_hash (prevout txin))
              (fetch_flags xnode)).
  assert (Hstep : RequestParents xnode (fetch_flags xnode) (txin :: ins) s
                  = RequestParents xnode (fetch_flags xnode) ins
                      (if known_elsewhere (op_hash (prevout txin)) b
                       then emit e s else emit a (emit e s))).
  { simpl. fold e.
    rewrite (DoesTxExist_current _ (emit e s) rr Hrr Htip Hc).
    rewrite (known_elsewhere_ext _ b (emit e s) Hl Ho). fold a.
    reflexivity. }
  rewrite Hstep.
  change (parent_requests xnode b (txin :: ins))
    with ((e :: (if known_elsewhere (op_hash (prevout txin)) b then []
                 else [a]))
          ++ parent_requests xnode b ins).
  destruct (known_elsewhere (op_hash (prevout txin)) b).
  - eapply logged_trans; [apply logged_emit|].
    apply IH; assumption.
  - change ([e; a] ++ parent_requests xnode b ins)
      with ([e] ++ [a] ++ parent_requests xnode b ins).
    eapply logged_trans; [apply logged_emit|].
    eapply logged_trans; [apply logged_emit|].
    apply IH; assumption.
Qed.

(** What the existence query at the start of a call leaves of the
    rejects filter: the filter itself if the recorded tip is the current
    one, the reset filter if the tip has moved. *)
Lemma TryAccept_rejects xnode ptx s :
  (TipBlockHash (ledger s) = hashRecentRejectsChainTip s ->
   recentRejects (snd (TryAccept xnode ptx s)) = recentRejects s)
  /\ (TipBlockHash (ledger s) <> hashRecentRejectsChainTip s ->
      recentRejects (snd (TryAccept xnode ptx s))
      = option_map rb_reset (recentRejects s)).
Proof.
  assert (Hq : recentRejects (snd (TryAccept xnode ptx s))
               = recentRejects (snd (DoesTxExist (GetHash ptx) s))).
  { unfold TryAccept.
    destruct (DoesTxExist (GetHash ptx) s) as [known s0]. simpl.
    destruct known; [reflexivity|].
    destruct (AcceptToMemoryPool (ledger s0) ptx) as [res l']. reflexivity. }
  rewrite Hq. split.
  - intro Htip. rewrite (DoesTxExist_same_tip _ _ Htip). reflexivity.
  - intro Hne. unfold DoesTxExist.
    destruct (recentRejects s) as [rr|] eqn:Hrr; [|simpl; exact Hrr].
    destruct (N.eqb_spec (TipBlockHash (ledger s))
                (hashRecentRejectsChainTip s)) as [Heq|_]; [contradiction|].
    reflexivity.
Qed.

(** A call that validated the received transaction holds the mempool
    the validator returned. *)
Lemma TryAccept_ledger xnode ptx s :
  atmp_ok (fst (TryAccept xnode ptx s)) = true
  \/ atmp_missing (fst (TryAccept xnode ptx s)) = true ->
  ledger (snd (TryAccept xnode ptx s))
  = snd (AcceptToMemoryPool (ledger s) ptx).
Proof.
  unfold TryAccept.
  destruct (DoesTxExist_frame (GetHash ptx) s) as (Hl & _).
  destruct (DoesTxExist (GetHash ptx) s) as [known s0]. simpl in Hl.
  destruct known; simpl.
  - intros [H|H]; discriminate.
  - rewrite Hl.
    destruct (AcceptToMemoryPool (ledger s) ptx) as [res l']. reflexivity.
Qed.

(** The parking path, relative to the state the validation left. *)
Lemma NetReceiveTxData_parks fuel args xnode ptx txHash s r :
  NetReceiveTxData fuel args xnode ptx txHash s = Returned r ->
  relay_refused args xnode = false ->
  atmp_ok (fst (TryAccept xnode ptx s)) = false ->
  atmp_missing (fst (TryAccept xnode ptx s)) = true ->
  RejectedParents ptx (snd (TryAccept xnode ptx s)) = Returned false ->
  TipBlockHash (ledger (snd (TryAccept xnode ptx s)))
  = TipBlockHash (ledger s) ->
  (exists tail,
     calls (post r)
     = calls s
       ++ [Validated (FromWire (nodeID xnode)) ptx
             (fst (TryAccept xnode ptx s))]
       ++ parent_requests xnode (snd (TryAccept xnode ptx s)) (vin ptx)
       ++ tail
     /\ forallb is_tail tail = true)
  /\ orphanTxMgr (post r)
     = snd (LimitOrphanTxSize
              (snd (AddOrphanTx (orphanTxMgr s) ptx (nodeID xnode)))
              (Z.max 0 (maxorphantx args) mod 2 ^ 32))
  /\ recentRejects (post r)
     = recentRejects (snd (TryAccept xnode ptx s))
  /\ ledger (post r) = ledger (snd (TryAccept xnode ptx s)).
Proof.
  intros Hrun Hgate Hok Hmiss Hrp Htip.
  destruct (NetReceiveTxData_finish _ _ _ _ _ _ _ Hrun Hgate)
    as (res & s1 & x1 & removed & s2 & Htry & -> & Hbr).
  rewrite Htry in *. cbn [fst snd] in *.
  destruct Hbr as [(Hok' & _)|(_ & -> & Hrun2)]; [congruence|].
  rewrite Hmiss in Hrun2.
  destruct (TryAccept_logged _ _ _ _ _ Htry) as (Ho1 & _ & pre & Hpre & Hshape).
  assert (Hpre' : pre = [Validated (FromWire (nodeID xnode)) ptx res]).
  { destruct Hshape as [[_ ->]|H]; [discriminate|exact H]. }
  subst pre.
  destruct (finish_shape xnode ptx (atmp_state res) removed s2)
    as (fw & rep & Hlog & Hfw & Hrep & _).
  destruct Hlog as (Hr3 & _ & _ & _ & Hl3 & Ho3 & Hc3).
  assert (Hreq : logged s1
                   (RequestParents xnode (fetch_flags xnode) (vin ptx) s1)
                   (parent_requests xnode s1 (vin ptx))).
  { destruct (vin ptx) as [|txin ins] eqn:Hvin; [apply logged_refl|].
    rewrite <- Hvin in *.
    unfold RejectedParents in Hrp. rewrite Hvin in Hrp. rewrite <- Hvin in Hrp.
    destruct (recentRejects s1) as [rr|] eqn:Hrr; [|discriminate].
    injection Hrp as Hrp.
    apply (RequestParents_current xnode rr);
      [exact Hrr| |reflexivity|reflexivity|exact Hrp].
    rewrite Htip.
    assert (Hsome : is_Some (recentRejects s)).
    { destruct (recentRejects s) as [rr0|] eqn:Hrr0; [eauto|].
      pose proof (TryAccept_uninitialized xnode ptx s Hrr0) as Hn.
      rewrite Htry in Hn. simpl in Hn. congruence. }
    pose proof (DoesTxExist_tip (GetHash ptx) s Hsome) as Hd.
    destruct (DoesTxExist_frame (GetHash ptx) s) as (Hl & _).
    rewrite Hl in Hd. rewrite <- Hd.
    revert Htry. unfold TryAccept.
    destruct (DoesTxExist (GetHash ptx) s) as [known s0]. simpl.
    destruct known; [intros [= _ <-]; reflexivity|].
    destruct (AcceptToMemoryPool (ledger s0) ptx) as [res' l'].
    intros [= _ <-]. reflexivity. }
  unfold MissingInputs in Hrun2. rewrite Hrp in Hrun2. simpl in Hrun2.
  fold (fetch_flags xnode) in Hrun2. injection Hrun2 as <-.
  destruct Hreq as (Hr2 & _ & _ & _ & Hl2 & Ho2 & Hc2).
  split.
  { exists (fw ++ rep). split.
    - rewrite Hc3. simpl. rewrite Hc2, Hpre, <- !app_assoc. reflexivity.
    - rewrite forallb_app. apply andb_true_iff. split.
      + eapply forallb_impl; [|exact Hfw]. intros e He. unfold is_tail.
        rewrite He. reflexivity.
      + destruct Hrep as [->|(-> & _)]; reflexivity. }
  split; [rewrite Ho3; simpl; rewrite Ho2, Ho1; reflexivity|].
  split; [rewrite Hr3; simpl; exact Hr2|].
  rewrite Hl3. simpl. exact Hl2.
Qed.

(** X11: the parking path.  Validation reported missing inputs without
    moving the chain tip, and the rejects filter holds none of the
    parents.  The call then validates once, marks every parent as known
    to the sender in input order, asks the sender for exactly the
    parents that neither pool nor the UTXO cache has, and ends with the
    calls of the common tail; the orphan pool becomes the one after
    AddOrphanTx followed by LimitOrphanTxSize with -maxorphantx clamped
    at zero and cut to 32 bits; the mempool is the one the validator
    returned.  The rejects filter is written by nothing but the
    existence query at the start of the call: it is the filter of before
    if the recorded tip is the current one, and the reset filter if the
    tip has moved since. *)
Theorem missing_inputs_parks fuel args xnode ptx txHash s r :
  NetReceiveTxData fuel args xnode ptx txHash s = Returned r ->
  relay_refused args xnode = false ->
  atmp_ok (fst (TryAccept xnode ptx s)) = false ->
  atmp_missing (fst (TryAccept xnode ptx s)) = true ->
  RejectedParents ptx (snd (TryAccept xnode ptx s)) = Returned false ->
  TipBlockHash (ledger (snd (TryAccept xnode ptx s)))
  = TipBlockHash (ledger s) ->
  (exists tail,
     calls (post r)
     = calls s
       ++ [Validated (FromWire (nodeID xnode)) ptx
             (fst (TryAccept xnode ptx s))]
       ++ parent_requests xnode (snd (TryAccept xnode ptx s)) (vin ptx)
       ++ tail
     /\ forallb is_tail tail = true)
  /\ orphanTxMgr (post r)
     = snd (LimitOrphanTxSize
              (snd (AddOrphanTx (orphanTxMgr s) ptx (nodeID xnode)))
              (Z.max 0 (maxorphantx args) mod 2 ^ 32))
  /\ recentRejects (post r)
     = recentRejects (snd (TryAccept xnode ptx s))
  /\ ledger (post r) = ledger (snd (TryAccept xnode ptx s))
  /\ (TipBlockHash (ledger s) = hashRecentRejectsChainTip s ->
      recentRejects (post r) = recentRejects s)
  /\ (TipBlockHash (ledger s) <> hashRecentRejectsChainTip s ->
      recentRejects (post r) = option_map rb_reset (recentRejects s))
  /\ ledger (post r) = snd (AcceptToMemoryPool (ledger s) ptx).
Proof.
  intros Hrun Hgate Hok Hmiss Hrp Htip.
  destruct (NetReceiveTxData_parks _ _ _ _ _ _ _ Hrun Hgate Hok Hmiss Hrp Htip)
    as (Hcalls & Ho & Hr & Hl).
  destruct (TryAccept_rejects xnode ptx s) as (Hsame & Hreset).
  split; [exact Hcalls|]. split; [exact Ho|]. split; [exact Hr|].
  split; [exact Hl|].
  split; [intro H; rewrite Hr; exact (Hsame H)|].
  split; [intro H; rewrite Hr; exact (Hreset H)|].
  rewrite Hl. apply TryAccept_ledger. right. exact Hmiss.
Qed.

(** A work queue none of whose outpoints is spent by an orphan is
    drained without any other effect, one unit of fuel per outpoint. *)
Lemma ProcessWorkQueue_no_children fuel : forall r,
  (length (vWorkQueue r) <= fuel)%nat ->
  (forall op, In op (vWorkQueue r) ->
     FindOrphanTransactionsByPrev (orphanTxMgr (rstate r)) op = []) ->
  ProcessWorkQueue fuel r = Returned (with_queue [] r).
Proof.
  induction fuel as [|fuel IH]; intros [q eq mis rm st]; simpl;
    destruct q as [|front rest]; simpl; intros Hlen Hnone;
    try reflexivity; try lia.
  rewrite (Hnone front (or_introl eq_refl)). simpl.
  rewrite IH; simpl; [reflexivity|lia|].
  intros op Hop. apply Hnone. right. exact Hop.
Qed.

(** The plain accept, relative to the state the validation left. *)
Lemma NetReceiveTxData_plain_accept fuel args xnode ptx txHash s :
  relay_refused args xnode = false ->
  atmp_ok (fst (TryAccept xnode ptx s)) = true ->
  (forall i, (i < length (vout ptx))%nat ->
     FindOrphanTransactionsByPrev (orphanTxMgr s)
       {| op_hash := GetHash ptx; op_n := N.of_nat i |} = []) ->
  (length (vout ptx) <= fuel)%nat ->
  exists r,
    NetReceiveTxData fuel args xnode ptx txHash s = Returned r
    /\ (exists tail,
          calls (post r)
          = calls s
            ++ [Validated (FromWire (nodeID xnode)) ptx
                  (fst (TryAccept xnode ptx s));
                MempoolCheck; BroadcastTransaction (GetHash ptx)]
            ++ tail
          /\ forallb is_tail tail = true)
    /\ orphanTxMgr (post r) = orphanTxMgr s
    /\ recentRejects (post r) = recentRejects (snd (TryAccept xnode ptx s))
    /\ ledger (post r) = ledger (snd (TryAccept xnode ptx s))
    /\ retFlags (xnode_out r)
       = SetFlagsBit (retFlags xnode) NF_NEWTRANSACTION.
Proof.
  intros Hgate Hok Hnone Hfuel.
  destruct (TryAccept xnode ptx s) as [res s1] eqn:Htry.
  cbn [fst snd] in *.
  destruct (TryAccept_logged _ _ _ _ _ Htry) as (Ho1 & _ & pre & Hpre & Hshape).
  assert (Hpre' : pre = [Validated (FromWire (nodeID xnode)) ptx res]).
  { destruct Hshape as [[_ ->]|H]; [discriminate|exact H]. }
  subst pre.
  rewrite (NetReceiveTxData_accepted _ _ _ _ _ _ _ _ Hgate Htry Hok).
  unfold Accepted.
  rewrite ProcessWorkQueue_no_children; simpl.
  - eexists. split; [reflexivity|].
    match goal with
    | |- context [finish ?x ptx ?st ?rm ?s2] =>
        destruct (finish_logged x ptx st rm s2) as (tail & Hlog & Htail & _);
        destruct (finish_shape x ptx st rm s2) as (_ & _ & _ & _ & _ & Hx)
    end.
    destruct Hlog as (Hr & _ & _ & _ & Hl & Ho & Hc).
    split.
    { exists tail. split; [|exact Htail].
      rewrite Hc. simpl. rewrite Hpre, <- !app_assoc. reflexivity. }
    split; [rewrite Ho; simpl; exact Ho1|].
    split; [rewrite Hr; reflexivity|].
    split; [rewrite Hl; reflexivity|].
    rewrite Hx.
    destruct (invalid (atmp_state res) && (0 <? nDoS (atmp_state res)));
      reflexivity.
  - unfold outpoints_of. rewrite length_map, length_seq. exact Hfuel.
  - intros op Hop. unfold outpoints_of in Hop.
    apply in_map_iff in Hop as (i & <- & Hi). apply in_seq in Hi.
    rewrite Ho1. apply Hnone. lia.
Qed.

(** X12: the plain accept.  The received transaction is accepted and no
    orphan spends one of its outputs.  With one unit of fuel per output
    the call returns; it validated once, checked the mempool and relayed
    the transaction, in this order, before the calls of the common tail;
    it did not write the orphan pool, the mempool is the one the
    validator returned, and the new-transaction bit is set in the peer's
    return flags.  The rejects filter is written by nothing but the
    existence query at the start of the call: it is the filter of before
    if the recorded tip is the current one, and the reset filter if the
    tip has moved since. *)
Theorem accept_without_children fuel args xnode ptx txHash s :
  relay_refused args xnode = false ->
  atmp_ok (fst (TryAccept xnode ptx s)) = true ->
  (forall i, (i < length (vout ptx))%nat ->
     FindOrphanTransactionsByPrev (orphanTxMgr s)
       {| op_hash := GetHash ptx; op_n := N.of_nat i |} = []) ->
  (length (vout ptx) <= fuel)%nat ->
  exists r,
    NetReceiveTxData fuel args xnode ptx txHash s = Returned r
    /\ (exists tail,
          calls (post r)
          = calls s
            ++ [Validated (FromWire (nodeID xnode)) ptx
                  (fst (TryAccept xnode ptx s));
                MempoolCheck; BroadcastTransaction (GetHash ptx)]
            ++ tail
          /\ forallb is_tail tail = true)
    /\ orphanTxMgr (post r) = orphanTxMgr s
    /\ recentRejects (post r) = recentRejects (snd (TryAccept xnode ptx s))
    /\ ledger (post r) = ledger (snd (TryAccept xnode ptx s))
    /\ retFlags (xnode_out r)
       = SetFlagsBit (retFlags xnode) NF_NEWTRANSACTION
    /\ (TipBlockHash (ledger s) = hashRecentRejectsChainTip s ->
        recentRejects (post r) = recentRejects s)
    /\ (TipBlockHash (ledger s) <> hashRecentRejectsChainTip s ->
        recentRejects (post r) = option_map rb_reset (recentRejects s))
    /\ ledger (post r) = snd (AcceptToMemoryPool (ledger s) ptx).
Proof.
  intros Hgate Hok Hnone Hfuel.
  destruct (NetReceiveTxData_plain_accept fuel args xnode ptx txHash s
              Hgate Hok Hnone Hfuel)
    as (r & Hrun & Hcalls & Ho & Hr & Hl & Hf).
  destruct (TryAccept_rejects xnode ptx s) as (Hsame & Hreset).
  exists r. split; [exact Hrun|]. split; [exact Hcalls|].
  split; [exact Ho|]. split; [exact Hr|]. split; [exact Hl|].
  split; [exact Hf|].
  split; [intro H; rewrite Hr; exact (Hsame H)|].
  split; [intro H; rewrite Hr; exact (Hreset H)|].
  rewrite Hl. apply TryAccept_ledger. left. exact Hok.
Qed.

(** ** What the inventory builder announces *)

Lemma grows_eq v v' m s m' s' :
  grows v v' m s -> m = m' -> s = s' -> grows v v' m' s'.
Proof. intros G <- <-. exact G. Qed.

Lemma passes_floor minFeeFilter txinfo f :
  fst (passes minFeeFilter txinfo f) = true -> minFeeFilter <= feeRate txinfo.
Proof.
  unfold passes. destruct (Z.ltb_spec (feeRate txinfo) minFeeFilter);
    [discriminate|auto].
Qed.

Lemma push_inv_ledger xnode inv v :
  ledger (istate (push_inv xnode inv v)) = ledger (istate v).
Proof. unfold push_inv. destruct (_ =? _); reflexivity. Qed.

Lemma erase_first_In h x l : In x (erase_first h l) -> In x l.
Proof.
  induction l as [|y l IH]; simpl; [auto|].
  destruct (N.eqb y h); [auto|]. intros [->|H]; auto.
Qed.

Lemma DumpEntry_sent xnode minFeeFilter txinfo v :
  exists l,
    grows v (DumpEntry xnode minFeeFilter txinfo v) l l
    /\ (l = []
        \/ l = [GetHash (info_tx txinfo)]
           /\ minFeeFilter <= feeRate txinfo)
    /\ ledger (istate (DumpEntry xnode minFeeFilter txinfo v))
       = ledger (istate v).
Proof.
  unfold DumpEntry. simpl.
  destruct (passes minFeeFilter txinfo (txFilter v)) as [ok f'] eqn:Hp.
  set (hash := GetHash (info_tx txinfo)).
  set (v1 := with_toSend (erase_first hash (toSendTxHashes v)) v).
  set (v2 := with_txFilter f' v1).
  assert (G12 : grows v v2 [] []).
  { eapply grows_eq; [eapply grows_trans;
                      [apply grows_erase|apply grows_txFilter]| |];
      reflexivity. }
  destruct ok; simpl.
  - exists [hash]. split; [|split].
    + eapply grows_eq.
      * eapply grows_trans; [exact G12|].
        eapply grows_trans; [apply grows_haveSent|].
        apply (grows_push_inv xnode {| inv_type := MSG_TX; inv_hash := hash |}).
      * reflexivity.
      * reflexivity.
    + right. split; [reflexivity|].
      apply (passes_floor _ _ (txFilter v)). rewrite Hp. reflexivity.
    + rewrite push_inv_ledger. reflexivity.
  - exists []. split; [exact G12|]. split; [left|]; reflexivity.
Qed.

Lemma Dump_sent xnode minFeeFilter vtxinfo : forall v,
  exists l,
    grows v (Dump xnode minFeeFilter vtxinfo v) l l
    /\ (forall h, In h l ->
          exists txinfo,
            In txinfo vtxinfo /\ GetHash (info_tx txinfo) = h
            /\ minFeeFilter <= feeRate txinfo)
    /\ ledger (istate (Dump xnode minFeeFilter vtxinfo v))
       = ledger (istate v).
Proof.
  induction vtxinfo as [|txinfo rest IH]; intro v; simpl.
  { exists []. split; [apply grows_refl|]. split; [intros h []|reflexivity]. }
  destruct (DumpEntry_sent xnode minFeeFilter txinfo v)
    as (l1 & G1 & Hl1 & Hled1).
  destruct (IH (DumpEntry xnode minFeeFilter txinfo v))
    as (l2 & G2 & Hl2 & Hled2).
  exists (l1 ++ l2). split; [eapply grows_trans; eassumption|]. split.
  - intros h Hin. apply in_app_or in Hin as [Hin|Hin].
    + destruct Hl1 as [->|[-> Hfee]]; [destruct Hin|].
      destruct Hin as [<-|[]]. exists txinfo. auto.
    + destruct (Hl2 h Hin) as (ti & Hti & H). exists ti. auto.
  - rewrite Hled2. exact Hled1.
Qed.

Lemma PublishRelay_frame nNow hash tx s :
  ledger (PublishRelay nNow hash tx s) = ledger s
  /\ calls (PublishRelay nNow hash tx s) = calls s
  /\ is_Some (mapRelay (PublishRelay nNow hash tx s) !! hash)
  /\ (forall h, is_Some (mapRelay s !! h) ->
        is_Some (mapRelay (PublishRelay nNow hash tx s) !! h)).
Proof.
  unfold PublishRelay.
  destruct (mapRelay s !! hash) as [tx0|] eqn:Hl; simpl.
  - rewrite Hl. eauto.
  - split; [reflexivity|]. split; [reflexivity|]. split.
    + rewrite lookup_insert_eq. eauto.
    + intros h Hh. destruct (decide (hash = h)) as [->|Hne].
      * rewrite lookup_insert_eq. eauto.
      * rewrite lookup_insert_ne; assumption.
Qed.

(** The drain from a round on: what it records as sent it also queued
    for an INV message; it is within the budget left, was pending, is in
    the mempool at or above the fee floor and is in the relay cache
    afterwards; the relay cache loses nothing. *)
Lemma Drain_sent xnode minFeeFilter nNow rounds : forall nRelayed v,
  let v' := Drain rounds xnode minFeeFilter nNow nRelayed v in
  exists l,
    grows v v' l l
    /\ Z.of_nat (length l) <= Z.max 0 (INVENTORY_BROADCAST_MAX - nRelayed)
    /\ (forall h, In h l ->
          In h (toSendTxHashes v)
          /\ is_Some (mapRelay (istate v') !! h)
          /\ exists txinfo,
               mp_info (ledger (istate v)) h = Some txinfo
               /\ minFeeFilter <= feeRate txinfo)
    /\ (forall h, is_Some (mapRelay (istate v) !! h) ->
          is_Some (mapRelay (istate v') !! h))
    /\ ledger (istate v') = ledger (istate v).
Proof.
  induction rounds as [|rounds IH]; intros nRelayed v; cbv zeta.
  { exists []. split; [apply grows_refl|]. split; [simpl; lia|].
    split; [intros h []|]. split; [auto|reflexivity]. }
  simpl.
  destruct (heap_top _ _) as [hash|] eqn:Htop.
  2:{ exists []. split; [apply grows_refl|]. split; [simpl; lia|].
      split; [intros h []|]. split; [auto|reflexivity]. }
  destruct (Z.ltb_spec nRelayed INVENTORY_BROADCAST_MAX) as [Hlt|Hge]; simpl.
  2:{ exists []. split; [apply grows_refl|]. split; [simpl; lia|].
      split; [intros h []|]. split; [auto|reflexivity]. }
  apply heap_top_In in Htop.
  set (v1 := with_toSend (erase_first hash (toSendTxHashes v)) v).
  assert (G1 : grows v v1 [] []) by apply grows_erase.
  destruct (mp_info (ledger (istate v)) hash) as [txinfo|] eqn:Hinfo.
  - destruct (passes minFeeFilter txinfo (txFilter v)) as [ok f'] eqn:Hp.
    destruct ok.
    + match goal with
      | |- context [Drain rounds _ _ _ ?n ?v5] =>
          destruct (IH n v5) as (l2 & G2 & Hlen & Hl2 & Hmono & Hled);
          set (v5' := v5) in *
      end.
      destruct (PublishRelay_frame nNow hash (info_tx txinfo) (istate v))
        as (Hpl & Hpc & Hph & Hpm).
      assert (Hrel5 : mapRelay (istate v5')
                      = mapRelay (PublishRelay nNow hash (info_tx txinfo)
                                    (istate v))).
      { subst v5'. apply push_inv_relay. }
      assert (Hled5 : ledger (istate v5') = ledger (istate v)).
      { subst v5'. rewrite push_inv_ledger. exact Hpl. }
      assert (Hts5 : toSendTxHashes v5'
                     = erase_first hash (toSendTxHashes v)).
      { subst v5'. rewrite push_inv_toSend. reflexivity. }
      exists ([hash] ++ l2). split; [|split; [|split; [|split]]].
      * eapply grows_eq.
        -- eapply grows_trans; [exact G1|].
           eapply grows_trans; [apply grows_txFilter|].
           eapply grows_trans; [apply grows_haveSent|].
           eapply grows_trans; [apply grows_istate|].
           2: { eapply grows_trans; [apply grows_push_inv | exact G2]. }
           simpl. exact Hpc.
        -- reflexivity.
        -- reflexivity.
      * simpl length. lia.
      * intros h [<-|Hin].
        -- split; [exact Htop|]. split.
           ++ apply Hmono. rewrite Hrel5. exact Hph.
           ++ exists txinfo. split; [exact Hinfo|].
              apply (passes_floor _ _ (txFilter v)). rewrite Hp. reflexivity.
        -- destruct (Hl2 h Hin) as (Hts & Hrel & ti & Hti & Hfee).
           split; [rewrite Hts5 in Hts; eapply erase_first_In; exact Hts|].
           split; [exact Hrel|]. exists ti. rewrite <- Hled5. auto.
      * intros h Hh. apply Hmono. rewrite Hrel5. apply Hpm. exact Hh.
      * rewrite Hled. exact Hled5.
    + destruct (IH nRelayed (with_txFilter f' v1))
        as (l2 & G2 & Hlen & Hl2 & Hmono & Hled).
      exists l2. split; [|split; [|split; [|split]]].
      * eapply grows_eq.
        -- eapply grows_trans; [exact G1|].
           eapply grows_trans; [apply grows_txFilter | exact G2].
        -- reflexivity.
        -- reflexivity.
      * exact Hlen.
      * intros h Hin. destruct (Hl2 h Hin) as (Hts & Hrel & H).
        split; [eapply erase_first_In; exact Hts|]. auto.
      * exact Hmono.
      * exact Hled.
  - destruct (IH nRelayed v1) as (l2 & G2 & Hlen & Hl2 & Hmono & Hled).
    exists l2. split; [|split; [|split; [|split]]].
    * eapply grows_eq; [eapply grows_trans; [exact G1 | exact G2]| |];
        reflexivity.
    * exact Hlen.
    * intros h Hin. destruct (Hl2 h Hin) as (Hts & Hrel & H).
      split; [eapply erase_first_In; exact Hts|]. auto.
    * exact Hmono.
    * exact Hled.
Qed.

Lemma PendingDrain_sent xnode minFeeFilter nNow v :
  let v' := PendingDrain xnode minFeeFilter nNow v in
  exists l,
    grows v v' l l
    /\ Z.of_nat (length l) <= Z.max 0 INVENTORY_BROADCAST_MAX
    /\ (forall h, In h l ->
          In h (toSendTxHashes v)
          /\ is_Some (mapRelay (istate v') !! h)
          /\ exists txinfo,
               mp_info (ledger (istate v)) h = Some txinfo
               /\ minFeeFilter <= feeRate txinfo)
    /\ ledger (istate v') = ledger (istate v).
Proof.
  cbv zeta. unfold PendingDrain.
  destruct (toSendTxHashes v) as [|h0 rest] eqn:Hts.
  { exists []. split; [apply grows_refl|]. split; [simpl; lia|].
    split; [intros h []|reflexivity]. }
  destruct (ExpireRelay nNow _ _) as [m q]. rewrite <- Hts.
  match goal with
  | |- context [Drain ?n _ _ _ ?k ?v'] =>
      destruct (Drain_sent xnode minFeeFilter nNow n k v')
        as (l & G & Hlen & Hl & _ & Hled)
  end.
  exists l. split; [|split; [|split]].
  - apply (grows_eq _ _ ([] ++ l) ([] ++ l)); [|reflexivity|reflexivity].
    eapply grows_trans; [|exact G].
    apply grows_istate. reflexivity.
  - rewrite Z.sub_0_r in Hlen. exact Hlen.
  - exact Hl.
  - exact Hled.
Qed.

(** The txids a call records as sent: those of the mempool dump followed
    by those of the drain.  They are the txids of its INV messages. *)
Lemma NetRequestTxInventory_sent
    xnode sendMempool minFeeFilter filter toSend haveSent nNow s :
  let out := snd (NetRequestTxInventory xnode sendMempool minFeeFilter filter
                    toSend haveSent nNow s) in
  exists dumped drained new,
    calls (istate out) = calls s ++ new
    /\ advertised new = dumped ++ drained
    /\ haveSentTxHashes out = haveSent ++ dumped ++ drained
    /\ (sendMempool = false -> dumped = [])
    /\ (forall h, In h dumped ->
          exists txinfo,
            In txinfo (mp_infoAll (ledger s))
            /\ GetHash (info_tx txinfo) = h
            /\ minFeeFilter <= feeRate txinfo)
    /\ Z.of_nat (length drained) <= Z.max 0 INVENTORY_BROADCAST_MAX
    /\ (forall h, In h drained ->
          In h toSend
          /\ is_Some (mapRelay (istate out) !! h)
          /\ exists txinfo,
               mp_info (ledger s) h = Some txinfo
               /\ minFeeFilter <= feeRate txinfo).
Proof.
  cbv zeta. unfold NetRequestTxInventory. cbn [snd].
  set (v0 := {| toSendTxHashes := toSend; haveSentTxHashes := haveSent;
                txFilter := filter; vInv := []; istate := s |}).
  set (v1 := if sendMempool then Dump _ _ _ v0 else v0).
  assert (H1 : exists dumped,
            grows v0 v1 dumped dumped
            /\ (sendMempool = false -> dumped = [])
            /\ (forall h, In h dumped ->
                  exists txinfo,
                    In txinfo (mp_infoAll (ledger s))
                    /\ GetHash (info_tx txinfo) = h
                    /\ minFeeFilter <= feeRate txinfo)
            /\ ledger (istate v1) = ledger s).
  { subst v1. destruct sendMempool.
    - destruct (Dump_sent xnode minFeeFilter (mp_infoAll (ledger s)) v0)
        as (l & G & Hl & Hled).
      exists l. split; [exact G|]. split; [discriminate|]. auto.
    - exists []. split; [apply grows_refl|]. split; [reflexivity|].
      split; [intros h []|reflexivity]. }
  destruct H1 as (dumped & G1 & Hd0 & Hd & Hled1).
  destruct (PendingDrain_sent xnode minFeeFilter nNow v1)
    as (drained & G2 & Hlen & Hdr & Hled2).
  set (v2 := PendingDrain xnode minFeeFilter nNow v1) in *.
  pose proof (grows_trans _ _ _ _ _ _ _ G1 G2) as G.
  destruct G as ((new1 & Hc1 & Ha1) & Hs & Hocc).
  destruct (FlushInv_sends xnode v2) as (new2 & Hc2 & Ha2 & Hs2 & _).
  exists dumped, drained, (new1 ++ new2).
  split; [rewrite Hc2, Hc1, app_assoc; reflexivity|].
  split; [rewrite advertised_app, Ha2; exact Ha1|].
  split; [rewrite Hs2, Hs; reflexivity|].
  split; [exact Hd0|]. split; [exact Hd|]. split; [exact Hlen|].
  intros h Hin. destruct (Hdr h Hin) as (Hts & Hrel & ti & Hti & Hfee).
  split.
  { destruct G1 as (_ & _ & Ho1).
    destruct (in_dec N.eq_dec h toSend) as [Hy|Hn]; [exact Hy|].
    exfalso. specialize (Ho1 h). unfold occurrences in Ho1.
    change (toSendTxHashes v0) with toSend in Ho1.
    rewrite (proj1 (count_occ_not_In N.eq_dec toSend h) Hn) in Ho1.
    apply (count_occ_In N.eq_dec) in Hts. lia. }
  split.
  { unfold FlushInv. destruct (vInv v2); exact Hrel. }
  exists ti. rewrite <- Hled1. auto.
Qed.

(** X13: publication and fetch fit together.  Every txid the drain of a
    call recorded as sent is in the relay cache when the call returns, so
    a fetch of it by any peer, in any format and whatever the time of its
    last mempool request, is answered with a TX message. *)
Theorem drained_is_fetchable
    xnode minFeeFilter filter toSend haveSent nNow s
    (peer : ExNode) (witness : bool) (timeLastMempoolReq : Z) :
  let out := snd (NetRequestTxInventory xnode false minFeeFilter filter
                    toSend haveSent nNow s) in
  exists sent,
    haveSentTxHashes out = haveSent ++ sent
    /\ forall h, In h sent ->
         exists tx,
           mapRelay (istate out) !! h = Some tx
           /\ NetRequestTxData peer h witness timeLastMempoolReq (istate out)
              = (true,
                 emit (SendTx (nodeID peer) (sendVersion peer)
                         (if witness then 0
                          else SERIALIZE_TRANSACTION_NO_WITNESS) tx)
                   (istate out)).
Proof.
  cbv zeta.
  destruct (NetRequestTxInventory_sent xnode false minFeeFilter filter
              toSend haveSent nNow s)
    as (dumped & drained & new & _ & _ & Hs & Hd0 & _ & _ & Hdr).
  rewrite (Hd0 eq_refl) in Hs. exists drained. split; [exact Hs|].
  intros h Hin. destruct (Hdr h Hin) as (_ & [tx Htx] & _).
  exists tx. split; [exact Htx|].
  unfold NetRequestTxData. rewrite Htx. reflexivity.
Qed.

(** X14: the drain stops at its budget.  Without a mempool dump a call
    records at most INVENTORY_BROADCAST_MAX txids as sent (none if that
    constant is not positive), and each of them was pending. *)
Theorem drain_budget xnode minFeeFilter filter toSend haveSent nNow s :
  let out := snd (NetRequestTxInventory xnode false minFeeFilter filter
                    toSend haveSent nNow s) in
  exists sent,
    haveSentTxHashes out = haveSent ++ sent
    /\ Z.of_nat (length sent) <= Z.max 0 INVENTORY_BROADCAST_MAX
    /\ forall h, In h sent -> In h toSend.
Proof.
  cbv zeta.
  destruct (NetRequestTxInventory_sent xnode false minFeeFilter filter
              toSend haveSent nNow s)
    as (dumped & drained & new & _ & _ & Hs & Hd0 & _ & Hlen & Hdr).
  rewrite (Hd0 eq_refl) in Hs. exists drained.
  split; [exact Hs|]. split; [exact Hlen|].
  intros h Hin. apply (Hdr h Hin).
Qed.

(** X15: the record of the call matches its messages.  The txids a call
    appends to [haveSentTxHashes] are, in the same order and with the
    same repetitions, the txids of the INV messages it sent. *)
Theorem sent_is_advertised
    xnode sendMempool minFeeFilter filter toSend haveSent nNow s :
  let out := snd (NetRequestTxInventory xnode sendMempool minFeeFilter filter
                    toSend haveSent nNow s) in
  exists new,
    calls (istate out) = calls s ++ new
    /\ haveSentTxHashes out = haveSent ++ advertised new.
Proof.
  cbv zeta.
  destruct (NetRequestTxInventory_sent xnode sendMempool minFeeFilter filter
              toSend haveSent nNow s)
    as (dumped & drained & new & Hc & Ha & Hs & _).
  exists new. split; [exact Hc|]. rewrite Ha. exact Hs.
Qed.

(** X16: nothing below the peer's fee floor is announced.  Every txid in
    an INV message of a call belongs to a mempool entry, listed by the
    dump or looked up by the drain, whose fee rate is at least
    [minFeeFilter]; a drained txid was pending. *)
Theorem announced_above_fee_floor
    xnode sendMempool minFeeFilter filter toSend haveSent nNow s :
  let out := snd (NetRequestTxInventory xnode sendMempool minFeeFilter filter
                    toSend haveSent nNow s) in
  exists new,
    calls (istate out) = calls s ++ new
    /\ forall h, In h (advertised new) ->
         exists txinfo,
           minFeeFilter <= feeRate txinfo
           /\ (sendMempool = true
               /\ In txinfo (mp_infoAll (ledger s))
               /\ GetHash (info_tx txinfo) = h
               \/ In h toSend /\ mp_info (ledger s) h = Some txinfo).
Proof.
  cbv zeta.
  destruct (NetRequestTxInventory_sent xnode sendMempool minFeeFilter filter
              toSend haveSent nNow s)
    as (dumped & drained & new & Hc & Ha & _ & Hd0 & Hd & _ & Hdr).
  exists new. split; [exact Hc|]. rewrite Ha.
  intros h Hin. apply in_app_or in Hin as [Hin|Hin].
  - destruct (Hd h Hin) as (ti & Hti & Hh & Hfee).
    exists ti. split; [exact Hfee|]. left.
    destruct sendMempool; [auto|].
    rewrite (Hd0 eq_refl) in Hin. destruct Hin.
  - destruct (Hdr h Hin) as (Hts & _ & ti & Hti & Hfee).
    exists ti. auto.
Qed.

(** ** INV batches *)

Lemma batching_refl xnode v : batching xnode v v.
Proof.
  intro H. split; [exact H|]. exists []. rewrite app_nil_r. auto.
Qed.

Lemma batching_trans xnode v1 v2 v3 :
  batching xnode v1 v2 -> batching xnode v2 v3 -> batching xnode v1 v3.
Proof.
  intros H12 H23 H1.
  destruct (H12 H1) as (H2 & f1 & Hc1 & Hf1).
  destruct (H23 H2) as (H3 & f2 & Hc2 & Hf2).
  split; [exact H3|]. exists (f1 ++ f2).
  split; [rewrite Hc2, Hc1, app_assoc; reflexivity|].
  rewrite forallb_app, Hf1, Hf2. reflexivity.
Qed.

Lemma batching_same xnode v v' :
  vInv v' = vInv v -> calls (istate v') = calls (istate v) ->
  batching xnode v v'.
Proof.
  intros Hv Hc H. rewrite Hv, Hc. split; [exact H|].
  exists []. rewrite app_nil_r. auto.
Qed.

Lemma batching_push_inv xnode inv v : batching xnode v (push_inv xnode inv v).
Proof.
  intro H. unfold push_inv.
  destruct (Z.eqb_spec (Z.of_nat (length (vInv v ++ [inv]))) MAX_INV_SZ)
    as [Heq|Hne]; simpl.
  - split; [lia|]. eexists. split; [reflexivity|]. simpl.
    rewrite !Z.eqb_refl. simpl. rewrite Heq, Z.eqb_refl. reflexivity.
  - rewrite length_app in *. simpl in *. split; [lia|].
    exists []. rewrite app_nil_r. auto.
Qed.

Lemma DumpEntry_batching xnode minFeeFilter txinfo v :
  batching xnode v (DumpEntry xnode minFeeFilter txinfo v).
Proof.
  unfold DumpEntry. simpl.
  destruct (passes minFeeFilter txinfo (txFilter v)) as [ok f'].
  destruct ok.
  - eapply batching_trans; [|apply batching_push_inv].
    apply batching_same; reflexivity.
  - apply batching_same; reflexivity.
Qed.

Lemma Dump_batching xnode minFeeFilter vtxinfo : forall v,
  batching xnode v (Dump xnode minFeeFilter vtxinfo v).
Proof.
  induction vtxinfo as [|txinfo rest IH]; intro v; simpl.
  - apply batching_refl.
  - eapply batching_trans; [apply DumpEntry_batching|apply IH].
Qed.

Lemma Drain_batching xnode minFeeFilter nNow rounds : forall nRelayed v,
  batching xnode v (Drain rounds xnode minFeeFilter nNow nRelayed v).
Proof.
  induction rounds as [|rounds IH]; intros nRelayed v; simpl.
  { apply batching_refl. }
  destruct (heap_top _ _) as [hash|]; [|apply batching_refl].
  destruct (negb _); [apply batching_refl|].
  simpl.
  destruct (mp_info (ledger (istate v)) hash) as [txinfo|].
  - destruct (passes minFeeFilter txinfo (txFilter v)) as [ok f'].
    destruct ok.
    + eapply batching_trans; [|apply IH].
      eapply batching_trans; [|apply batching_push_inv].
      apply batching_same; [reflexivity|]. simpl.
      apply PublishRelay_frame.
    + eapply batching_trans; [|apply IH].
      apply batching_same; reflexivity.
  - eapply batching_trans; [|apply IH].
    apply batching_same; reflexivity.
Qed.

Lemma PendingDrain_batching xnode minFeeFilter nNow v :
  batching xnode v (PendingDrain xnode minFeeFilter nNow v).
Proof.
  unfold PendingDrain.
  destruct (toSendTxHashes v) as [|h0 rest]; [apply batching_refl|].
  destruct (ExpireRelay nNow _ _) as [m q].
  eapply batching_trans; [|apply Drain_batching].
  apply batching_same; reflexivity.
Qed.

(** X17: the messages of a call.  With a positive MAX_INV_SZ a call makes
    no call but SendNetMessage(INV) to the asking peer: a run of
    messages with exactly MAX_INV_SZ entries each, then at most one more
    with fewer entries and at least one. *)
Theorem inv_batches
    xnode sendMempool minFeeFilter filter toSend haveSent nNow s :
  0 < MAX_INV_SZ ->
  let out := snd (NetRequestTxInventory xnode sendMempool minFeeFilter filter
                    toSend haveSent nNow s) in
  exists fulls last,
    calls (istate out) = calls s ++ fulls ++ last
    /\ forallb (full_batch xnode) fulls = true
    /\ (last = []
        \/ exists batch,
             last = [SendInv (nodeID xnode) (sendVersion xnode) batch]
             /\ 0 < Z.of_nat (length batch) < MAX_INV_SZ).
Proof.
  intro Hmax. cbv zeta. unfold NetRequestTxInventory. cbn [snd].
  set (v0 := {| toSendTxHashes := toSend; haveSentTxHashes := haveSent;
                txFilter := filter; vInv := []; istate := s |}).
  set (v1 := if sendMempool then Dump _ _ _ v0 else v0).
  assert (B1 : batching xnode v0 v1).
  { subst v1. destruct sendMempool; [apply Dump_batching|apply batching_refl]. }
  pose proof (batching_trans _ _ _ _ B1
                (PendingDrain_batching xnode minFeeFilter nNow v1)) as B.
  destruct (B Hmax) as (Hlen & fulls & Hc & Hf).
  set (v2 := PendingDrain xnode minFeeFilter nNow v1) in *.
  unfold FlushInv. destruct (vInv v2) as [|i rest] eqn:Hv.
  - exists fulls, []. rewrite app_nil_r. auto.
  - exists fulls, [SendInv (nodeID xnode) (sendVersion xnode) (i :: rest)].
    simpl. split; [rewrite Hc, <- app_assoc; reflexivity|].
    split; [exact Hf|]. right. eexists. split; [reflexivity|].
    simpl length in *. lia.
Qed.

(** ** Nothing pending *)

Lemma occurrences_nil l :
  (forall x, (occurrences l x <= 0)%nat) -> l = [].
Proof.
  destruct l as [|a l]; [reflexivity|]. intro H. specialize (H a).
  unfold occurrences in H. simpl in H.
  destruct (N.eq_dec a a); [lia|congruence].
Qed.

(** X18: expiry is tied to pending work.  A call with an empty pending
    vector leaves the relay cache and its expiration queue as they are,
    overdue entries included, whether or not it dumps the mempool; and
    without a dump it does nothing at all. *)
Theorem nothing_pending_no_expiry
    xnode sendMempool minFeeFilter filter haveSent nNow s :
  let out := snd (NetRequestTxInventory xnode sendMempool minFeeFilter filter
                    [] haveSent nNow s) in
  mapRelay (istate out) = mapRelay s
  /\ vRelayExpiration (istate out) = vRelayExpiration s
  /\ toSendTxHashes out = []
  /\ (sendMempool = false ->
      out = {| toSendTxHashes := []; haveSentTxHashes := haveSent;
               txFilter := filter; vInv := []; istate := s |}).
Proof.
  cbv zeta. unfold NetRequestTxInventory. cbn [snd].
  set (v0 := {| toSendTxHashes := []; haveSentTxHashes := haveSent;
                txFilter := filter; vInv := []; istate := s |}).
  set (v1 := if sendMempool then Dump _ _ _ v0 else v0).
  assert (H1 : toSendTxHashes v1 = []
               /\ mapRelay (istate v1) = mapRelay s
               /\ vRelayExpiration (istate v1) = vRelayExpiration s).
  { subst v1. destruct sendMempool; [|auto].
    split; [|apply (Dump_relay xnode minFeeFilter _ v0)].
    destruct (Dump_grows xnode minFeeFilter (mp_infoAll (ledger s)) v0)
      as (m & st & _ & _ & Ho).
    apply occurrences_nil. exact Ho. }
  destruct H1 as (Hts & Hm & Hq).
  assert (H2 : PendingDrain xnode minFeeFilter nNow v1 = v1).
  { unfold PendingDrain. rewrite Hts. reflexivity. }
  rewrite H2.
  split; [|split; [|split]].
  - unfold FlushInv. destruct (vInv v1); exact Hm.
  - unfold FlushInv. destruct (vInv v1); exact Hq.
  - unfold FlushInv. destruct (vInv v1); exact Hts.
  - intros ->. reflexivity.
Qed.

(** ** Orphan removal *)

Lemma only_orphans_refl s : only_orphans s s.
Proof. repeat split. Qed.

Lemma EraseOrphans_only_orphans hashes : forall s,
  only_orphans s (EraseOrphans hashes s).
Proof.
  induction hashes as [|h hashes IH]; simpl; intro s.
  { apply only_orphans_refl. }
  destruct (IH (set_orphans (snd (EraseOrphanTx (orphanTxMgr s) h)) s))
    as (H1 & H2 & H3 & H4 & H5 & H6).
  repeat split; assumption.
Qed.

Lemma orphans_hit_nil b s :
  orphans_hit b s = []
  <-> forall tx txin, In tx (vtx b) -> In txin (vin tx) ->
        FindOrphanTransactionsByPrev (orphanTxMgr s) (prevout txin) = [].
Proof.
  unfold orphans_hit. split.
  - intros H tx txin Htx Hin.
    destruct (FindOrphanTransactionsByPrev (orphanTxMgr s) (prevout txin))
      as [|o os] eqn:Hf; [reflexivity|].
    exfalso.
    assert (Hmem : In (GetHash (otx o))
                     (flat_map
                        (fun tx =>
                           flat_map
                             (fun txin =>
                                map (fun o => GetHash (otx o))
                                  (FindOrphanTransactionsByPrev
                                     (orphanTxMgr s) (prevout txin)))
                             (vin tx))
                        (vtx b))).
    { apply in_flat_map. exists tx. split; [exact Htx|].
      apply in_flat_map. exists txin. split; [exact Hin|].
      rewrite Hf. left. reflexivity. }
    rewrite H in Hmem. destruct Hmem.
  - intro H.
    match goal with
    | |- ?l = [] => destruct l as [|h rest] eqn:Hl; [reflexivity|]
    end.
    exfalso.
    assert (Hmem : In h (h :: rest)) by (left; reflexivity).
    rewrite <- Hl in Hmem.
    apply in_flat_map in Hmem as (tx & Htx & Hmem).
    apply in_flat_map in Hmem as (txin & Hin & Hmem).
    rewrite (H tx txin Htx Hin) in Hmem. destruct Hmem.
Qed.

(** X19: removing orphans for a block or for a peer writes nothing but
    the orphan pool and makes no call.  For a block the answer is true
    exactly when the block is there and an input of one of its
    transactions is spent by an orphan; on false the state is the one
    before; on true the orphans that spend such an input are erased in
    the order the loops found them. *)
Theorem orphan_removal_frame (pblock : option CBlock) (nodeId : NodeId)
    (s : State) :
  only_orphans s (snd (RemoveOrphanTxForNode nodeId s))
  /\ only_orphans s (snd (RemoveOrphanTxForBlock pblock s))
  /\ (fst (RemoveOrphanTxForBlock pblock s) = true
      <-> exists b tx txin,
            pblock = Some b /\ In tx (vtx b) /\ In txin (vin tx)
            /\ FindOrphanTransactionsByPrev (orphanTxMgr s) (prevout txin)
               <> [])
  /\ (fst (RemoveOrphanTxForBlock pblock s) = false ->
      snd (RemoveOrphanTxForBlock pblock s) = s)
  /\ (forall b, pblock = Some b ->
      snd (RemoveOrphanTxForBlock pblock s)
      = EraseOrphans (orphans_hit b s) s).
Proof.
  split.
  { unfold RemoveOrphanTxForNode.
    destruct (EraseOrphansFor (orphanTxMgr s) nodeId). repeat split. }
  unfold RemoveOrphanTxForBlock.
  destruct pblock as [b|].
  2:{ split; [apply only_orphans_refl|]. split.
      - split; [discriminate|]. intros (b & tx & txin & H & _). discriminate.
      - split; [reflexivity|]. intros b H. discriminate. }
  pose proof (orphans_hit_nil b s) as Hnil.
  destruct (orphans_hit b s) as [|h rest] eqn:Hhit.
  - split; [apply only_orphans_refl|]. split.
    + split; [discriminate|]. intros (b' & tx & txin & [= <-] & Htx & Hin & Hne).
      elim Hne. apply (proj1 Hnil eq_refl tx txin Htx Hin).
    + split; [reflexivity|]. intros b' [= <-]. rewrite Hhit. reflexivity.
  - split; [apply EraseOrphans_only_orphans|]. split.
    + split; [|reflexivity]. intros _.
      destruct (vtx b) as [|tx0 txs] eqn:Hvtx.
      { unfold orphans_hit in Hhit. rewrite Hvtx in Hhit. discriminate. }
      rewrite <- Hvtx in *.
      assert (Hmem : In h (orphans_hit b s)) by (rewrite Hhit; left; reflexivity).
      unfold orphans_hit in Hmem.
      apply in_flat_map in Hmem as (tx & Htx & Hmem).
      apply in_flat_map in Hmem as (txin & Hin & Hmem).
      exists b, tx, txin. split; [reflexivity|]. split; [exact Htx|].
      split; [exact Hin|]. intro Hf. rewrite Hf in Hmem. destruct Hmem.
    + split; [discriminate|]. intros b' [= <-]. rewrite Hhit. reflexivity.
Qed.

(** ** After initialization *)


End Properties.

(** * The properties on the stand-in node *)

Section Scenarios.

Import Stub.

(** [tx6w] arrives while its parent 5 is in the rejects filter. *)
Lemma rejected_parent_shuts_orphan_witness :
  exists r new,
    NetReceiveTxData 0 args alice tx6w 0%N (node [5%N] [] []) = Returned r
    /\ orphanTxMgr (post r) = orphanTxMgr (node [5%N] [] [])
    /\ recentRejects (post r) = Some (rb_insert [5%N] (GetHash tx6w))
    /\ calls (post r) = calls (node [5%N] [] []) ++ new
    /\ In (RejectsInsert (GetHash tx6w)) new
    /\ forallb (fun e => negb (is_ask e)) new = true.
Proof.
  eapply (rejected_parent_shuts_orphan 0 args alice tx6w 0%N
            (node [5%N] [] []) (node [5%N] [] [])
            {| atmp_ok := false; atmp_state := fresh_state;
               atmp_missing := true; atmp_removed := [] |}
            (ledger (node [5%N] [] [])) [5%N]);
    vm_compute; reflexivity.
Defined.

(** C2 as stated fails: the witness-bearing [tx6w] is inserted into the
    rejects filter when its parent is already there. *)
Lemma witness_tx_enters_rejects :
  exists r,
    NetReceiveTxData 0 args alice tx6w 0%N (node [5%N] [] []) = Returned r
    /\ HasWitness tx6w = true
    /\ In (RejectsInsert (GetHash tx6w)) (calls (post r))
    /\ recentRejects (post r) = Some [6%N; 5%N].
Proof.
  eexists. split; [vm_compute; reflexivity|].
  split; [reflexivity|]. split; [simpl; auto|reflexivity].
Qed.

Lemma rejects_insert_guarded_witness :
  exists r,
    NetReceiveTxData 0 args alice tx6w 0%N (node [5%N] [] []) = Returned r
    /\ exists new,
         calls (post r) = calls (node [5%N] [] []) ++ new
         /\ forall h, In (RejectsInsert h) new ->
              (h = GetHash tx6w
               /\ HasWitness tx6w = false
               /\ forall res,
                    In (Validated (FromWire (nodeID alice)) tx6w res) new ->
                    atmp_ok res = false /\ atmp_missing res = false
                    /\ CorruptionPossible (atmp_state res) = false)
              \/ rejected_orphan new h
              \/ (h = GetHash tx6w
                  /\ RejectedParents tx6w
                       (snd (TryAccept alice tx6w (node [5%N] [] [])))
                     = Returned true
                  /\ exists res,
                       In (Validated (FromWire (nodeID alice)) tx6w res) new
                       /\ atmp_ok res = false /\ atmp_missing res = true).
Proof.
  eexists. split; [vm_compute; reflexivity|].
  apply (rejects_insert_guarded 0 args alice tx6w 0%N (node [5%N] [] [])).
  vm_compute. reflexivity.
Defined.

(** Peer 9 is scored once for its two invalid orphans. *)
Lemma orphan_fairness_witness :
  exists r,
    NetReceiveTxData 2 args alice tx5 0%N crowded = Returned r
    /\ exists new,
         calls (post r) = calls crowded ++ new
         /\ (forall p, (length (List.filter (is_misbehave p) new) <= 1)%nat)
         /\ (forall before p d after,
               new = before ++ MisbehaveNode p d :: after ->
               forallb (fun e => negb (is_misbehave p e)
                                 && negb (is_revalidation p e)) after
               = true).
Proof.
  eexists. split; [vm_compute; reflexivity|].
  apply (orphan_fairness 2 args alice tx5 0%N crowded).
  vm_compute. reflexivity.
Defined.

(** What the node does in that scenario: it admits [tx5] and the valid
    orphan, scores peer 9 for [bad6], and skips [bad8]. *)
Example crowded_run :
  exists r,
    NetReceiveTxData 2 args alice tx5 0%N crowded = Returned r
    /\ List.filter is_resolution (calls (post r))
       = [Validated (FromOrphanPool 9) bad6 (verdict 16 "bad-txns-vout-empty" 10);
          MisbehaveNode 9 10;
          Validated (FromOrphanPool 3) tx10
            {| atmp_ok := true; atmp_state := fresh_state;
               atmp_missing := false; atmp_removed := [] |}]
    /\ map (fun i => GetHash (info_tx i)) (pool (ledger (post r)))
       = [5%N; 10%N]
    /\ orphanTxMgr (post r) = [orphan bad8 9]
    /\ recentRejects (post r) = Some [6%N].
Proof.
  eexists. split; [vm_compute; reflexivity|].
  vm_compute. auto.
Qed.

(** The relay cache of [relaying], extended by an entry that expires at
    time 90, at time 100. *)
Lemma expire_drops_overdue_witness :
  let m := <[6%N := tx6]> (mapRelay relaying) in
  let q := (90, 6%N) :: vRelayExpiration relaying in
  relay_sorted q
  /\ relay_indexed m q
  /\ (let m' := fst (ExpireRelay 100 m q) in
      let q' := snd (ExpireRelay 100 m q) in
      (forall t h, In (t, h) q -> t < 100 -> ~ In (t, h) q' /\ m' !! h = None)
      /\ (forall t h, In (t, h) q' -> 100 <= t)
      /\ (forall h, is_Some (m' !! h) -> exists t, In (t, h) q' /\ 100 <= t)
      /\ (exists dropped,
            q = dropped ++ q'
            /\ (forall t h, In (t, h) dropped -> t < 100 /\ m' !! h = None)
            /\ (forall h, (forall t, ~ In (t, h) dropped) ->
                  m' !! h = m !! h))
      /\ (forall t h, In (t, h) q -> 100 <= t -> In (t, h) q')
      /\ (forall h, (forall t, In (t, h) q -> 100 <= t) -> m' !! h = m !! h)
      /\ (forall s tIns h tx,
            mapRelay s = m -> vRelayExpiration s = q ->
            m !! h = None -> (forall t, ~ In (t, h) q) ->
            relay_bounded (tIns + 15 * 60 * 1000000) q ->
            let s1 := PublishRelay tIns h tx s in
            let m1 := fst (ExpireRelay 100 (mapRelay s1)
                             (vRelayExpiration s1)) in
            let q1 := snd (ExpireRelay 100 (mapRelay s1)
                             (vRelayExpiration s1)) in
            (tIns + 15 * 60 * 1000000 < 100 ->
             m1 !! h = None /\ forall t, ~ In (t, h) q1)
            /\ (100 <= tIns + 15 * 60 * 1000000 ->
                m1 !! h = Some tx
                /\ In (tIns + 15 * 60 * 1000000, h) q1))).
Proof.
  intros m q.
  assert (Hs : relay_sorted q).
  { unfold relay_sorted, q. simpl. repeat constructor. simpl. lia. }
  assert (Hi : relay_indexed m q).
  { intros h [x Hx]. unfold m, q in *. simpl in *.
    destruct (decide (h = 6%N)) as [->|Hne6]; [exists 90; auto|].
    rewrite lookup_insert_ne in Hx by congruence.
    destruct (decide (h = 5%N)) as [->|Hne5]; [exists 100; auto|].
    rewrite lookup_singleton_ne in Hx by congruence. discriminate. }
  split; [exact Hs|]. split; [exact Hi|].
  exact (expire_drops_overdue 100 m q Hs Hi).
Defined.

(** C4 as stated fails: at time 100 the entry of [relaying] that expires at
    100 is still in the queue and in the map after an egress round. *)
Lemma expire_keeps_entry_due_now :
  let v := snd (NetRequestTxInventory alice false 0 None [9%N] [] 100
                  relaying) in
  In (100, 5%N) (vRelayExpiration relaying)
  /\ 100 <= 100
  /\ In (100, 5%N) (vRelayExpiration (istate v))
  /\ mapRelay (istate v) !! 5%N = Some tx5.
Proof.
  split; [simpl; auto|]. split; [lia|].
  split; [vm_compute; auto|vm_compute; reflexivity].
Qed.

(** C5: the code at the failing input.  Peer 7 sends [tx5] twice to a
    started node.  The first call validates and admits it and leaves the
    rejects filter empty.  On the second call the existence oracle knows
    the transaction, so AcceptToMemoryPool is not called; the call writes
    neither the mempool nor the orphan pool, yet it inserts the txid of
    the admitted transaction into the rejects filter: after two calls the
    filter differs from the filter after one. *)
Lemma second_call_changes_rejects :
  exists r1 r2,
    NetReceiveTxData 1 args alice tx5 0%N (node [] [] []) = Returned r1
    /\ NetReceiveTxData 1 args alice tx5 0%N (post r1) = Returned r2
    /\ mp_exists (ledger (post r1)) (GetHash tx5) = true
    /\ recentRejects (post r1) = Some []
    /\ recentRejects (post r2) = Some [5%N]
    /\ recentRejects (post r2) <> recentRejects (post r1)
    /\ ledger (post r2) = ledger (post r1)
    /\ orphanTxMgr (post r2) = orphanTxMgr (post r1)
    /\ calls (post r2)
       = calls (post r1)
         ++ [RejectsInsert 5%N; AddToCompactExtraTransactions tx5].
Proof.
  eexists. eexists. split; [vm_compute; reflexivity|].
  split; [vm_compute; reflexivity|].
  split; [vm_compute; reflexivity|].
  split; [reflexivity|]. split; [reflexivity|]. split; [discriminate|].
  split; [reflexivity|]. split; [reflexivity|]. vm_compute. reflexivity.
Qed.

(** A dump of a mempool holding [tx5] above and [tx6] below the fee floor,
    with a bloom filter matching [tx5], while 5 and 7 are pending. *)
Lemma mempool_dump_advertises_witness :
  let s := node [] [entry tx5 50 1000; entry tx6 50 10] [] in
  let out := snd (NetRequestTxInventory alice true 500 (matching [5%N])
                    [5%N; 7%N] [] 100 s) in
  (exists sent, haveSentTxHashes out = [] ++ sent /\ In 5%N sent)
  /\ (exists new, calls (istate out) = calls s ++ new
                  /\ In 5%N (advertised new))
  /\ (occurrences (toSendTxHashes out) 5%N
      <= pred (occurrences [5%N; 7%N] 5%N))%nat
  /\ (List.NoDup [5%N; 7%N] -> ~ In 5%N (toSendTxHashes out)).
Proof.
  apply (mempool_dump_advertises alice 500 (matching [5%N]) [5%N; 7%N] [] 100
           (node [] [entry tx5 50 1000; entry tx6 50 10] [])
           [] (entry tx5 50 1000) [entry tx6 50 10]).
  - reflexivity.
  - vm_compute. reflexivity.
Defined.

(** [std::find] and [erase] drop one occurrence: were a txid pending
    twice, the other occurrence would go through the pending drain. *)
Example duplicate_pending_txid :
  let s := node [] [entry tx5 50 1000] [] in
  let out := snd (NetRequestTxInventory alice true 0 None
                    [5%N; 5%N] [] 100 s) in
  haveSentTxHashes out = [5%N; 5%N]
  /\ advertised (calls (istate out)) = [5%N; 5%N].
Proof. vm_compute. auto. Qed.

(** The whitelisted [gateway] sends [tx5], which is in the mempool. *)
Lemma whitelist_force_relay_witness :
  let s := node [] [entry tx5 50 1000] [] in
  (exists r new,
     NetReceiveTxData 0 args gateway tx5 0%N s = Returned r
     /\ calls (post r) = calls s ++ new
     /\ In (BroadcastTransaction (GetHash tx5)) new)
  /\ (exists r new,
        NetReceiveTxData 0 args gateway tx5 0%N s = Returned r
        /\ ledger (post r) = ledger s
        /\ calls (post r) = calls s ++ new
        /\ In (BroadcastTransaction (GetHash tx5)) new
        /\ forallb (fun e => negb (is_reject e)) new = true).
Proof.
  intro s.
  destruct (whitelist_force_relay 0 args gateway tx5 0%N s) as [HA HB];
    [vm_compute; reflexivity | vm_compute; reflexivity
    | vm_compute; reflexivity | eexists; reflexivity |].
  split.
  - eapply HA; [vm_compute; reflexivity | reflexivity | reflexivity
               | left; reflexivity].
  - apply HB. vm_compute. reflexivity.
Defined.

(** From [relaying]: transaction 5 is served from the relay cache,
    transaction 6 from the mempool to a peer whose last mempool request is
    not older than the entry, and not to one whose request is older. *)
Lemma NetRequestTxData_serves_witness :
  NetRequestTxData alice 5%N true 0 relaying
  = (true, emit (SendTx 7 70015 0 tx5) relaying)
  /\ NetRequestTxData alice 6%N false 60 relaying
     = (true, emit (SendTx 7 70015 (2 ^ 30) tx6) relaying)
  /\ NetRequestTxData alice 6%N false 40 relaying = (false, relaying).
Proof.
  split; [|split].
  - apply (proj1 (NetRequestTxData_serves alice 5%N true 0 relaying)).
    vm_compute. reflexivity.
  - apply (proj1 (proj2 (NetRequestTxData_serves alice 6%N false 60 relaying))
             (entry tx6 50 1000)).
    + vm_compute. reflexivity.
    + vm_compute. reflexivity.
    + simpl. lia.
  - apply (proj2 (proj2 (NetRequestTxData_serves alice 6%N false 40 relaying))).
    + vm_compute. reflexivity.
    + intros txinfo H. vm_compute in H. injection H as <-. simpl. lia.
Defined.

(** The orphan [tx9] is re-validated while its second parent is unknown. *)
Lemma missing_inputs_orphan_untouched_witness :
  let o := orphan tx9 9 in
  let r := StartResolution tx5 not_validated
             (node [] [entry tx5 50 1000] [orphan tx9 9]) in
  let res := {| atmp_ok := false; atmp_state := fresh_state;
                atmp_missing := true; atmp_removed := [] |} in
  (exists r',
     ResolveOrphan o r = Returned r'
     /\ vEraseQueue r' = vEraseQueue r
     /\ orphanTxMgr (rstate r') = orphanTxMgr (rstate r)
     /\ recentRejects (rstate r') = recentRejects (rstate r)
     /\ setMisbehaving r' = setMisbehaving r
     /\ vWorkQueue r' = vWorkQueue r
     /\ calls (rstate r')
        = calls (rstate r)
          ++ [Validated (FromOrphanPool (fromPeer o)) (otx o) res;
              MempoolCheck])
  /\ (forall fuel tx res0 s rfin new,
        ProcessWorkQueue fuel (StartResolution tx res0 s) = Returned rfin ->
        calls (rstate rfin) = calls s ++ new ->
        ~ settled new (GetHash (otx o)) ->
        orphanTxMgr (rstate rfin) = orphanTxMgr s
        /\ ~ In (GetHash (otx o)) (vEraseQueue rfin)
        /\ ~ In (RejectsInsert (GetHash (otx o))) new).
Proof.
  intros o r res.
  apply (missing_inputs_orphan_untouched o r res (ledger (rstate r))).
  - apply not_elem_of_empty.
  - vm_compute. reflexivity.
  - reflexivity.
  - reflexivity.
Defined.

(** [tx5] arrives while its child [tx6] waits in the orphan pool. *)
Lemma NetReceiveTxData_returns_true_witness :
  let s := node [] [] [orphan tx6 9] in
  (exists r,
     NetReceiveTxData 2 args alice tx5 0%N s = Returned r /\ ret r = true)
  /\ (forall fuel' r',
        NetReceiveTxData fuel' args alice tx5 0%N s = Returned r' ->
        ret r' = true).
Proof.
  intro s.
  apply (NetReceiveTxData_returns_true args alice tx5 0%N s height 1 2).
  - eexists. reflexivity.
  - intros op o Hin. simpl in Hin.
    destruct (spends op (orphan tx6 9)) eqn:Hs; [|destruct Hin].
    destruct Hin as [<-|[]].
    unfold spends in Hs. simpl in Hs. rewrite orb_false_r in Hs.
    unfold outpoint_eqb in Hs. apply andb_true_iff in Hs as [Hh _].
    apply N.eqb_eq in Hh. simpl in Hh. rewrite <- Hh.
    vm_compute. lia.
  - intro op. simpl.
    destruct (spends op (orphan tx6 9)); vm_compute; lia.
  - vm_compute. lia.
Defined.

(** *** Scenarios of the further properties *)

(** [tx6] is in the mempool of [stale], whose filter is reset by the
    query. *)
Lemma DoesTxExist_pools_witness :
  mp_exists (ledger stale) 6%N || om_Exists (orphanTxMgr stale) 6%N = true
  /\ fst (DoesTxExist 6%N stale) = true.
Proof.
  split; [vm_compute; reflexivity|].
  apply (DoesTxExist_pools 6%N stale). vm_compute. reflexivity.
Defined.

Lemma ingress_peer_context_witness :
  exists r,
    NetReceiveTxData 0 args alice bad6 0%N (node [] [] []) = Returned r
    /\ xnode_out r
       = (if relay_refused args alice then alice
          else context_after alice
                 (fst (TryAccept alice bad6 (node [] [] []))))
    /\ txHash_out r
       = (if relay_refused args alice then 0%N else GetHash bad6).
Proof.
  eexists. split; [vm_compute; reflexivity|].
  apply (ingress_peer_context 0 args alice bad6 0%N (node [] [] [])).
  vm_compute. reflexivity.
Defined.

(** [tx9] is parked on a node that has a relay cache. *)
Lemma ingress_keeps_relay_witness :
  exists r,
    NetReceiveTxData 0 args alice tx9 0%N relaying = Returned r
    /\ mapRelay (post r) = mapRelay relaying
    /\ vRelayExpiration (post r) = vRelayExpiration relaying
    /\ (is_Some (recentRejects relaying) -> is_Some (recentRejects (post r)))
    /\ exists new, calls (post r) = calls relaying ++ new.
Proof.
  eexists. split; [vm_compute; reflexivity|].
  apply (ingress_keeps_relay 0 args alice tx9 0%N relaying).
  vm_compute. reflexivity.
Defined.

Lemma accept_without_children_witness :
  exists r,
    NetReceiveTxData 1 args alice tx5 0%N moved = Returned r
    /\ (exists tail,
          calls (post r)
          = calls moved
            ++ [Validated (FromWire (nodeID alice)) tx5
                  (fst (TryAccept alice tx5 moved));
                MempoolCheck; BroadcastTransaction (GetHash tx5)]
            ++ tail
          /\ forallb is_tail tail = true)
    /\ orphanTxMgr (post r) = orphanTxMgr moved
    /\ recentRejects (post r)
       = recentRejects (snd (TryAccept alice tx5 moved))
    /\ ledger (post r) = ledger (snd (TryAccept alice tx5 moved))
    /\ retFlags (xnode_out r)
       = SetFlagsBit (retFlags alice) NF_NEWTRANSACTION
    /\ (TipBlockHash (ledger moved)
        = hashRecentRejectsChainTip moved ->
        recentRejects (post r) = recentRejects moved)
    /\ (TipBlockHash (ledger moved)
        <> hashRecentRejectsChainTip moved ->
        recentRejects (post r)
        = option_map rb_reset (recentRejects moved))
    /\ ledger (post r)
       = snd (AcceptToMemoryPool (ledger moved) tx5).
Proof.
  apply (accept_without_children 1 args alice tx5 0%N moved);
    [vm_compute; reflexivity|vm_compute; reflexivity
    |intros i Hi; reflexivity|vm_compute; lia].
Defined.

(** On [moved] the existence query of the call resets the filter. *)
Example plain_accept_resets_stale_filter :
  exists r,
    NetReceiveTxData 1 args alice tx5 0%N moved = Returned r
    /\ recentRejects moved = Some [7%N]
    /\ recentRejects (post r) = Some [].
Proof.
  eexists. split; [vm_compute; reflexivity|]. split; reflexivity.
Qed.

(** [bad6] has no outputs: the sender gets a REJECT with code 16. *)
Lemma reject_message_witness :
  exists r,
    NetReceiveTxData 0 args alice bad6 0%N (node [] [] []) = Returned r
    /\ exists new,
         calls (post r) = calls (node [] [] []) ++ new
         /\ (List.filter is_reject new = []
             \/ exists state reason,
                  state = atmp_state (fst (TryAccept alice bad6
                                             (node [] [] [])))
                  /\ List.filter is_reject new
                     = [SendReject (nodeID alice) (sendVersion alice)
                          (GetRejectCode state mod 256) reason
                          (GetHash bad6)]
                  /\ invalid state = true
                  /\ 0 < GetRejectCode state < REJECT_INTERNAL
                  /\ reason = substring 0 MAX_REJECT_MESSAGE_LENGTH
                                (GetRejectReason state)
                  /\ (String.length reason
                      <= MAX_REJECT_MESSAGE_LENGTH)%nat).
Proof.
  eexists. split; [vm_compute; reflexivity|].
  apply (reject_message 0 args alice bad6 0%N (node [] [] [])).
  vm_compute. reflexivity.
Defined.

(** [tx9] spends [tx5], which the mempool of [moved_funded] has, and
    the unknown transaction 8. *)
Lemma missing_inputs_parks_witness :
  exists r,
    NetReceiveTxData 0 args alice tx9 0%N moved_funded = Returned r
    /\ (exists tail,
          calls (post r)
          = calls moved_funded
            ++ [Validated (FromWire (nodeID alice)) tx9
                  (fst (TryAccept alice tx9 moved_funded))]
            ++ parent_requests alice (snd (TryAccept alice tx9 moved_funded))
                 (vin tx9)
            ++ tail
          /\ forallb is_tail tail = true)
    /\ orphanTxMgr (post r)
       = snd (LimitOrphanTxSize
                (snd (AddOrphanTx (orphanTxMgr moved_funded) tx9 (nodeID alice)))
                (Z.max 0 (maxorphantx args) mod 2 ^ 32))
    /\ recentRejects (post r)
       = recentRejects (snd (TryAccept alice tx9 moved_funded))
    /\ ledger (post r) = ledger (snd (TryAccept alice tx9 moved_funded))
    /\ (TipBlockHash (ledger moved_funded) = hashRecentRejectsChainTip moved_funded ->
        recentRejects (post r) = recentRejects moved_funded)
    /\ (TipBlockHash (ledger moved_funded) <> hashRecentRejectsChainTip moved_funded ->
        recentRejects (post r)
        = option_map rb_reset (recentRejects moved_funded))
    /\ ledger (post r) = snd (AcceptToMemoryPool (ledger moved_funded) tx9).
Proof.
  eexists. split; [vm_compute; reflexivity|].
  apply (missing_inputs_parks 0 args alice tx9 0%N moved_funded);
    vm_compute; reflexivity.
Defined.

Lemma ExpireRelay_compose_witness :
  95 <= 100
  /\ ExpireRelay 100
       (fst (ExpireRelay 95 (mapRelay relaying)
               ((90, 6%N) :: vRelayExpiration relaying)))
       (snd (ExpireRelay 95 (mapRelay relaying)
               ((90, 6%N) :: vRelayExpiration relaying)))
     = ExpireRelay 100 (mapRelay relaying)
         ((90, 6%N) :: vRelayExpiration relaying).
Proof.
  split; [lia|].
  apply (ExpireRelay_compose 95 100 ((90, 6%N) :: vRelayExpiration relaying)
           (mapRelay relaying)).
  lia.
Defined.

Lemma inv_batches_witness :
  0 < MAX_INV_SZ
  /\ exists fulls last,
       calls (istate (snd (NetRequestTxInventory alice true 0 None [6%N] []
                             100 relaying)))
       = calls relaying ++ fulls ++ last
       /\ forallb (full_batch alice) fulls = true
       /\ (last = []
           \/ exists batch,
                last = [SendInv (nodeID alice) (sendVersion alice) batch]
                /\ 0 < Z.of_nat (length batch) < MAX_INV_SZ).
Proof.
  split; [vm_compute; reflexivity|].
  apply (inv_batches alice true 0 None [6%N] [] 100 relaying).
  vm_compute. reflexivity.
Defined.

(** In [crowded] the accepted [tx5] and the orphan [tx10] are relayed. *)
Lemma broadcast_only_accepted_witness :
  exists r,
    NetReceiveTxData 2 args alice tx5 0%N crowded = Returned r
    /\ exists new,
         calls (post r) = calls crowded ++ new
         /\ forall h, In (BroadcastTransaction h) new ->
              h = GetHash tx5
              /\ (atmp_ok (fst (TryAccept alice tx5 crowded)) = true
                  \/ atmp_ok (fst (TryAccept alice tx5 crowded)) = false
                     /\ atmp_missing (fst (TryAccept alice tx5 crowded))
                        = false
                     /\ IsFlagsBitOn (flags alice) NF_WHITELIST
                        && whitelistforcerelay args = true
                     /\ (invalid (atmp_state
                                    (fst (TryAccept alice tx5 crowded)))
                         = false
                         \/ nDoS (atmp_state
                                    (fst (TryAccept alice tx5 crowded)))
                            = 0))
              \/ exists p tx res,
                   In (Validated (FromOrphanPool p) tx res) new
                   /\ GetHash tx = h /\ atmp_ok res = true.
Proof.
  eexists. split; [vm_compute; reflexivity|].
  apply (broadcast_only_accepted 2 args alice tx5 0%N crowded).
  vm_compute. reflexivity.
Defined.

(** In [crowded] peer 9 is scored for its orphan [bad6]. *)
Lemma misbehaviour_only_invalid_orphan_witness :
  exists r,
    NetReceiveTxData 2 args alice tx5 0%N crowded = Returned r
    /\ exists new,
         calls (post r) = calls crowded ++ new
         /\ forall p d, In (MisbehaveNode p d) new ->
              0 < d
              /\ exists tx res,
                   In (Validated (FromOrphanPool p) tx res) new
                   /\ atmp_ok res = false /\ atmp_missing res = false
                   /\ invalid (atmp_state res) = true
                   /\ nDoS (atmp_state res) = d.
Proof.
  eexists. split; [vm_compute; reflexivity|].
  apply (misbehaviour_only_invalid_orphan 2 args alice tx5 0%N crowded).
  vm_compute. reflexivity.
Defined.

(** On [cold] the invalid [bad6] stops the call, the witness-bearing
    [tx6w] with its unknown parent does too. *)
Lemma ingress_without_filter_witness :
  (NetReceiveTxData 0 args alice bad6 0%N cold = Aborted
   <-> if atmp_missing (fst (TryAccept alice bad6 cold))
       then vin bad6 <> []
       else HasWitness bad6 = false
            /\ CorruptionPossible
                 (atmp_state (fst (TryAccept alice bad6 cold))) = false)
  /\ NetReceiveTxData 0 args alice bad6 0%N cold <> OutOfFuel.
Proof.
  apply (ingress_without_filter 0 args alice bad6 0%N cold);
    vm_compute; reflexivity.
Defined.


End Scenarios.
